(** * CERES-SARB GEOS-IT aerosol optical depth: converter and aggregator

    A shallow embedding of [species_optics.py] (optics-table gather,
    layer optical depth, 3:1 / 2:1 sub-sampling, clipping, band selection)
    and of [external_mix.py] (external-mixture aggregation).

    The humidity interpolation of the optics table ([rh_interp]), the
    files written by a run of the converter, and [validate_run.py] (the
    check of the files of a run) are embedded in modules of their own.

    Number model.  The Python code computes in IEEE floating point
    (float64 for the gather and the optical depths, float32 for the
    sub-sampled fields).  Here every floating-point value is an exact
    rational ([Q]): rounding, infinities and NaN are outside the model,
    and [astype(np.float32)] is the identity.  Equalities between computed
    numbers are therefore stated with [Qeq] ([==]). *)

From Stdlib Require Import QArith Qround Qabs Qminmax Lqa ZArith Lia String Ascii.
From stdpp Require Import base option list gmap strings.
From Stdlib Require Import Sorted DecimalString.

Local Open Scope Q_scope.
Local Open Scope string_scope.

(** ** Python exceptions and the error monad *)

Inductive exn : Type :=
  | KeyError
  | IndexError
  | ValueError
  | NameError
  | FileNotFoundError.

Inductive result (A : Type) : Type :=
  | Ok (a : A)
  | Raise (e : exn).
Arguments Ok {A} a.
Arguments Raise {A} e.

Definition bind {A B} (r : result A) (f : A → result B) : result B :=
  match r with Ok a => f a | Raise e => Raise e end.

Notation "'let!' x ':=' e 'in' k" := (bind e (fun x => k))
  (at level 10, x name, e at level 100, k at level 200).
Notation "'let!' ' p ':=' e 'in' k" := (bind e (fun x => match x with p => k end))
  (at level 10, p pattern, e at level 100, k at level 200).

Definition of_option {A} (e : exn) (o : option A) : result A :=
  match o with Some a => Ok a | None => Raise e end.

(** [for x in l: ...] collecting the results, stopping at the first
    exception. *)
Fixpoint traverse {A B} (f : A → result B) (l : list A) : result (list B) :=
  match l with
  | [] => Ok []
  | x :: r => let! y := f x in let! ys := traverse f r in Ok (y :: ys)
  end.

(** ** Python strings *)

Module Py.

(** [needle in s] *)
Fixpoint contains (needle s : string) : bool :=
  String.prefix needle s
  || match s with
     | EmptyString => false
     | String _ s' => contains needle s'
     end.

(** [s.replace(old, new)] for a non-empty [old]: non-overlapping
    occurrences, scanned from the left.  [skip] counts the characters of
    a match that are still to be dropped. *)
Fixpoint replace_go (old new s : string) (skip : nat) : string :=
  match s with
  | EmptyString => EmptyString
  | String c s' =>
      match skip with
      | S k => replace_go old new s' k
      | O =>
          if String.prefix old s
          then new ++ replace_go old new s' (String.length old - 1)
          else String c (replace_go old new s' 0)
      end
  end.
Definition replace (old new s : string) : string := replace_go old new s 0.

(** [s[i:j]] for [0 <= i <= j]. *)
Definition slice (i j : nat) (s : string) : string :=
  String.substring i (Nat.min j (String.length s) - i) s.

Definition upper_ascii (c : ascii) : ascii :=
  let n := nat_of_ascii c in
  if (97 <=? n)%nat && (n <=? 122)%nat then ascii_of_nat (n - 32) else c.
(** [s.upper()] on ASCII text. *)
Fixpoint upper (s : string) : string :=
  match s with
  | EmptyString => EmptyString
  | String c s' => String (upper_ascii c) (upper s')
  end.

Definition is_space (c : ascii) : bool :=
  let n := nat_of_ascii c in
  ((9 <=? n)%nat && (n <=? 13)%nat) || ((28 <=? n)%nat && (n <=? 32)%nat).
Definition digit_val (c : ascii) : option Z :=
  let n := nat_of_ascii c in
  if (48 <=? n)%nat && (n <=? 57)%nat then Some (Z.of_nat (n - 48)) else None.

Fixpoint lstrip (s : string) : string :=
  match s with
  | String c s' => if is_space c then lstrip s' else s
  | EmptyString => EmptyString
  end.
(** Digits optionally separated by single underscores, then trailing
    white space only; [acc] is the value read so far and [prev] tells
    whether the previous character was a digit. *)
Fixpoint digits (s : string) (acc : Z) (prev : bool) : option Z :=
  match s with
  | EmptyString => if prev then Some acc else None
  | String c s' =>
      match digit_val c with
      | Some d => digits s' (10 * acc + d)%Z true
      | None =>
          if Ascii.eqb c "_" then (if prev then digits_after_us s' acc else None)
          else if is_space c
               then (if prev && String.eqb (lstrip s') "" then Some acc else None)
               else None
      end
  end
with digits_after_us (s : string) (acc : Z) : option Z :=
  match s with
  | EmptyString => None
  | String c s' =>
      match digit_val c with
      | Some d => digits s' (10 * acc + d)%Z true
      | None => None
      end
  end.

(** [int(s)] for an ASCII string: surrounding white space, an optional
    sign, decimal digits. *)
Definition int (s : string) : result Z :=
  of_option ValueError
    match lstrip s with
    | String "-" s' => Z.opp <$> digits s' 0 false
    | String "+" s' => digits s' 0 false
    | s' => digits s' 0 false
    end.

(** [str(n)] for a natural number, and the zero-padded renderings
    [f'{n:03d}'] (width 3) and ['%.2d' % n] (width 2). *)
Definition str_nat (n : nat) : string := NilEmpty.string_of_uint (Nat.to_uint n).
Fixpoint zeros (k : nat) : string :=
  match k with O => EmptyString | S k' => String "0" (zeros k') end.
Definition format_0d (width n : nat) : string :=
  let s := str_nat n in zeros (width - String.length s) ++ s.

(** [s.split(sep)] for a separator of one character. *)
Fixpoint split (sep : ascii) (s : string) : list string :=
  match s with
  | EmptyString => [EmptyString]
  | String c s' =>
      if Ascii.eqb c sep then EmptyString :: split sep s'
      else match split sep s' with
           | [] => [String c EmptyString]
           | p :: ps => String c p :: ps
           end
  end.

End Py.


(** ** NumPy primitives *)

Module Np.

(** An integer index into an axis of length [n]: a negative index counts
    from the end, anything outside [-n, n) is an [IndexError]. *)
Definition index (n : nat) (i : Z) : result nat :=
  if ((0 <=? i) && (i <? Z.of_nat n))%Z then Ok (Z.to_nat i)
  else if ((- Z.of_nat n <=? i) && (i <? 0))%Z then Ok (Z.to_nat (Z.of_nat n + i))
  else Raise IndexError.

(** [a[i]] for an integer [i]. *)
Definition get {A} (a : list A) (i : Z) : result A :=
  let! k := index (length a) i in of_option IndexError (a !! k).

(** Element-wise binary operation on one-dimensional arrays, with
    broadcasting of a length-one operand. *)
Definition zip1 (f : Q → Q → Q) (a b : list Q) : result (list Q) :=
  if (length a =? length b)%nat then Ok (zip_with f a b)
  else match a, b with
       | [x], _ => Ok (f x <$> b)
       | _, [y] => Ok ((λ x, f x y) <$> a)
       | _, _ => Raise ValueError
       end.

(** Slices along one axis: [a[1:]], [a[:-1]], [a[::2]], [a[1::2]],
    [a[:-1:2]], [a[s:s+3]]. *)
Definition from1 {A} (a : list A) : list A := tail a.
Definition upto_last {A} (a : list A) : list A := removelast a.
Fixpoint step2 {A} (a : list A) : list A :=
  match a with
  | [] => []
  | x :: r => x :: match r with [] => [] | _ :: r' => step2 r' end
  end.
Definition from1_step2 {A} (a : list A) : list A := step2 (from1 a).
Definition upto_last_step2 {A} (a : list A) : list A := step2 (upto_last a).
Definition window3 {A} (s : nat) (a : list A) : list A := take 3 (drop s a).

(** [np.clip(a, lo, hi)] on one element: [minimum(maximum(a, lo), hi)]. *)
Definition clip (a lo hi : Q) : Q := Qmin (Qmax a lo) hi.

(** [a.reshape(n0, n1, n2)] of a flat array (row-major). *)
Fixpoint chunks {A} (k n : nat) (a : list A) : list (list A) :=
  match k with
  | O => []
  | S k' => take n a :: chunks k' n (drop n a)
  end.
Definition reshape3 {A} (n0 n1 n2 : nat) (a : list A) : result (list (list (list A))) :=
  if (length a =? n0 * n1 * n2)%nat
  then Ok (chunks n1 n2 <$> chunks n0 (n1 * n2) a)
  else Raise ValueError.

(** [a[l, j, i]] for in-range, non-negative indices. *)
Definition cell {A} (a : list (list (list A))) (l j i : nat) : option A :=
  lv ← a !! l; row ← lv !! j; row !! i.
Definition cell2 {A} (a : list (list A)) (j i : nat) : option A :=
  row ← a !! j; row !! i.

(** [np.argmin(a)]: the first index of the minimum; [a] is scanned from
    the left and the candidate changes on a strictly smaller value only. *)
Fixpoint argmin_go (a : list Q) (i best : nat) (bv : Q) : nat :=
  match a with
  | [] => best
  | x :: r =>
      if Qlt_le_dec x bv then argmin_go r (S i) i x
      else argmin_go r (S i) best bv
  end.
Definition argmin (a : list Q) : result nat :=
  match a with
  | [] => Raise ValueError
  | x :: r => Ok (argmin_go r 1 0 x)
  end.

(** [a.sum(axis=0)] of 2-D arrays of shape [(r, c)] stacked along axis
    0: the additive reduction from the zero array. *)
Definition zeros2 (r c : nat) : list (list Q) := replicate r (replicate c 0).
Definition add2 (x y : list (list Q)) : list (list Q) :=
  zip_with (zip_with Qplus) x y.
Definition sum_axis0 (r c : nat) (a : list (list (list Q))) : list (list Q) :=
  foldl add2 (zeros2 r c) a.
(** [a.mean(axis=0)]: the sum divided by the number of stacked arrays. *)
Definition mean_axis0 (r c : nat) (a : list (list (list Q))) : list (list Q) :=
  (λ row : list Q, (λ v, v / inject_Z (Z.of_nat (length a))) <$> row)
    <$> sum_axis0 r c a.

(** Whether an axis of length [v] can be assigned to an axis of length
    [t]: equal, or broadcast from one. *)
Definition fits (v t : nat) : bool := (v =? t)%nat || (v =? 1)%nat.
(** An axis of length [t] or one, seen as an axis of length [t]. *)
Definition stretch {A} (t : nat) (a : list A) : list A :=
  if (length a =? t)%nat then a
  else match a with [x] => replicate t x | _ => a end.

End Np.

(** ** species_optics.py *)

Module SpeciesOptics.

Definition tau_thresh : Q := 0.00001.
Definition g_earth : Q := 9.8.

Definition species_map (s : string) : result string :=
  if String.eqb s "SU" then Ok "SO4"
  else if String.eqb s "OCPHO" then Ok "OCPHOBIC"
  else if String.eqb s "OCPHI" then Ok "OCPHILIC"
  else if String.eqb s "BCPHO" then Ok "BCPHOBIC"
  else if String.eqb s "BCPHI" then Ok "BCPHILIC"
  else if String.eqb s "SS" then Ok "SS"
  else if String.eqb s "DU" then Ok "DU"
  else if String.eqb s "NI" then Ok "NO3AN"
  else Raise KeyError.

(** The optics table returned by [rh_interp]: three coefficient arrays
    indexed [(radius, rh, lambda)] and the wavelength coordinate. *)
Record optics : Type := {
  ext : list (list (list Q));
  sca : list (list (list Q));
  asm : list (list (list Q));
  lambda : list Q }.

(** [rh_interp] builds every array with shape [(nr, 100, nw)]:
    [rh_fine = np.arange(0, 1, 0.01)] has 100 entries. *)
Definition nrh : nat := 100.
Definition table_shape (nr nw : nat) (values : list (list (list Q))) : Prop :=
  length values = nr ∧
  Forall (λ plane, length plane = nrh ∧ Forall (λ row : list Q, length row = nw) plane)
         values.

(** One time step of the input file: the shape of [ds['RH']] (without
    the time axis), the variables flattened in row-major order
    ([ds[name].values[t,...].flatten()]), and the two coordinates. *)
Record snapshot : Type := {
  nlev : nat; nlat : nat; nlon : nat;
  vars : gmap string (list Q);
  lat : list Q;
  lon : list Q }.

Definition var (ds : snapshot) (name : string) : result (list Q) :=
  of_option KeyError (vars ds !! name).

(** Lines 124-132: the variable read from the file and the radius bin. *)
Definition select_species (species size_bin : string) : result (string * Z) :=
  if String.eqb species "SS" || String.eqb species "DU" then
    let! n := Py.int size_bin in Ok (species ++ size_bin, (n - 1)%Z)
  else if String.eqb species "NO3AN" then Ok ("NO3AN1", 0%Z)
  else Ok (species, 0%Z).

(** Lines 144-148, one cell.  [np.floor(rh * 100)] converted to int32 is
    [Qfloor]; the conversion of a value outside the int32 range is
    undefined in NumPy and is not modelled. *)
Definition idx_rh_cell (species : string) (rh : Q) : Z :=
  if Py.contains "PHO" species then 0%Z
  else
    let i := Qfloor (rh * 100) in
    if (99 <? i)%Z then 99%Z else i.

Definition idx_rh (species : string) (rh : list Q) : list Z :=
  idx_rh_cell species <$> rh.

(** Lines 154-156: [values[idx_size, idx_rh, idx_wvl]], an integer, an
    integer array and an integer; each index is resolved against its own
    axis, for every cell. *)
Definition gather_cell (values : list (list (list Q)))
    (idx_size i idx_wvl : Z) : result Q :=
  let! plane := Np.get values idx_size in
  let! row := Np.get plane i in
  Np.get row idx_wvl.
Definition gather (values : list (list (list Q)))
    (idx_size : Z) (idx_rh : list Z) (idx_wvl : Z) : result (list Q) :=
  traverse (λ i, gather_cell values idx_size i idx_wvl) idx_rh.

(** Lines 158-159: [delp * q_species * k / g_earth]. *)
Definition tau (delp q_species k : list Q) : result (list Q) :=
  let! dq := Np.zip1 Qmult delp q_species in
  let! dqk := Np.zip1 Qmult dq k in
  Ok ((λ v, v / g_earth) <$> dqk).

(** [0.5 * (a[:, :-1, :] + a[:, 1:, :])]: the mean of each pair of rows
    adjacent along axis 1 (latitude), level by level. *)
Definition half_sum (u v : Q) : Q := 0.5 * (u + v).
Definition mid (a : list (list (list Q))) : list (list (list Q)) :=
  (λ lv, zip_with (zip_with half_sum) (Np.upto_last lv) (Np.from1 lv)) <$> a.

(** The two operands of lines 195-196 (and 199-200, 203-204):
    [a_mid[s:s+3, :-1:2, ::2]] and [a_mid[s:s+3, 1::2, ::2]]. *)
Definition even_rows (s : nat) (a_mid : list (list (list Q))) : list (list (list Q)) :=
  (λ lv, Np.step2 <$> Np.upto_last_step2 lv) <$> Np.window3 s a_mid.
Definition odd_rows (s : nat) (a_mid : list (list (list Q))) : list (list (list Q)) :=
  (λ lv, Np.step2 <$> Np.from1_step2 lv) <$> Np.window3 s a_mid.

(** Shape of these operands after the reduction along axis 0. *)
Definition sub_rows (nlat : nat) : nat := (nlat - 1) / 2.
Definition sub_cols (nlon : nat) : nat := (nlon + 1) / 2.

(** The right-hand sides of the loop body for level [ilev]. *)
Definition level_sum (nlat nlon : nat) (a_mid : list (list (list Q))) (ilev : nat)
    : list (list Q) :=
  let r := sub_rows nlat in
  let c := sub_cols nlon in
  zip_with (zip_with half_sum)
    (Np.sum_axis0 r c (even_rows (3 * ilev) a_mid))
    (Np.sum_axis0 r c (odd_rows (3 * ilev) a_mid)).
Definition level_mean (nlat nlon : nat) (a_mid : list (list (list Q))) (ilev : nat)
    : list (list Q) :=
  let r := sub_rows nlat in
  let c := sub_cols nlon in
  zip_with (zip_with half_sum)
    (Np.mean_axis0 r c (even_rows (3 * ilev) a_mid))
    (Np.mean_axis0 r c (odd_rows (3 * ilev) a_mid)).

(** [a_sub[ilev,:,:] = rhs]: the value of shape
    [(sub_rows nlat, sub_cols nlon)] is broadcast to the slot of shape
    [(nlat // 2, nlon // 2)], or the assignment raises. *)
Definition assign_level (nlat nlon : nat) (rhs : list (list Q)) : result (list (list Q)) :=
  if Np.fits (sub_rows nlat) (nlat / 2) && Np.fits (sub_cols nlon) (nlon / 2)
  then Ok (Np.stretch (nlat / 2) (Np.stretch (nlon / 2) <$> rhs))
  else Raise ValueError.

(** Lines 180-208 for one field: the loop over [range(nlev // 3)]. *)
Definition subsample (rhs : nat → nat → list (list (list Q)) → nat → list (list Q))
    (nlev nlat nlon : nat) (a : list (list (list Q))) : result (list (list (list Q))) :=
  let a_mid := mid a in
  traverse (λ ilev, assign_level nlat nlon (rhs nlat nlon a_mid ilev))
           (seq 0 (nlev / 3)).
Definition subsample_sum := subsample level_sum.
Definition subsample_mean := subsample level_mean.

(** Lines 210-212. *)
Definition clip_ext (a : list (list (list Q))) : list (list (list Q)) :=
  fmap (M := list) (fmap (M := list) (fmap (M := list) (λ x, Np.clip x 0 10))) a.
Definition clip_sca (a e : list (list (list Q))) : list (list (list Q)) :=
  zip_with (zip_with (zip_with (λ x hi, Np.clip x 0 hi))) a e.
Definition clip_asm (a : list (list (list Q))) : list (list (list Q)) :=
  fmap (M := list) (fmap (M := list) (fmap (M := list) (λ x, Np.clip x (-1) 1))) a.

(** The fields of the native-grid dataset and of the sub-sampled one. *)
Record native : Type := {
  da_tau_ext : list (list (list Q));
  da_tau_sca : list (list (list Q));
  da_asm : list (list (list Q));
  da_tau_ext_column : list (list Q) }.
Record subsampled : Type := {
  delp_sub : list (list (list Q));
  tau_ext_sub : list (list (list Q));
  tau_sca_sub : list (list (list Q));
  asm_sub : list (list (list Q));
  tau_ext_sub_column : list (list Q);
  lat_sub : list Q;
  lon_sub : list Q }.

(** [xr.Dataset] refuses a coordinate whose length differs from the
    dimension of the data variables. *)
Definition check_coord (len dim : nat) : result unit :=
  if (len =? dim)%nat then Ok tt else Raise ValueError.

(** The body of the loop over time (lines 138-283).  The native-grid
    dataset is assembled but never written; of its assembly the model
    keeps the two accesses that can fail, [ds['PS']] and the store into
    [lat[nlat // 2]].  That store changes the coordinate the later time
    steps read: the coordinates of a snapshot are the ones in force at its
    time step. *)
Definition time_step (o : optics) (species : string) (idx_size idx_wvl : Z)
    (ds : snapshot) : result (native * subsampled) :=
  let! rh := var ds "RH" in
  let idx_rh := idx_rh species rh in
  let! delp := var ds "DELP" in
  let! q_species := var ds species in
  let! k_ext := gather (ext o) idx_size idx_rh idx_wvl in
  let! k_sca := gather (sca o) idx_size idx_rh idx_wvl in
  let! asm := gather (asm o) idx_size idx_rh idx_wvl in
  let! tau_ext := tau delp q_species k_ext in
  let! tau_sca := tau delp q_species k_sca in
  let n0 := nlev ds in
  let n1 := nlat ds in
  let n2 := nlon ds in
  let! da_delp := Np.reshape3 n0 n1 n2 delp in
  let! da_tau_ext := Np.reshape3 n0 n1 n2 tau_ext in
  let! da_tau_sca := Np.reshape3 n0 n1 n2 tau_sca in
  let! da_asm := Np.reshape3 n0 n1 n2 asm in
  let da_tau_ext_column := Np.sum_axis0 n1 n2 da_tau_ext in
  let lat_mid := zip_with half_sum (Np.upto_last (lat ds)) (Np.from1 (lat ds)) in
  let lat_sub := zip_with half_sum (Np.upto_last_step2 lat_mid) (Np.from1_step2 lat_mid) in
  let! delp_sub := subsample_sum n0 n1 n2 da_delp in
  let! tau_ext_sub := subsample_sum n0 n1 n2 da_tau_ext in
  let! tau_sca_sub := subsample_sum n0 n1 n2 da_tau_sca in
  let! asm_sub := subsample_mean n0 n1 n2 da_asm in
  let tau_ext_sub := clip_ext tau_ext_sub in
  let tau_sca_sub := clip_sca tau_sca_sub tau_ext_sub in
  let asm_sub := clip_asm asm_sub in
  let tau_ext_sub_column := Np.sum_axis0 (n1 / 2) (n2 / 2) tau_ext_sub in
  let! _ := Np.index (length (lat ds)) (Z.of_nat (n1 / 2)) in
  let! _ := var ds "PS" in
  let lon_sub := Np.step2 (lon ds) in
  let! _ := check_coord (length lat_sub) (n1 / 2) in
  let! _ := check_coord (length lon_sub) (n2 / 2) in
  Ok ({| da_tau_ext := da_tau_ext; da_tau_sca := da_tau_sca; da_asm := da_asm;
         da_tau_ext_column := da_tau_ext_column |},
      {| delp_sub := delp_sub; tau_ext_sub := tau_ext_sub;
         tau_sca_sub := tau_sca_sub; asm_sub := asm_sub;
         tau_ext_sub_column := tau_ext_sub_column;
         lat_sub := lat_sub; lon_sub := lon_sub |}).

(** [process_file]: the input file is the list of its time steps. *)
Definition process_file (o : optics) (species size_bin : string) (idx_wvl : Z)
    (ds : list snapshot) : result (list (native * subsampled)) :=
  let! '(name, idx_size) := select_species species size_bin in
  traverse (time_step o name idx_size idx_wvl) ds.

(** *** Band selection (lines 356-373) *)

Record bands : Type := {
  LFL_SW_bands : list Q;
  LFL_LW_bands : list Q }.

Definition band_bounds (tbl : list Q) (band_idx : Z) : result (Q * Q) :=
  let! wvl_max := Np.get tbl band_idx in
  let! wvl_min := Np.get tbl (band_idx - 1)%Z in
  Ok (wvl_min, wvl_max).

Definition wvls (o : optics) : list Q := (λ l, l * 1000000) <$> lambda o.

Definition select_band (band : string) (ds_bands : bands) (o : optics)
    : result (Q * Q * nat) :=
  let! band_idx := Py.int (Py.slice 2 4 band) in
  let! sw := if Py.contains "sw" band
             then let! b := band_bounds (LFL_SW_bands ds_bands) band_idx in Ok (Some b)
             else Ok None in
  let! lw := if Py.contains "lw" band
             then let! b := band_bounds (LFL_LW_bands ds_bands) band_idx in Ok (Some b)
             else Ok sw in
  let! '(wvl_min, wvl_max) := of_option NameError lw in
  let wvl_band := 0.5 * (wvl_max + wvl_min) in
  let! idx_wvl := Np.argmin ((λ w, Qabs (w - wvl_band)) <$> wvls o) in
  Ok (wvl_min, wvl_max, idx_wvl).

(** The main loop: one input file per date, all of them converted with
    the band selected before the loop. *)
Definition main (band species size_bin : string) (ds_bands : bands) (o : optics)
    (files : list (list snapshot)) : result (list (list (native * subsampled))) :=
  let! '(wvl_min, wvl_max, idx_wvl) := select_band band ds_bands o in
  traverse (λ ds, let! sp := species_map species in
                  process_file o sp size_bin (Z.of_nat idx_wvl) ds) files.

(** *** Vocabulary of the statements and example inputs *)

(** What a successful time step has computed on the way. *)
Record step_facts (o : optics) (species : string) (idx_size idx_wvl : Z)
    (ds : snapshot) (nat : native) (sub : subsampled)
    (rh delp q k_ext k_sca k_asm tau_ext tau_sca : list Q)
    (e_pre s_pre a_pre : list (list (list Q))) : Prop := {
  sf_rh : vars ds !! "RH" = Some rh;
  sf_delp : vars ds !! "DELP" = Some delp;
  sf_q : vars ds !! species = Some q;
  sf_k_ext : gather (ext o) idx_size (idx_rh species rh) idx_wvl = Ok k_ext;
  sf_k_sca : gather (sca o) idx_size (idx_rh species rh) idx_wvl = Ok k_sca;
  sf_k_asm : gather (asm o) idx_size (idx_rh species rh) idx_wvl = Ok k_asm;
  sf_tau_ext : tau delp q k_ext = Ok tau_ext;
  sf_tau_sca : tau delp q k_sca = Ok tau_sca;
  sf_delp_len : length delp = (nlev ds * nlat ds * nlon ds)%nat;
  sf_da_ext : Np.reshape3 (nlev ds) (nlat ds) (nlon ds) tau_ext = Ok (da_tau_ext nat);
  sf_da_sca : Np.reshape3 (nlev ds) (nlat ds) (nlon ds) tau_sca = Ok (da_tau_sca nat);
  sf_da_asm : Np.reshape3 (nlev ds) (nlat ds) (nlon ds) k_asm = Ok (da_asm nat);
  sf_column : da_tau_ext_column nat = Np.sum_axis0 (nlat ds) (nlon ds) (da_tau_ext nat);
  sf_e_pre : subsample_sum (nlev ds) (nlat ds) (nlon ds) (da_tau_ext nat) = Ok e_pre;
  sf_s_pre : subsample_sum (nlev ds) (nlat ds) (nlon ds) (da_tau_sca nat) = Ok s_pre;
  sf_a_pre : subsample_mean (nlev ds) (nlat ds) (nlon ds) (da_asm nat) = Ok a_pre;
  sf_ext_sub : tau_ext_sub sub = clip_ext e_pre;
  sf_sca_sub : tau_sca_sub sub = clip_sca s_pre (clip_ext e_pre);
  sf_asm_sub : asm_sub sub = clip_asm a_pre }.

Definition flat_index (ds : snapshot) (l j i : nat) : nat :=
  ((l * nlat ds + j) * nlon ds + i)%nat.

Definition shape3 (n0 n1 n2 : nat) (a : list (list (list Q))) : Prop :=
  length a = n0 ∧
  Forall (λ lv, length lv = n1 ∧ Forall (λ row : list Q, length row = n2) lv) a.

Definition at3 (a : list (list (list Q))) (l j i : nat) : Q :=
  default 0 (Np.cell a l j i).

Definition shape2 (r c : nat) (x : list (list Q)) : Prop :=
  length x = r ∧ Forall (λ row : list Q, length row = c) x.

(** The mean of the two rows [r] and [r + 1] of level [l], at column [c]. *)
Definition lat_mid (a : list (list (list Q))) (l r c : nat) : Q :=
  half_sum (at3 a l r c) (at3 a l (S r) c).
(** The additive reduction over three stacked values. *)
Definition sum3 (f : nat → Q) : Q := 0 + f 0%nat + f 1%nat + f 2%nat.

(** A native grid whose value at every cell is its level index. *)
Definition level_index_grid (n0 n1 n2 : nat) : list (list (list Q)) :=
  (λ l : nat, replicate n1 (replicate n2 (inject_Z (Z.of_nat l)))) <$> seq 0 n0.
(** A native grid that is one on the odd-indexed longitudes and zero on
    the even-indexed ones. *)
Definition odd_longitude_grid (n0 n1 n2 : nat) : list (list (list Q)) :=
  replicate n0 (replicate n1 ((λ i : nat, if Nat.odd i then 1 else 0) <$> seq 0 n2)).

Definition all_cells (P : Q → Prop) (x : list (list Q)) : Prop := Forall (Forall P) x.

(** The sub-sampler as the specification words it, for comparison with
    [subsample_sum]: a mid-level value is the mean of two vertically
    adjacent native levels, an output level sums three consecutive
    mid-level values, and an output cell is the mean of the 2x2 horizontal
    block (even and odd row, even and odd column, half weight each). *)
Definition claimed_mid (a : list (list (list Q))) : list (list (list Q)) :=
  zip_with (zip_with (zip_with half_sum)) (Np.upto_last a) (Np.from1 a).
Definition claimed_cell (a : list (list (list Q))) (L j i : nat) : Q :=
  let s (r c : nat) := sum3 (λ d, at3 (claimed_mid a) (3 * L + d) r c) in
  half_sum (half_sum (s (2 * j)%nat (2 * i)%nat) (s (2 * j)%nat (2 * i + 1)%nat))
           (half_sum (s (2 * j + 1)%nat (2 * i)%nat) (s (2 * j + 1)%nat (2 * i + 1)%nat)).

(** [k] is the first index at which [a] takes its least value. *)
Definition first_argmin (a : list Q) (k : nat) : Prop :=
  ∃ v, a !! k = Some v
       ∧ (∀ j x, a !! j = Some x → v <= x)
       ∧ (∀ j x, (j < k)%nat → a !! j = Some x → v < x).

(** The table the band selector reads: the long-wave one when the label
    contains [lw], the short-wave one otherwise. *)
Definition band_table (band : string) (ds_bands : bands) : list Q :=
  if Py.contains "lw" band then LFL_LW_bands ds_bands else LFL_SW_bands ds_bands.

Definition demo_optics : optics :=
  {| ext := [replicate 100 [1; 3]]; sca := [replicate 100 [2; 1]];
     asm := [replicate 100 [0.5; 0.6]]; lambda := [0.0000004; 0.0000005] |}.
Definition demo_bands : bands :=
  {| LFL_SW_bands := [0.2; 0.7; 1.3]; LFL_LW_bands := [4.5; 5.6] |}.
Definition demo_snapshot : snapshot :=
  {| nlev := 3; nlat := 3; nlon := 2;
     vars := <["RH" := replicate 18 0.5]> (<["DELP" := replicate 18 9.8]>
             (<["SO4" := replicate 18 1]> (<["PS" := replicate 6 100000]> ∅)));
     lat := [-1; 0; 1]; lon := [0; 1] |}.

Definition scenario_a : snapshot :=
  {| nlev := 1; nlat := 3; nlon := 2;
     vars := <["RH" := replicate 6 0.5]> (<["DELP" := replicate 6 1000]>
             (<["SO4" := replicate 6 0.000001]> (<["PS" := replicate 6 100000]> ∅)));
     lat := [-1; 0; 1]; lon := [0; 1] |}.

End SpeciesOptics.

(** ** species_optics.py: the humidity interpolation of the optics table *)

Module RhInterp.

Import SpeciesOptics.

(** [np.arange(0, 1, 0.01)]: the 100 humidities 0, 0.01, ..., 0.99. *)
Definition rh_fine : list Q := (λ i : nat, inject_Z (Z.of_nat i) * 0.01) <$> seq 0 nrh.

(** The optics file as [rh_interp] reads it: the humidity axis [rh], the
    arrays [bext], [bsca] and [g], indexed [(radius, rh, lambda)], the
    shape of [bext], and the wavelength coordinate (of the length of the
    last axis, as in every dataset). *)
Record coarse : Type := {
  shape_coarse : nat * nat * nat;
  rh : list Q;
  bext : list (list (list Q));
  bsca : list (list (list Q));
  g : list (list (list Q));
  coords_lambda : list Q }.

(** [a[r, :, k]] *)
Definition column (a : list (list (list Q))) (r k : nat) : result (list Q) :=
  let! plane := of_option IndexError (a !! r) in
  traverse (λ row : list Q, of_option IndexError (row !! k)) plane.

(** [scipy.interpolate.interp1d(x, y, kind='linear',
    fill_value='extrapolate')].  The nodes are sorted by abscissa (a stable
    sort); arrays of different lengths are refused.  With fewer than two
    nodes or with two equal abscissae SciPy divides by zero and returns
    NaN or an infinity; these have no value in the number model and the
    model refuses such nodes as well. *)
Fixpoint insert_node (p : Q * Q) (l : list (Q * Q)) : list (Q * Q) :=
  match l with
  | [] => [p]
  | q :: r => if Qle_bool (fst p) (fst q) then p :: l else q :: insert_node p r
  end.
Definition sort_nodes (l : list (Q * Q)) : list (Q * Q) := foldr insert_node [] l.

Fixpoint increasing (xs : list Q) : bool :=
  match xs with
  | x :: (y :: _) as r => negb (Qle_bool y x) && increasing r
  | _ => true
  end.

Definition interp1d (x y : list Q) : result (list (Q * Q)) :=
  if negb (length x =? length y)%nat then Raise ValueError
  else
    let nodes := sort_nodes (zip x y) in
    if (2 <=? length nodes)%nat && increasing (fst <$> nodes) then Ok nodes
    else Raise ValueError.

(** [np.searchsorted(xs, v)] on a sorted array: the first index whose
    entry is not below [v]. *)
Fixpoint searchsorted (xs : list Q) (v : Q) : nat :=
  match xs with
  | [] => 0
  | x :: r => if Qlt_le_dec x v then S (searchsorted r v) else 0
  end.

(** The interpolant at [x_new]: the index found is clipped to
    [1, len - 1], and the line through the two nodes around it is
    evaluated, also outside the range of the nodes. *)
Definition evaluate (nodes : list (Q * Q)) (x_new : Q) : Q :=
  let i := Nat.min (Nat.max (searchsorted (fst <$> nodes) x_new) 1) (length nodes - 1) in
  let lo := default (0, 0) (nodes !! (i - 1)%nat) in
  let hi := default (0, 0) (nodes !! i) in
  let slope := (snd hi - snd lo) / (fst hi - fst lo) in
  slope * (x_new - fst lo) + snd lo.

(** The body of the two loops of [rh_interp] (lines 55-63) for one radius
    and one wavelength: the three columns of 100 interpolated values. *)
Definition interp_cell (c : coarse) (r k : nat) : result (list Q * list Q * list Q) :=
  let! y_ext := column (bext c) r k in
  let! f_ext := interp1d (rh c) y_ext in
  let! y_sca := column (bsca c) r k in
  let! f_sca := interp1d (rh c) y_sca in
  let! y_asm := column (g c) r k in
  let! f_asm := interp1d (rh c) y_asm in
  Ok (evaluate f_ext <$> rh_fine, evaluate f_sca <$> rh_fine, evaluate f_asm <$> rh_fine).

(** The array of shape [(n0, 100, n2)], zero at first, after the
    assignments [fine[r, :, k] = column] of every [r] and [k]. *)
Definition fill {A} (sel : A → list Q) (cells : list (list A)) : list (list (list Q)) :=
  (λ per_k : list A,
     (λ h : nat, (λ x : A, default 0 (sel x !! h)) <$> per_k) <$> seq 0 nrh) <$> cells.

Definition rh_interp (c : coarse) : result optics :=
  let '(n0, _, n2) := shape_coarse c in
  let! cells := traverse (λ r, traverse (λ k, interp_cell c r k) (seq 0 n2)) (seq 0 n0) in
  Ok {| ext := fill (λ t, t.1.1) cells;
        sca := fill (λ t, t.1.2) cells;
        asm := fill (λ t, t.2) cells;
        lambda := coords_lambda c |}.

(** *** Vocabulary of the statements and example inputs *)

(** The line through the nodes [(x0, y0)] and [(x1, y1)], at [x]. *)
Definition line (x0 y0 x1 y1 x : Q) : Q := (y1 - y0) / (x1 - x0) * (x - x0) + y0.

Definition ascending_Q (xs : list Q) : Prop :=
  ∀ i j a b, (i < j)%nat → xs !! i = Some a → xs !! j = Some b → a < b.

(** The column [a[r, :, k]] of a regular array, and the three columns of
    interpolated values computed for one radius and one wavelength. *)
Definition column_of (a : list (list (list Q))) (r k : nat) : list Q :=
  (λ row : list Q, default 0 (row !! k)) <$> default [] (a !! r).
Definition cell_of (c : coarse) (r k : nat) : list Q * list Q * list Q :=
  (evaluate (zip (rh c) (column_of (bext c) r k)) <$> rh_fine,
   evaluate (zip (rh c) (column_of (bsca c) r k)) <$> rh_fine,
   evaluate (zip (rh c) (column_of (g c) r k)) <$> rh_fine).
(** The humidity of bin [h]. *)
Definition bin_humidity (h : nat) : Q := inject_Z (Z.of_nat h) * 0.01.

(** A well-formed optics file: the three arrays have the shape of
    [bext], the humidity axis has the length of their middle axis, at
    least two entries, and is strictly increasing. *)
Definition regular (c : coarse) (n0 n1 n2 : nat) : Prop :=
  shape_coarse c = (n0, n1, n2)
  ∧ shape3 n0 n1 n2 (bext c) ∧ shape3 n0 n1 n2 (bsca c) ∧ shape3 n0 n1 n2 (g c)
  ∧ length (rh c) = n1 ∧ (2 ≤ n1)%nat ∧ ascending_Q (rh c).

(** Each coarse array with the fine array made from it. *)
Definition tables (c : coarse) (o : optics)
    : list (list (list (list Q)) * list (list (list Q))) :=
  [(bext c, ext o); (bsca c, sca o); (g c, asm o)].

Definition demo_coarse : coarse :=
  {| shape_coarse := (1, 3, 2)%nat;
     rh := [0; 0.5; 0.95];
     bext := [[[1; 3]; [2; 4]; [4; 8]]];
     bsca := [[[1; 2]; [1; 2]; [3; 6]]];
     g := [[[0.5; 0.6]; [0.6; 0.7]; [0.7; 0.8]]];
     coords_lambda := [0.0000004; 0.0000005] |}.

End RhInterp.

(** ** external_mix.py *)

Module ExternalMix.

Definition tau_thresh : Q := 0.00001.
Definition version : string := "v0.2".

(** [SPECIES_ALIAS.get(species, species)] *)
Definition species_alias (s : string) : string :=
  if String.eqb s "SU" then "SO4"
  else if String.eqb s "OCPHO" then "OCPHOBIC"
  else if String.eqb s "OCPHI" then "OCPHILIC"
  else if String.eqb s "BCPHO" then "BCPHOBIC"
  else if String.eqb s "BCPHI" then "BCPHILIC"
  else if String.eqb s "NI" then "NO3AN1"
  else s.

(** Lines 21-26. *)
Definition SPECIES_NO_BIN : list string :=
  ["SO4"; "OCPHOBIC"; "OCPHILIC"; "BCPHOBIC"; "BCPHILIC"; "NO3AN1"].
Definition SPECIES_WITH_BIN : list string :=
  (((λ n, String.append "SS" (Py.format_0d 3 n)) <$> seq 1 5)
   ++ ((λ n, String.append "DU" (Py.format_0d 3 n)) <$> seq 1 5))%list.
Definition ALL_SPECIES : list string := (SPECIES_NO_BIN ++ SPECIES_WITH_BIN)%list.

Definition EXT : string := "Extinction_Layer_Optical_Depth".
Definition SCA : string := "Scattering_Layer_Optical_Depth".
Definition ASM : string := "Layer_Asymmetry_Parameter".
Definition COL : string := "Extinction_Column_Optical_Depth".

(** A variable of a dataset: its shape and its values in row-major
    order.  A dataset: its variables (data variables and coordinates
    alike) and its global attributes. *)
Record ndarray : Type := { shape : list nat; data : list Q }.
Record dataset : Type := {
  variables : gmap string ndarray;
  attrs : gmap string string }.

Definition set_attr (k v : string) (d : dataset) : dataset :=
  {| variables := variables d; attrs := <[k := v]> (attrs d) |}.
Definition set_var (k : string) (a : ndarray) (d : dataset) : dataset :=
  {| variables := <[k := a]> (variables d); attrs := attrs d |}.
(** [ds[k]] *)
Definition get_var (d : dataset) (k : string) : result ndarray :=
  of_option KeyError (variables d !! k).
(** [a.values[:]]: a zero-dimensional array cannot be sliced. *)
Definition values (a : ndarray) : result (list Q) :=
  match shape a with [] => Raise IndexError | _ => Ok (data a) end.

(** [ds_out[k].values[:] = 0.0] *)
Definition zero_var (k : string) (d : dataset) : result dataset :=
  let! a := get_var d k in
  let! v := values a in
  Ok (set_var k {| shape := shape a; data := (λ _, 0) <$> v |} d).

(** [ds_out[k].values[:] += rhs], the right-hand side being an array of
    shape [sh].  The model covers operands of the accumulator's own
    shape; for another shape NumPy broadcasts or raises, the model
    raises. *)
Definition add_var (k : string) (sh : list nat) (rhs : list Q) (d : dataset)
    : result dataset :=
  let! a := get_var d k in
  let! v := values a in
  if decide (sh = shape a)
  then Ok (set_var k {| shape := shape a; data := zip_with Qplus v rhs |} d)
  else Raise ValueError.

(** Lines 95-103, one contributing file. *)
Definition add_file (ds : dataset) (ds_out : dataset) : result dataset :=
  let! e := get_var ds EXT in
  let! ev := values e in
  let! ds_out := add_var EXT (shape e) ev ds_out in
  let! s := get_var ds SCA in
  let! sv := values s in
  let! ds_out := add_var SCA (shape s) sv ds_out in
  let! c := get_var ds COL in
  let! cv := values c in
  let! ds_out := add_var COL (shape c) cv ds_out in
  let! s := get_var ds SCA in
  let! sv := values s in
  let! a := get_var ds ASM in
  let! av := values a in
  if decide (shape s = shape a)
  then add_var ASM (shape s) (zip_with Qmult sv av) ds_out
  else Raise ValueError.

(** Lines 107-114, one cell: the two masks are complementary. *)
Definition finalize_cell (asm sca : Q) : Q :=
  if Qle_bool sca tau_thresh then 0 else asm / sca.
(** The masks are taken from the scattering field and index the
    asymmetry field, which has to have the same shape (a mask over the
    leading axes only is outside the model). *)
Definition finalize (d : dataset) : result dataset :=
  let! s := get_var d SCA in
  let! sv := values s in
  let! a := get_var d ASM in
  let! av := values a in
  if decide (shape s = shape a)
  then Ok (set_var ASM {| shape := shape a; data := zip_with finalize_cell av sv |} d)
  else Raise IndexError.

(** *** The file system and the trace of a run *)

(** The warnings and the file accesses of a run, in order (messages at
    info level are left out). *)
Inductive event : Type :=
  | WarnLegacy (legacy_pattern : string)
  | WarnNoMatch (species_pattern : string)
  | WarnSkip (pattern : string)
  | Opened (path : string)
  | Wrote (path : string).

Record world : Type := {
  fs : gmap string dataset;
  trace : list event }.

Definition M (A : Type) : Type := world → world * result A.
Definition ret {A} (a : A) : M A := λ w, (w, Ok a).
Definition lift {A} (r : result A) : M A := λ w, (w, r).
Definition sbind {A B} (m : M A) (f : A → M B) : M B :=
  λ w, match m w with
       | (w', Ok a) => f a w'
       | (w', Raise e) => (w', Raise e)
       end.

Notation "'let*' x ':=' e 'in' k" := (sbind e (fun x => k))
  (at level 10, x name, e at level 100, k at level 200).

Definition emit (e : event) : M unit :=
  λ w, ({| fs := fs w; trace := (trace w ++ [e])%list |}, Ok tt).
Definition open_dataset (path : string) : M dataset :=
  λ w, match fs w !! path with
       | Some d => ({| fs := fs w; trace := (trace w ++ [Opened path])%list |}, Ok d)
       | None => (w, Raise FileNotFoundError)
       end.
Definition to_netcdf (path : string) (d : dataset) : M unit :=
  λ w, ({| fs := <[path := d]> (fs w); trace := (trace w ++ [Wrote path])%list |}, Ok tt).

Fixpoint foldM {A B} (f : B → A → M B) (b : B) (l : list A) : M B :=
  match l with
  | [] => ret b
  | x :: r => let* b' := f b x in foldM f b' r
  end.

(** [sorted] on strings. *)
Fixpoint insert_sorted (x : string) (l : list string) : list string :=
  match l with
  | [] => [x]
  | y :: r => if String.leb x y then x :: l else y :: insert_sorted x r
  end.
Definition sorted (l : list string) : list string := foldr insert_sorted [] l.

(** [os.path.join(a, b)] *)
Definition path_join (a b : string) : string :=
  if String.prefix "/" b then b
  else if String.eqb a "" then b
  else if String.eqb (Py.slice (String.length a - 1) (String.length a) a) "/"
       then a ++ b
       else a ++ "/" ++ b.

Section Environment.

(** The functions the aggregator takes from elsewhere: whether a path
    matches a [glob] pattern, [str] of a list of strings, and the
    repository's [utils.fill_date_hour_template], whose module is not
    among the sources. *)
Variable glob_match : string → string → bool.
Variable str_of_list : list string → string.
Variable fill_date_hour_template : string → string → string.

(** [glob(pattern)] on a file system, in no particular order. *)
Definition glob (files : gmap string dataset) (pattern : string) : list string :=
  filter (λ p, glob_match pattern p = true) (elements (dom files)).

(** [sorted(glob(pattern))] without the aggregate files. *)
Definition matches_in (files : gmap string dataset) (pattern : string) : list string :=
  filter (λ m, Py.contains "_AER_" m = false) (sorted (glob files pattern)).
Definition matches (pattern : string) : M (list string) :=
  λ w, (w, Ok (matches_in (fs w) pattern)).

Definition species_pattern (pattern species : string) : string :=
  Py.replace "*_" (species_alias species ++ "_") pattern.
Definition legacy_pattern (species_pattern : string) : string :=
  Py.replace "GEOSIT/" "GEOSIT_alpha_4/" species_pattern.

(** Lines 48-65, one species: [files] extended by its matches. *)
Definition resolve_species (pattern : string) (files : list string) (species : string)
    : M (list string) :=
  let sp := species_pattern pattern species in
  let* matched := matches sp in
  let* matched :=
    match matched with
    | [] =>
        let* legacy_matched := matches (legacy_pattern sp) in
        match legacy_matched with
        | [] => ret legacy_matched
        | _ => let* _ := emit (WarnLegacy (legacy_pattern sp)) in ret legacy_matched
        end
    | _ => ret matched
    end in
  match matched with
  | [] => let* _ := emit (WarnNoMatch sp) in ret files
  | _ => ret (files ++ matched)%list
  end.

Definition resolve (pattern : string) (species_list : list string) : M (list string) :=
  foldM (resolve_species pattern) [] species_list.

(** Lines 73-83: the accumulator, made from the first file. *)
Definition init (now cwd : string) (files : list string) (first : dataset)
    : result dataset :=
  let ds_out := set_attr "input_filename" (str_of_list files) first in
  let ds_out := set_attr "processing_datetime" now ds_out in
  let ds_out := set_attr "script_version"
                  (path_join cwd "external_mix.py " ++ version) ds_out in
  let! ds_out := zero_var EXT ds_out in
  let! ds_out := zero_var SCA ds_out in
  let! ds_out := zero_var ASM ds_out in
  zero_var COL ds_out.

(** [process_file]; [now] is the formatted UTC time and [cwd] the
    working directory. *)
Definition process_file (now cwd pattern : string) (species_list : list string)
    : M unit :=
  let* files := resolve pattern species_list in
  match files with
  | [] => emit (WarnSkip pattern)
  | first :: _ =>
      let filename_out := Py.replace "*_" "AER_" pattern in
      let* ds0 := open_dataset first in
      let* ds_out := lift (init now cwd files ds0) in
      let* ds_out := foldM (λ acc filename,
                              let* ds := open_dataset filename in
                              lift (add_file ds acc)) ds_out files in
      let* ds_out := lift (finalize ds_out) in
      to_netcdf filename_out ds_out
  end.

(** The main loop over the formatted dates. *)
Definition unit_pattern (datadir file_pattern band date_str : string) : string :=
  Py.replace "band" (Py.upper band)
    (path_join datadir (fill_date_hour_template file_pattern date_str)).

Definition main (now cwd datadir file_pattern band : string)
    (species : list string) (dates : list string) : M unit :=
  foldM (λ _ date_str,
           process_file now cwd (unit_pattern datadir file_pattern band date_str) species)
        tt dates.

End Environment.

(** *** Vocabulary of the statements and example inputs *)

Definition log (w : world) (evs : list event) : world :=
  {| fs := fs w; trace := (trace w ++ evs)%list |}.

(** The value of variable [name] at the flat index [k]. *)
Definition field (d : dataset) (name : string) (k : nat) : option Q :=
  a ← variables d !! name; data a !! k.

Definition optical : list string := [EXT; SCA; ASM; COL].
Definition provenance : list string :=
  ["input_filename"; "processing_datetime"; "script_version"].

(** [d'] differs from [d] in the values of the optical fields at most:
    every other variable, every shape and every attribute is kept. *)
Record updates_optical (d d' : dataset) : Prop := {
  uo_other : ∀ name, name ∉ optical → variables d' !! name = variables d !! name;
  uo_shape : ∀ name, shape <$> variables d' !! name = shape <$> variables d !! name;
  uo_attrs : attrs d' = attrs d }.

(** The loop over the contributing files, on their contents. *)
Fixpoint add_files (dss : list dataset) (acc : dataset) : result dataset :=
  match dss with
  | [] => Ok acc
  | ds :: r => let! acc' := add_file ds acc in add_files r acc'
  end.

Definition sumQ (l : list Q) : Q := foldr Qplus 0 l.

(** The terms a file adds to the accumulators, zero where it has none. *)
Definition term (name : string) (ds : dataset) (i : nat) : Q :=
  default 0 (field ds name i).



Definition demo_array (sh : list nat) (v : Q) : ndarray :=
  {| shape := sh; data := replicate (foldr Nat.mul 1%nat sh) v |}.
Definition demo_dataset (e s a : Q) : dataset :=
  {| variables :=
       <[EXT := demo_array [1; 2; 2]%nat e]> (<[SCA := demo_array [1; 2; 2]%nat s]>
       (<[ASM := demo_array [1; 2; 2]%nat a]> (<[COL := demo_array [2; 2]%nat e]>
       (<["DELP" := demo_array [1; 2; 2]%nat 5]> ∅))));
     attrs := <["datetime" := "2010-01-01_00Z"]> ∅ |}.
Definition demo_glob_match (pattern path : string) : bool := String.eqb pattern path.
Definition demo_str (l : list string) : string := String.concat ", " l.
Definition demo_world : world :=
  {| fs := <["d/GEOS.SO4_SW01.nc" := demo_dataset 0.1 0.05 0.5]>
           (<["d/GEOS.DU001_SW01.nc" := demo_dataset 0.2 0.1 0.8]> ∅);
     trace := [] |}.
Definition demo_species : list string := ["SU"; "SS001"; "DU001"].
Definition demo_pattern : string := "d/GEOS.*_SW01.nc".
Definition demo_files : list string := ["d/GEOS.SO4_SW01.nc"; "d/GEOS.DU001_SW01.nc"].

Definition empty_pattern : string := "e/GEOS.*_SW01.nc".

(** A stand-in for [fill_date_hour_template]: the date replaces [DATE]. *)
Definition demo_fill (pattern date_str : string) : string :=
  Py.replace "DATE" date_str pattern.

(** The files of one species (lines 49-59): its matches on the primary
    path, or, when there is none, its matches on the legacy path. *)
Definition species_files (glob_match : string → string → bool)
    (files : gmap string dataset) (pattern species : string) : list string :=
  match matches_in glob_match files (species_pattern pattern species) with
  | [] => matches_in glob_match files (legacy_pattern (species_pattern pattern species))
  | m => m
  end.

(** A list of paths in strictly ascending order. *)
Definition ascending (l : list string) : Prop :=
  StronglySorted (λ a b, String.ltb a b = true) l.

Definition is_warning (e : event) : Prop :=
  match e with Opened _ | Wrote _ => False | _ => True end.


End ExternalMix.

(** ** species_optics.py: the files of the converter *)

Module SpeciesOpticsFiles.

Import SpeciesOptics ExternalMix.

(** Line 106: [filename.split('.')[2]]. *)
Definition date_str (filename : string) : result string :=
  of_option IndexError (Py.split "." filename !! 2%nat).

(** Lines 253-263: the path of the sub-sampled file. *)
Definition filename_subsampled_out (filename_out species band : string) : string :=
  Py.replace "L576x361_v72" "L288x180_v24"
    (Py.replace "GEOS5294." ("GEOS5294." ++ species ++ "_" ++ Py.upper band ++ ".")
       filename_out).

(** Arrays as variables of a dataset: the shape and the values in
    row-major order. *)
Definition array3 (n0 n1 n2 : nat) (a : list (list (list Q))) : ndarray :=
  {| shape := [n0; n1; n2]; data := mjoin (mjoin <$> a) |}.
Definition array2 (n1 n2 : nat) (a : list (list Q)) : ndarray :=
  {| shape := [n1; n2]; data := mjoin a |}.
Definition array1 (a : list Q) : ndarray := {| shape := [length a]; data := a |}.

Section Files.

(** The text of a float attribute, the working directory, and the
    formatted UTC time read at the beginning of time step [t]. *)
Variable float_attr : Q → string.
Variable cwd : string.
Variable clock : nat → string.

(** Lines 265-281: the sub-sampled dataset of time step [t]. *)
Definition ds_sub_out (filename date band : string) (wvl_min wvl_max : Q)
    (t : nat) (ds : snapshot) (sub : subsampled) : dataset :=
  let n0 := (nlev ds / 3)%nat in
  let n1 := (nlat ds / 2)%nat in
  let n2 := (nlon ds / 2)%nat in
  {| variables :=
       <["DELP" := array3 n0 n1 n2 (delp_sub sub)]>
       (<[EXT := array3 n0 n1 n2 (tau_ext_sub sub)]>
       (<[SCA := array3 n0 n1 n2 (tau_sca_sub sub)]>
       (<[ASM := array3 n0 n1 n2 (asm_sub sub)]>
       (<[COL := array2 n1 n2 (tau_ext_sub_column sub)]>
       (<["lat" := array1 (lat_sub sub)]>
       (<["lon" := array1 (lon_sub sub)]> ∅))))));
     attrs :=
       <["script_version" := path_join cwd "species_optics.py " ++ "v0.2"]>
       (<["band_wvl_max_micron" := float_attr wvl_max]>
       (<["band_wvl_min_micron" := float_attr wvl_min]>
       (<["Langley_Fu_Liou_band" := Py.upper band]>
       (<["processing_datetime" := clock t]>
       (<["input_filename" := filename]>
       (<["datetime" := date ++ "_" ++ Py.format_0d 2 (3 * t) ++ "Z"]> ∅)))))) |}.

(** The body of the loop over time (lines 136-283): the time step is
    computed and the sub-sampled dataset is written; the dataset on the
    native grid is assembled but not written. *)
Definition write_step (filename filename_out : string) (o : optics)
    (species : string) (idx_size : Z) (date band : string) (wvl_min wvl_max : Q)
    (idx_wvl : Z) (t : nat) (ds : snapshot) : M unit :=
  let* r := lift (time_step o species idx_size idx_wvl ds) in
  to_netcdf (filename_subsampled_out filename_out species band)
            (ds_sub_out filename date band wvl_min wvl_max t ds r.2).

(** [process_file] (lines 102-283); [ds] is the opened input file, the
    list of its time steps (the file has the variable [RH], whose shape
    gives their number). *)
Definition process_file (filename filename_out : string) (o : optics)
    (species size_bin band : string) (wvl_min wvl_max : Q) (idx_wvl : Z)
    (ds : list snapshot) : M unit :=
  let* date := lift (date_str filename) in
  let* sel := lift (select_species species size_bin) in
  foldM (λ _ step,
           write_step filename filename_out o sel.1 sel.2 date band wvl_min wvl_max
                      idx_wvl step.1 step.2)
        tt (zip (seq 0 (length ds)) ds).

End Files.

(** *** Example inputs *)

Definition demo_float (q : Q) : string := "float".
Definition demo_clock (t : nat) : string := "2026/01/01_00:00:0" ++ Py.str_nat t.
Definition demo_filename : string :=
  "in/GEOS.it.asm.aer_inst_3hr_glo_L576x361_v72.GEOS5294.2010-01-01T0000.V01.nc4".
Definition empty_world : world := {| fs := ∅; trace := [] |}.


(** A time step on a grid with an even number of latitudes. *)
Definition demo_even_snapshot : snapshot :=
  {| nlev := 3; nlat := 2; nlon := 2;
     vars := <["RH" := replicate 12 0.5]> (<["DELP" := replicate 12 9.8]>
             (<["SO4" := replicate 12 1]> (<["PS" := replicate 4 100000]> ∅)));
     lat := [-1; 1]; lon := [0; 1] |}.

End SpeciesOpticsFiles.


(** ** validate_run.py *)

Module ValidateRun.

Import ExternalMix.

(** Lines 8-17. *)
Definition SPECIES_NO_BIN : list string :=
  ["SO4"; "OCPHOBIC"; "OCPHILIC"; "BCPHOBIC"; "BCPHILIC"; "NO3AN1"].
Definition SPECIES_WITH_BIN : list string :=
  (((λ n, String.append "SS" (Py.format_0d 3 n)) <$> seq 1 5)
   ++ ((λ n, String.append "DU" (Py.format_0d 3 n)) <$> seq 1 5))%list.
Definition ALL_SPECIES : list string := (SPECIES_NO_BIN ++ SPECIES_WITH_BIN)%list.

Definition SW_BANDS : list string :=
  (λ n, String.append "SW" (Py.format_0d 2 n)) <$> seq 1 14.
Definition LW_BANDS : list string :=
  (λ n, String.append "LW" (Py.format_0d 2 n)) <$> seq 1 12.
Definition ALL_BANDS : list string := (SW_BANDS ++ LW_BANDS)%list.

(** Lines 19-22. *)
Definition FILE_PATTERN : string :=
  path_join (path_join (path_join "GEOSIT" "YYYY") "MM")
    "GEOS.it.asm.aer_inst_3hr_glo_L288x180_v24.GEOS5294.{label}_{band}.YYYY-MM-DDTHH00.V01.nc4".

(** Lines 33-36 and 40-43: the file pattern with the date, the label and
    the band filled in. *)
Definition fill (file_pattern yyyy mm dd hh label band : string) : string :=
  Py.replace "{band}" band
    (Py.replace "{label}" label
       (Py.replace "HH" hh
          (Py.replace "DD" dd
             (Py.replace "MM" mm
                (Py.replace "YYYY" yyyy file_pattern))))).

(** The paths of one date and one band (lines 31-44). *)
Definition band_paths (datadir file_pattern yyyy mm dd hh : string)
    (species : list string) (include_species include_aer : bool) (band : string)
    : list string :=
  ((if include_species
    then (λ sp, path_join datadir (fill file_pattern yyyy mm dd hh sp band)) <$> species
    else [])
   ++ (if include_aer
       then [path_join datadir (fill file_pattern yyyy mm dd hh "AER" band)]
       else []))%list.

(** The paths of one date (lines 28-44); [date_str] is the text
    [date.strftime('%Y-%m-%b-%d-%j-%H')], which the code splits at the
    hyphens into six fields. *)
Definition date_paths (datadir file_pattern : string) (species bands : list string)
    (include_species include_aer : bool) (date_str : string) : result (list string) :=
  match Py.split "-" date_str with
  | [yyyy; mm; _; dd; _; hh] =>
      Ok (mjoin (band_paths datadir file_pattern yyyy mm dd hh species
                   include_species include_aer <$> bands))
  | _ => Raise ValueError
  end.

(** [build_file_list] (lines 25-46); [dates] are the formatted dates. *)
Definition build_file_list (datadir file_pattern : string) (dates : list string)
    (species bands : list string) (include_species include_aer : bool)
    : result (list string) :=
  let! per_date := traverse (date_paths datadir file_pattern species bands
                               include_species include_aer) dates in
  Ok (mjoin per_date).

(** The files on disk: the size in bytes of every path that exists. *)
Definition disk : Type := gmap string N.

(** [check_files] (lines 49-62). *)
Definition check_files (d : disk) (paths : list string)
    : list string * list string * list string :=
  foldl (λ '(found, missing, zero_size) p,
           match d !! p with
           | None => (found, missing ++ [p], zero_size)
           | Some 0%N => (found, missing, zero_size ++ [p])
           | Some _ => (found ++ [p], missing, zero_size)
           end)%list
        ([], [], []) paths.

(** [os.path.basename(p)]: the text after the last slash. *)
Definition basename (p : string) : string := default "" (last (Py.split "/" p)).

(** Lines 119-121: the day of a path, [basename.split('.')[-2][:10]]. *)
Definition day_of (p : string) : result string :=
  let! date_part := Np.get (Py.split "." (basename p)) (-2) in
  Ok (Py.slice 0 10 date_part).

(** Lines 116-122: [day_groups.setdefault(day, []).append(p)] for every
    path. *)
Fixpoint group_days (paths : list string) (day_groups : gmap string (list string))
    : result (gmap string (list string)) :=
  match paths with
  | [] => Ok day_groups
  | p :: r =>
      let! day := day_of p in
      group_days r (<[day := (default [] (day_groups !! day) ++ [p])%list]> day_groups)
  end.

(** One line of the table: the day, the numbers of expected, found,
    missing and empty files, and whether the day is marked OK. *)
Record row : Type := {
  row_day : string;
  n_expected : nat;
  n_found : nat;
  n_missing : nat;
  n_zero : nat;
  row_ok : bool }.

Definition is_nil {A} (l : list A) : bool :=
  match l with [] => true | _ => false end.

(** Lines 127-134: the loop over [sorted(day_groups)]; [day_groups[day]]
    is the list stored at a key of the dictionary. *)
Definition check_days (d : disk) (day_groups : gmap string (list string))
    : list row * list string * list string :=
  foldl (λ '(rows, all_missing, all_zero) day,
           let day_paths := default [] (day_groups !! day) in
           let '(found, missing, zero_size) := check_files d day_paths in
           (rows ++ [{| row_day := day;
                        n_expected := length day_paths;
                        n_found := length found;
                        n_missing := length missing;
                        n_zero := length zero_size;
                        row_ok := is_nil missing && is_nil zero_size |}],
            all_missing ++ missing,
            all_zero ++ zero_size))%list
        ([], [], []) (sorted (map_to_list day_groups).*1).

(** What the checking part of [main] prints and leaves: the table, the
    totals, the lines of [validate_run.log] if it is written, and the exit
    status. *)
Record report : Type := {
  rows : list row;
  total : nat;
  total_ok : Z;
  total_missing : nat;
  total_zero : nat;
  log_file : option (list string);
  exit_code : Z }.

(** Lines 112-153. *)
Definition check_run (d : disk) (paths : list string) : result report :=
  let! day_groups := group_days paths ∅ in
  let '(rows, all_missing, all_zero) := check_days d day_groups in
  let total := length paths in
  let total_ok := (Z.of_nat total - Z.of_nat (length all_missing)
                   - Z.of_nat (length all_zero))%Z in
  if negb (is_nil all_missing) || negb (is_nil all_zero) then
    Ok {| rows := rows; total := total; total_ok := total_ok;
          total_missing := length all_missing; total_zero := length all_zero;
          log_file := Some (((λ p, String.append "MISSING  " p) <$> all_missing)
                            ++ ((λ p, String.append "ZERO     " p) <$> all_zero))%list;
          exit_code := 1 |}
  else
    Ok {| rows := rows; total := total; total_ok := total_ok;
          total_missing := length all_missing; total_zero := length all_zero;
          log_file := None;
          exit_code := 0 |}.

(** What a run of the script ends with: the usage error of the argument
    parser (exit status 2), the listing of a dry run with its total, or
    the report of the check. *)
Inductive outcome : Type :=
  | Usage
  | DryRun (paths : list string) (total : nat)
  | Checked (r : report).

(** [main] (lines 65-153); [dates] are the formatted three-hourly dates
    from [start] 00 h to [end] 21 h. *)
Definition main (datadir : string) (ceres species_only aer_only dry_run : bool)
    (dates : list string) (d : disk) : result outcome :=
  if species_only && aer_only then Ok Usage
  else
    let file_pattern :=
      if ceres then Py.replace "GEOSIT/" "GEOSIT_alpha_4/" FILE_PATTERN
      else FILE_PATTERN in
    let datadir := if ceres then "/CERES/sarb/dfillmor/" else datadir in
    let! paths := build_file_list datadir file_pattern dates ALL_SPECIES ALL_BANDS
                    (negb aer_only) (negb species_only) in
    if dry_run then Ok (DryRun paths (length paths))
    else let! r := check_run d paths in Ok (Checked r).

(** *** Vocabulary of the statements and example inputs *)

(** A path that does not exist, an empty file, and a file with content. *)
Definition absent (d : disk) (p : string) : Prop := d !! p = None.
Definition empty_file (d : disk) (p : string) : Prop := d !! p = Some 0%N.
Definition present (d : disk) (p : string) : Prop :=
  match d !! p with Some n => n ≠ 0%N | None => False end.

#[global] Instance exn_eq_dec : EqDecision exn.
Proof. solve_decision. Defined.
#[global] Instance result_eq_dec {A} `{EqDecision A} : EqDecision (result A).
Proof. solve_decision. Defined.
#[global] Instance absent_dec d p : Decision (absent d p).
Proof. unfold absent. apply _. Defined.
#[global] Instance empty_file_dec d p : Decision (empty_file d p).
Proof. unfold empty_file. apply _. Defined.
#[global] Instance present_dec d p : Decision (present d p).
Proof. unfold present. destruct (d !! p); apply _. Defined.

(** The table row of the paths [day_paths] of one day. *)
Definition row_of (d : disk) (day : string) (day_paths : list string) : row :=
  {| row_day := day;
     n_expected := length day_paths;
     n_found := length (filter (present d) day_paths);
     n_missing := length (filter (absent d) day_paths);
     n_zero := length (filter (empty_file d) day_paths);
     row_ok := bool_decide (Forall (present d) day_paths) |}.

Definition demo_dates : list string := ["2010-01-Jan-01-001-00"; "2010-01-Jan-02-002-03"].
Definition demo_paths : list string :=
  ["d/GEOS.SO4_SW01.2010-01-02T0000.V01.nc4"; "d/GEOS.SO4_SW01.2010-01-01T0000.V01.nc4";
   "d/GEOS.AER_SW01.2010-01-02T0000.V01.nc4"; "d/GEOS.AER_SW01.2010-01-01T0000.V01.nc4"].
Definition demo_disk : disk :=
  <["d/GEOS.SO4_SW01.2010-01-02T0000.V01.nc4" := 1024%N]>
  (<["d/GEOS.SO4_SW01.2010-01-01T0000.V01.nc4" := 0%N]>
  (<["d/GEOS.AER_SW01.2010-01-01T0000.V01.nc4" := 2048%N]> ∅)).

End ValidateRun.

(** * Properties *)

Lemma bind_Ok {A B} (r : result A) (f : A → result B) b :
  bind r f = Ok b → ∃ a, r = Ok a ∧ f a = Ok b.
Proof. destruct r; simpl; [eauto | discriminate]. Qed.

Ltac inv_bind H :=
  let a := fresh "a" in
  let Ha := fresh "Ha" in
  apply bind_Ok in H as (a & Ha & H).

Lemma of_option_Ok {A} e (o : option A) a : of_option e o = Ok a → o = Some a.
Proof. destruct o; simpl; congruence. Qed.

Lemma traverse_lookup {A B} (f : A → result B) l ys :
  traverse f l = Ok ys →
  ∀ k y, ys !! k = Some y → ∃ x, l !! k = Some x ∧ f x = Ok y.
Proof.
  revert ys. induction l as [|x l IH]; intros ys H k y Hk; simpl in H.
  - injection H as <-. discriminate.
  - inv_bind H. inv_bind H. injection H as <-.
    destruct k as [|k]; simpl in *.
    + injection Hk as <-. eauto.
    + eauto.
Qed.

Lemma traverse_length {A B} (f : A → result B) l ys :
  traverse f l = Ok ys → length ys = length l.
Proof.
  revert ys. induction l as [|x l IH]; intros ys H; simpl in H.
  - by injection H as <-.
  - inv_bind H. inv_bind H. injection H as <-. simpl. f_equal. eauto.
Qed.

Lemma index_Ok n i k : Np.index n i = Ok k →
  (0 ≤ i < Z.of_nat n ∧ k = Z.to_nat i)%Z ∨ (- Z.of_nat n ≤ i < 0 ∧ k = Z.to_nat (Z.of_nat n + i))%Z.
Proof. unfold Np.index. repeat case_match; intros [=]; lia. Qed.

Lemma index_nonneg n i : (0 ≤ i < Z.of_nat n)%Z → Np.index n i = Ok (Z.to_nat i).
Proof. intros. unfold Np.index. repeat case_match; try done; lia. Qed.
Lemma index_neg n i : (- Z.of_nat n ≤ i < 0)%Z → Np.index n i = Ok (Z.to_nat (Z.of_nat n + i)).
Proof. intros. unfold Np.index. repeat case_match; try done; lia. Qed.
Lemma index_out n i : (i < - Z.of_nat n ∨ Z.of_nat n ≤ i)%Z → Np.index n i = Raise IndexError.
Proof. intros. unfold Np.index. repeat case_match; try done; lia. Qed.

Lemma get_nonneg {A} (a : list A) i x :
  (0 ≤ i)%Z → a !! Z.to_nat i = Some x → Np.get a i = Ok x.
Proof.
  intros Hi Hx. unfold Np.get. rewrite index_nonneg; simpl.
  - by rewrite Hx.
  - apply lookup_lt_Some in Hx. lia.
Qed.
Lemma get_neg {A} (a : list A) i x :
  (- Z.of_nat (length a) ≤ i < 0)%Z → a !! Z.to_nat (Z.of_nat (length a) + i) = Some x →
  Np.get a i = Ok x.
Proof. intros Hi Hx. unfold Np.get. rewrite index_neg by done. simpl. by rewrite Hx. Qed.
Lemma get_out {A} (a : list A) i :
  (i < - Z.of_nat (length a) ∨ Z.of_nat (length a) ≤ i)%Z → Np.get a i = Raise IndexError.
Proof. intros Hi. unfold Np.get. by rewrite index_out. Qed.

Module SpeciesOpticsProofs.

Import SpeciesOptics.













(** *** Cells of element-wise results *)

Lemma cell_fmap {A B} (f : A → B) a l j i :
  Np.cell (fmap (M := list) (fmap (M := list) (fmap (M := list) f)) a) l j i
  = f <$> Np.cell a l j i.
Proof.
  unfold Np.cell. rewrite list_lookup_fmap.
  destruct (a !! l) as [lv|]; simpl; [|done].
  rewrite list_lookup_fmap. destruct (lv !! j) as [row|]; simpl; [|done].
  by rewrite list_lookup_fmap.
Qed.

Lemma cell_zip_with {A B C} (f : A → B → C) a b l j i :
  Np.cell (zip_with (zip_with (zip_with f)) a b) l j i
  = match Np.cell a l j i, Np.cell b l j i with
    | Some x, Some y => Some (f x y)
    | _, _ => None
    end.
Proof.
  unfold Np.cell. rewrite lookup_zip_with.
  destruct (a !! l) as [la|]; simpl; [|done].
  destruct (b !! l) as [lb|]; simpl; [|by destruct (la !! j ≫= _)].
  rewrite lookup_zip_with.
  destruct (la !! j) as [ra|]; simpl; [|done].
  destruct (lb !! j) as [rb|]; simpl; [|by destruct (ra !! i)].
  rewrite lookup_zip_with.
  destruct (ra !! i); simpl; [|done]. by destruct (rb !! i).
Qed.

Lemma cell2_zip_with {A B C} (f : A → B → C) (a : list (list A)) (b : list (list B)) j i :
  Np.cell2 (zip_with (zip_with f) a b) j i
  = match Np.cell2 a j i, Np.cell2 b j i with
    | Some x, Some y => Some (f x y)
    | _, _ => None
    end.
Proof.
  unfold Np.cell2. rewrite lookup_zip_with.
  destruct (a !! j) as [ra|]; simpl; [|done].
  destruct (b !! j) as [rb|]; simpl; [|by destruct (ra !! i)].
  rewrite lookup_zip_with.
  destruct (ra !! i); simpl; [|done]. by destruct (rb !! i).
Qed.

Lemma cell2_zeros r c j i :
  (j < r)%nat → (i < c)%nat → Np.cell2 (Np.zeros2 r c) j i = Some 0.
Proof.
  intros Hj Hi. unfold Np.cell2, Np.zeros2.
  rewrite lookup_replicate_2 by done. simpl. by rewrite lookup_replicate_2.
Qed.

(** *** Clipping *)

Lemma clip_bounds x lo hi : lo <= hi → lo <= Np.clip x lo hi ∧ Np.clip x lo hi <= hi.
Proof.
  intros H. unfold Np.clip.
  destruct (Q.max_spec x lo) as [[? E1]|[? E1]];
  destruct (Q.min_spec (Qmax x lo) hi) as [[? E2]|[? E2]]; lra.
Qed.

Lemma clip_above x lo hi : lo <= hi → hi <= x → Np.clip x lo hi == hi.
Proof.
  intros H Hx. unfold Np.clip.
  destruct (Q.max_spec x lo) as [[? E1]|[? E1]];
  destruct (Q.min_spec (Qmax x lo) hi) as [[? E2]|[? E2]]; lra.
Qed.

Lemma clip_sca_eq_ext e0 s0 :
  e0 < s0 → Np.clip s0 0 (Np.clip e0 0 10) == Np.clip e0 0 10.
Proof.
  intros H.
  destruct (clip_bounds e0 0 10) as [H0 H10]; [lra|].
  destruct (Qlt_le_dec e0 0) as [Hneg|Hpos].
  - assert (E : Np.clip e0 0 10 == 0).
    { unfold Np.clip.
      destruct (Q.max_spec e0 0) as [[? E1]|[? E1]];
      destruct (Q.min_spec (Qmax e0 0) 10) as [[? E2]|[? E2]]; lra. }
    revert E H0 H10. generalize (Np.clip e0 0 10). intros e E H0 H10.
    unfold Np.clip.
    destruct (Q.max_spec s0 0) as [[? E1]|[? E1]];
    destruct (Q.min_spec (Qmax s0 0) e) as [[? E2]|[? E2]]; lra.
  - apply clip_above; [lra|].
    unfold Np.clip.
    destruct (Q.max_spec e0 0) as [[? E1]|[? E1]];
    destruct (Q.min_spec (Qmax e0 0) 10) as [[? E2]|[? E2]]; lra.
Qed.

(** *** Reshaping *)

Lemma chunks_lookup {A} k n (a : list A) l :
  (l < k)%nat → Np.chunks k n a !! l = Some (take n (drop (l * n) a)).
Proof.
  revert a l. induction k as [|k IH]; intros a l Hl; [lia|].
  destruct l as [|l]; simpl.
  - done.
  - rewrite IH by lia. by rewrite drop_drop.
Qed.


Lemma reshape3_Ok {A} n0 n1 n2 (a : list A) b :
  Np.reshape3 n0 n1 n2 a = Ok b →
  length a = (n0 * n1 * n2)%nat ∧ b = Np.chunks n1 n2 <$> Np.chunks n0 (n1 * n2) a.
Proof.
  unfold Np.reshape3. destruct (Nat.eqb_spec (length a) (n0 * n1 * n2)); [|done].
  by intros [= <-].
Qed.

Lemma reshape3_cell {A} n0 n1 n2 (a : list A) b l j i :
  Np.reshape3 n0 n1 n2 a = Ok b →
  (l < n0)%nat → (j < n1)%nat → (i < n2)%nat →
  Np.cell b l j i = a !! ((l * n1 + j) * n2 + i)%nat.
Proof.
  intros [_ ->]%reshape3_Ok Hl Hj Hi. unfold Np.cell.
  rewrite list_lookup_fmap, chunks_lookup by done. simpl.
  rewrite chunks_lookup by done. simpl.
  rewrite lookup_take_lt by done. rewrite lookup_drop.
  rewrite lookup_take_lt by nia. rewrite lookup_drop. f_equal. lia.
Qed.

Lemma time_step_Ok o species idx_size idx_wvl ds nat sub :
  time_step o species idx_size idx_wvl ds = Ok (nat, sub) →
  ∃ rh delp q k_ext k_sca k_asm tau_ext tau_sca e_pre s_pre a_pre,
    step_facts o species idx_size idx_wvl ds nat sub
               rh delp q k_ext k_sca k_asm tau_ext tau_sca e_pre s_pre a_pre.
Proof.
  unfold time_step, var. intros H.
  inv_bind H. apply of_option_Ok in Ha.
  inv_bind H. apply of_option_Ok in Ha0.
  inv_bind H. apply of_option_Ok in Ha1.
  do 17 inv_bind H.
  injection H as <- <-.
  eexists _, _, _, _, _, _, _, _, _, _, _. constructor; simpl; eauto.
  by eapply reshape3_Ok.
Qed.

(** C1.  In the sub-sampled output of a time step every extinction cell
    lies in [0, 10], every scattering cell lies between 0 and the
    extinction cell at the same place, and every asymmetry cell lies in
    [-1, 1]; where the scattering before the clip exceeds the extinction
    before the clip, the clipped scattering equals the clipped
    extinction. *)
Theorem clipping_invariant (o : optics) (species : string) (idx_size idx_wvl : Z)
    (ds : snapshot) (nat : native) (sub : subsampled) :
  time_step o species idx_size idx_wvl ds = Ok (nat, sub) →
  (∀ l j i e, Np.cell (tau_ext_sub sub) l j i = Some e → 0 <= e ∧ e <= 10)
  ∧ (∀ l j i s, Np.cell (tau_sca_sub sub) l j i = Some s →
       ∃ e, Np.cell (tau_ext_sub sub) l j i = Some e ∧ 0 <= s ∧ s <= e)
  ∧ (∀ l j i a, Np.cell (asm_sub sub) l j i = Some a → -1 <= a ∧ a <= 1)
  ∧ ∃ e_pre s_pre,
      subsample_sum (nlev ds) (nlat ds) (nlon ds) (da_tau_ext nat) = Ok e_pre
      ∧ subsample_sum (nlev ds) (nlat ds) (nlon ds) (da_tau_sca nat) = Ok s_pre
      ∧ ∀ l j i e0 s0,
          Np.cell e_pre l j i = Some e0 → Np.cell s_pre l j i = Some s0 → e0 < s0 →
          ∃ e s, Np.cell (tau_ext_sub sub) l j i = Some e
                 ∧ Np.cell (tau_sca_sub sub) l j i = Some s
                 ∧ s == e.
Proof.
  intros H.
  destruct (time_step_Ok _ _ _ _ _ _ _ H)
    as (rh & delp & q & k_ext & k_sca & k_asm & tau_ext & tau_sca & e_pre & s_pre & a_pre & F).
  destruct F as [_ _ _ _ _ _ _ _ _ _ _ _ _ He_pre Hs_pre _ Eext Esca Easm].
  rewrite Eext, Esca, Easm.
  unfold clip_ext, clip_sca, clip_asm.
  split; [|split; [|split]].
  - intros l j i e. rewrite cell_fmap.
    destruct (Np.cell e_pre l j i) as [e0|]; [|done]. intros [= <-].
    apply clip_bounds. lra.
  - intros l j i s. rewrite cell_zip_with, cell_fmap.
    destruct (Np.cell s_pre l j i) as [s0|]; [|done].
    destruct (Np.cell e_pre l j i) as [e0|]; [|done]. simpl. intros [= <-].
    eexists. split; [done|]. apply clip_bounds.
    destruct (clip_bounds e0 0 10); [lra|done].
  - intros l j i a. rewrite cell_fmap.
    destruct (Np.cell a_pre l j i) as [a0|]; [|done]. intros [= <-].
    apply clip_bounds. lra.
  - exists e_pre, s_pre. split; [done|]. split; [done|].
    intros l j i e0 s0 He Hs Hlt.
    rewrite cell_zip_with, cell_fmap, He, Hs. simpl.
    eexists _, _. split; [done|]. split; [done|]. by apply clip_sca_eq_ext.
Qed.

(** *** The gather and the optical depth, cell by cell *)

Lemma gather_lookup values idx_size idx_rh idx_wvl ks c k :
  gather values idx_size idx_rh idx_wvl = Ok ks → ks !! c = Some k →
  ∃ i, idx_rh !! c = Some i ∧ gather_cell values idx_size i idx_wvl = Ok k.
Proof. intros H Hc. exact (traverse_lookup _ _ _ H c k Hc). Qed.

Lemma gather_length values idx_size idx_rh idx_wvl ks :
  gather values idx_size idx_rh idx_wvl = Ok ks → length ks = length idx_rh.
Proof. apply traverse_length. Qed.

Lemma tau_lookup delp q k t c :
  tau delp q k = Ok t → length delp = length q → length q = length k →
  t !! c = match delp !! c, q !! c, k !! c with
           | Some d, Some m, Some ke => Some (d * m * ke / g_earth)
           | _, _, _ => None
           end.
Proof.
  intros H Hdq Hqk. unfold tau, Np.zip1 in H.
  rewrite Hdq, Nat.eqb_refl in H. simpl in H.
  rewrite length_zip_with, Hdq, Nat.min_id, Hqk, Nat.eqb_refl in H. simpl in H.
  injection H as <-.
  rewrite list_lookup_fmap, !lookup_zip_with.
  destruct (delp !! c); simpl; [|done].
  destruct (q !! c); simpl; [|done].
  by destruct (k !! c).
Qed.

Lemma flat_index_lt ds l j i :
  (l < nlev ds)%nat → (j < nlat ds)%nat → (i < nlon ds)%nat →
  (flat_index ds l j i < nlev ds * nlat ds * nlon ds)%nat.
Proof.
  intros Hl Hj Hi. unfold flat_index.
  assert (l * nlat ds + j < nlev ds * nlat ds)%nat by nia.
  set (x := (l * nlat ds + j)%nat) in *. set (y := (nlev ds * nlat ds)%nat) in *.
  assert (S x * nlon ds ≤ y * nlon ds)%nat by (apply Nat.mul_le_mono_r; lia).
  lia.
Qed.

(** The native layer fields of a successful time step, cell by cell. *)
Lemma time_step_cell o species idx_size idx_wvl ds nat sub rh q :
  time_step o species idx_size idx_wvl ds = Ok (nat, sub) →
  vars ds !! "RH" = Some rh →
  vars ds !! species = Some q →
  length rh = (nlev ds * nlat ds * nlon ds)%nat →
  length q = (nlev ds * nlat ds * nlon ds)%nat →
  ∃ delp, vars ds !! "DELP" = Some delp ∧
  ∀ l j i, (l < nlev ds)%nat → (j < nlat ds)%nat → (i < nlon ds)%nat →
    ∃ d m r k_e k_s,
      delp !! flat_index ds l j i = Some d
      ∧ q !! flat_index ds l j i = Some m
      ∧ rh !! flat_index ds l j i = Some r
      ∧ gather_cell (ext o) idx_size (idx_rh_cell species r) idx_wvl = Ok k_e
      ∧ gather_cell (sca o) idx_size (idx_rh_cell species r) idx_wvl = Ok k_s
      ∧ Np.cell (da_tau_ext nat) l j i = Some (d * m * k_e / g_earth)
      ∧ Np.cell (da_tau_sca nat) l j i = Some (d * m * k_s / g_earth).
Proof.
  intros H Hrh Hq Lrh Lq.
  destruct (time_step_Ok _ _ _ _ _ _ _ H)
    as (rh' & delp & q' & k_ext & k_sca & k_asm & tau_ext & tau_sca & e_pre & s_pre & a_pre & F).
  destruct F as [Frh Fdelp Fq Fke Fks Fka Fte Fts Fdl Fde Fdsc Fda Fcol Fe Fs Fa _ _ _].
  rewrite Hrh in Frh. injection Frh as <-.
  rewrite Hq in Fq. injection Fq as <-.
  exists delp. split; [done|]. intros l j i Hl Hj Hi.
  set (c := flat_index ds l j i).
  assert (Hc : (c < nlev ds * nlat ds * nlon ds)%nat) by by apply flat_index_lt.
  pose proof (gather_length _ _ _ _ _ Fke) as Lke.
  pose proof (gather_length _ _ _ _ _ Fks) as Lks.
  unfold idx_rh in Lke, Lks. rewrite length_fmap in Lke, Lks.
  destruct (lookup_lt_is_Some_2 delp c) as [d Hd]; [by rewrite Fdl|].
  destruct (lookup_lt_is_Some_2 q c) as [m Hm]; [by rewrite Lq|].
  destruct (lookup_lt_is_Some_2 rh c) as [r Hr]; [by rewrite Lrh|].
  destruct (lookup_lt_is_Some_2 k_ext c) as [k_e Hke]; [by rewrite Lke, Lrh|].
  destruct (lookup_lt_is_Some_2 k_sca c) as [k_s Hks]; [by rewrite Lks, Lrh|].
  exists d, m, r, k_e, k_s.
  destruct (gather_lookup _ _ _ _ _ _ _ Fke Hke) as (ie & Hie & Ge).
  destruct (gather_lookup _ _ _ _ _ _ _ Fks Hks) as (is' & His & Gs).
  unfold idx_rh in Hie, His. rewrite list_lookup_fmap, Hr in Hie, His.
  injection Hie as <-. injection His as <-.
  repeat (split; [done|]).
  rewrite (reshape3_cell _ _ _ _ _ l j i Fde), (reshape3_cell _ _ _ _ _ l j i Fdsc) by done.
  fold (flat_index ds l j i). fold c.
  rewrite (tau_lookup _ _ _ _ c Fte), (tau_lookup _ _ _ _ c Fts) by congruence.
  by rewrite Hd, Hm, Hke, Hks.
Qed.

Lemma cell_single_level {A} (a lv : list (list A)) j i :
  Np.cell [lv] 0 j i = Np.cell2 lv j i.
Proof. done. Qed.

Lemma reshape3_single {A} n1 n2 (a : list A) b :
  Np.reshape3 1 n1 n2 a = Ok b → ∃ lv, b = [lv].
Proof. intros [_ ->]%reshape3_Ok. simpl. eauto. Qed.

(** C2.  For every cell of a time step whose humidity and mixing-ratio
    fields are on the grid of the file, the layer extinction (scattering)
    optical depth is [delp * q * k / g_earth] with [g_earth = 9.8] and [k]
    the extinction (scattering) efficiency gathered for the cell's
    humidity bin.  For a single-level input with uniform mixing ratio
    1e-6, pressure thickness 1000 and relative humidity 0.5, every layer
    cell is [1000 * 1e-6 * k_ext(bin 50) / 9.8] and the column equals the
    layer. *)
Theorem layer_optical_depth (o : optics) (species : string) (idx_size idx_wvl : Z)
    (ds : snapshot) (nat : native) (sub : subsampled) (rh q : list Q) :
  time_step o species idx_size idx_wvl ds = Ok (nat, sub) →
  vars ds !! "RH" = Some rh →
  vars ds !! species = Some q →
  length rh = (nlev ds * nlat ds * nlon ds)%nat →
  length q = (nlev ds * nlat ds * nlon ds)%nat →
  g_earth == 9.8
  ∧ (∃ delp, vars ds !! "DELP" = Some delp ∧
     ∀ l j i, (l < nlev ds)%nat → (j < nlat ds)%nat → (i < nlon ds)%nat →
       ∃ d m r k_e k_s,
         delp !! flat_index ds l j i = Some d
         ∧ q !! flat_index ds l j i = Some m
         ∧ rh !! flat_index ds l j i = Some r
         ∧ gather_cell (ext o) idx_size (idx_rh_cell species r) idx_wvl = Ok k_e
         ∧ gather_cell (sca o) idx_size (idx_rh_cell species r) idx_wvl = Ok k_s
         ∧ Np.cell (da_tau_ext nat) l j i = Some (d * m * k_e / g_earth)
         ∧ Np.cell (da_tau_sca nat) l j i = Some (d * m * k_s / g_earth))
  ∧ (species = "SO4" → nlev ds = 1%nat →
     rh = replicate (nlat ds * nlon ds) 0.5 →
     q = replicate (nlat ds * nlon ds) 0.000001 →
     vars ds !! "DELP" = Some (replicate (nlat ds * nlon ds) 1000) →
     ∀ j i, (j < nlat ds)%nat → (i < nlon ds)%nat →
       ∃ k50 col,
         gather_cell (ext o) idx_size 50 idx_wvl = Ok k50
         ∧ Np.cell (da_tau_ext nat) 0 j i = Some (1000 * 0.000001 * k50 / 9.8)
         ∧ Np.cell2 (da_tau_ext_column nat) j i = Some col
         ∧ col == 1000 * 0.000001 * k50 / 9.8).
Proof.
  intros H Hrh Hq Lrh Lq.
  destruct (time_step_cell _ _ _ _ _ _ _ _ _ H Hrh Hq Lrh Lq) as (delp & Hdelp & Hcell).
  split; [reflexivity|]. split; [by exists delp|].
  intros -> Hlev -> -> Hdelp' j i Hj Hi.
  rewrite Hdelp in Hdelp'. injection Hdelp' as ->.
  destruct (Hcell 0%nat j i) as (d & m & r & k_e & k_s & Hd & Hm & Hr & Ge & _ & Ce & _);
    [lia|done|done|].
  assert (Hc : (flat_index ds 0 j i < nlat ds * nlon ds)%nat).
  { pose proof (flat_index_lt ds 0 j i) as Hlt. rewrite Hlev in Hlt. simpl in Hlt.
    rewrite Nat.add_0_r in Hlt. apply Hlt; [lia|done|done]. }
  rewrite lookup_replicate_2 in Hd, Hm, Hr by done.
  injection Hd as <-. injection Hm as <-. injection Hr as <-.
  change (idx_rh_cell "SO4" 0.5) with 50%Z in Ge.
  destruct (time_step_Ok _ _ _ _ _ _ _ H)
    as (? & ? & ? & ? & ? & ? & tau_ext & ? & ? & ? & ? & F).
  destruct F as [_ _ _ _ _ _ _ _ _ Fde _ _ Fcol _ _ _ _ _ _].
  rewrite Hlev in Fde. destruct (reshape3_single _ _ _ _ Fde) as [lv Elv].
  rewrite Fcol, Elv in *. unfold Np.sum_axis0. simpl.
  change (Np.cell [lv] 0 j i) with (Np.cell2 lv j i) in Ce.
  exists k_e, (0 + 1000 * 0.000001 * k_e / 9.8). split; [done|]. split; [done|].
  split; [|ring].
  unfold Np.add2. rewrite cell2_zip_with, cell2_zeros by done. by rewrite Ce.
Qed.

(** *** Slices *)

Lemma step2_lookup {A} (a : list A) j : Np.step2 a !! j = a !! (2 * j)%nat.
Proof.
  revert a. induction j as [|j IH]; intros a.
  - by destruct a.
  - destruct a as [|x [|y a]]; simpl; [done|done|].
    rewrite IH. replace (j + S (j + 0))%nat with (S (2 * j)) by lia. done.
Qed.

Lemma step2_length {A} (a : list A) : length (Np.step2 a) = ((length a + 1) / 2)%nat.
Proof.
  remember (length a) as n eqn:Hn. revert a Hn.
  induction n as [n IH] using lt_wf_ind. intros a Hn.
  destruct a as [|x [|y a]]; [by subst|by subst|].
  cbn [Np.step2 length] in *. rewrite (IH (length a)) by (lia || done).
  subst n. replace (S (S (length a)) + 1)%nat with (length a + 1 + 1 * 2)%nat by lia.
  rewrite Nat.div_add by done. lia.
Qed.

Lemma removelast_lookup {A} (a : list A) j :
  (S j < length a)%nat → removelast a !! j = a !! j.
Proof.
  revert j. induction a as [|x a IH]; intros j Hj; [done|].
  destruct a as [|y a]; [simpl in Hj; lia|].
  destruct j as [|j]; [done|].
  change (removelast (x :: y :: a)) with (x :: removelast (y :: a)).
  simpl lookup. apply IH. simpl in *. lia.
Qed.

Lemma removelast_length {A} (a : list A) : length (removelast a) = (length a - 1)%nat.
Proof.
  induction a as [|x a IH]; [done|].
  destruct a as [|y a]; [done|].
  change (removelast (x :: y :: a)) with (x :: removelast (y :: a)).
  simpl length in *. lia.
Qed.

Lemma window3_lookup {A} s (a : list A) d :
  (d < 3)%nat → Np.window3 s a !! d = a !! (s + d)%nat.
Proof. intros Hd. unfold Np.window3. by rewrite lookup_take_lt, lookup_drop. Qed.

Lemma window3_three {A} s (a : list A) x0 x1 x2 :
  a !! s = Some x0 → a !! S s = Some x1 → a !! S (S s) = Some x2 →
  Np.window3 s a = [x0; x1; x2].
Proof.
  intros H0 H1 H2. unfold Np.window3.
  rewrite (drop_S _ _ _ H0), (drop_S _ _ _ H1), (drop_S _ _ _ H2). done.
Qed.

(** *** Regular three-dimensional arrays *)

Lemma shape3_level n0 n1 n2 a l :
  shape3 n0 n1 n2 a → (l < n0)%nat →
  ∃ lv, a !! l = Some lv ∧ length lv = n1 ∧ Forall (λ row : list Q, length row = n2) lv.
Proof.
  intros [Hlen HF] Hl. destruct (lookup_lt_is_Some_2 a l) as [lv Hlv]; [lia|].
  exists lv. split; [done|]. rewrite Forall_lookup in HF. by apply (HF l).
Qed.

Lemma shape3_cell n0 n1 n2 a l j i :
  shape3 n0 n1 n2 a → (l < n0)%nat → (j < n1)%nat → (i < n2)%nat →
  Np.cell a l j i = Some (at3 a l j i).
Proof.
  intros Hs Hl Hj Hi. destruct (shape3_level _ _ _ _ _ Hs Hl) as (lv & Hlv & Llv & Flv).
  destruct (lookup_lt_is_Some_2 lv j) as [row Hrow]; [lia|].
  rewrite Forall_lookup in Flv. specialize (Flv _ _ Hrow).
  destruct (lookup_lt_is_Some_2 row i) as [x Hx]; [lia|].
  unfold at3, Np.cell. rewrite Hlv. simpl. rewrite Hrow. simpl. by rewrite Hx.
Qed.

(** *** The latitude mid values and the two operands of a level *)

Lemma mid_level_lookup (lv : list (list Q)) r c :
  Np.cell2 (zip_with (zip_with half_sum) (Np.upto_last lv) (Np.from1 lv)) r c
  = match Np.cell2 lv r c, Np.cell2 lv (S r) c with
    | Some x, Some y => Some (half_sum x y)
    | _, _ => None
    end.
Proof.
  rewrite cell2_zip_with. unfold Np.cell2, Np.upto_last, Np.from1.
  rewrite lookup_tail.
  destruct (decide (S r < length lv)%nat) as [Hr|Hr].
  - by rewrite removelast_lookup.
  - rewrite (lookup_ge_None_2 lv (S r)) by lia. simpl.
    by destruct (removelast lv !! r ≫= _), (lv !! r ≫= _).
Qed.

Lemma even_rows_level (lv : list (list Q)) j i :
  (S (2 * j) < length lv)%nat →
  Np.cell2 (Np.step2 <$> Np.upto_last_step2 lv) j i = Np.cell2 lv (2 * j) (2 * i).
Proof.
  intros Hj. unfold Np.cell2, Np.upto_last_step2, Np.upto_last.
  rewrite list_lookup_fmap, step2_lookup, removelast_lookup by done.
  destruct (lv !! (2 * j)%nat); simpl; [|done]. apply step2_lookup.
Qed.

Lemma odd_rows_level (lv : list (list Q)) j i :
  Np.cell2 (Np.step2 <$> Np.from1_step2 lv) j i = Np.cell2 lv (S (2 * j)) (2 * i).
Proof.
  unfold Np.cell2, Np.from1_step2, Np.from1.
  rewrite list_lookup_fmap, step2_lookup, lookup_tail.
  destruct (lv !! S (2 * j)); simpl; [|done]. apply step2_lookup.
Qed.

Lemma traverse_total {A B} (f : A → result B) (g : A → B) l :
  (∀ x, x ∈ l → f x = Ok (g x)) → traverse f l = Ok (g <$> l).
Proof.
  induction l as [|x l IH]; intros H; [done|]. simpl.
  rewrite H by left. simpl. rewrite IH; [done|]. intros y Hy. apply H. by right.
Qed.

(** *** Shapes of two-dimensional arrays *)

Lemma shape2_zeros r c : shape2 r c (Np.zeros2 r c).
Proof.
  split; [apply length_replicate|].
  apply Forall_replicate, length_replicate.
Qed.

Lemma shape2_zip_with f r c x y :
  shape2 r c x → shape2 r c y → shape2 r c (zip_with (zip_with f) x y).
Proof.
  intros [Lx Fx] [Ly Fy]. split.
  - rewrite length_zip_with. lia.
  - rewrite Forall_lookup in *. intros k row Hk.
    apply lookup_zip_with_Some in Hk as (rx & ry & -> & Hx & Hy).
    rewrite length_zip_with, (Fx _ _ Hx), (Fy _ _ Hy). lia.
Qed.

Lemma shape2_fmap (f : Q → Q) r c x :
  shape2 r c x → shape2 r c ((λ row : list Q, f <$> row) <$> x).
Proof.
  intros [Lx Fx]. split; [by rewrite length_fmap|].
  rewrite Forall_fmap. eapply Forall_impl; [done|].
  intros row Hrow. simpl. by rewrite length_fmap.
Qed.

Lemma shape2_mid_level R n2 lv :
  shape2 (2 * R + 1) n2 lv →
  shape2 (2 * R) n2 (zip_with (zip_with half_sum) (Np.upto_last lv) (Np.from1 lv)).
Proof.
  intros [Lx Fx]. unfold Np.upto_last, Np.from1. split.
  - rewrite length_zip_with, removelast_length, length_tl. lia.
  - rewrite Forall_lookup in *. intros k row Hk.
    apply lookup_zip_with_Some in Hk as (rx & ry & -> & Hx & Hy).
    rewrite lookup_tail in Hy.
    assert (S k < length lv)%nat by by eapply lookup_lt_Some.
    rewrite removelast_lookup in Hx by done.
    rewrite length_zip_with, (Fx _ _ Hx), (Fx _ _ Hy). lia.
Qed.

Lemma shape2_step2_rows R C (rows : list (list Q)) :
  length rows = R → Forall (λ row : list Q, length row = (2 * C)%nat) rows →
  shape2 R C (Np.step2 <$> rows).
Proof.
  intros L F. split; [by rewrite length_fmap|].
  rewrite Forall_fmap. eapply Forall_impl; [done|].
  intros row Hrow. simpl. rewrite step2_length, Hrow.
  replace (2 * C + 1)%nat with (1 + C * 2)%nat by lia.
  rewrite Nat.div_add by done. done.
Qed.

Lemma Forall_step2 {A} (P : A → Prop) (a : list A) : Forall P a → Forall P (Np.step2 a).
Proof.
  rewrite !Forall_lookup. intros H k x Hk. rewrite step2_lookup in Hk. eauto.
Qed.

Lemma Forall_removelast {A} (P : A → Prop) (a : list A) : Forall P a → Forall P (removelast a).
Proof.
  rewrite !Forall_lookup. intros H k x Hk.
  assert (k < length (removelast a))%nat by by eapply lookup_lt_Some.
  rewrite removelast_length in *. rewrite removelast_lookup in Hk by lia. eauto.
Qed.

Lemma Forall_tail' {A} (P : A → Prop) (a : list A) : Forall P a → Forall P (tail a).
Proof. rewrite !Forall_lookup. intros H k x Hk. rewrite lookup_tail in Hk. eauto. Qed.

Lemma shape2_even_level R C lv :
  shape2 (2 * R) (2 * C) lv → shape2 R C (Np.step2 <$> Np.upto_last_step2 lv).
Proof.
  intros [L F]. apply shape2_step2_rows.
  - unfold Np.upto_last_step2, Np.upto_last.
    rewrite step2_length, removelast_length, L.
    destruct R as [|R]; [done|].
    replace (2 * S R - 1 + 1)%nat with (0 + S R * 2)%nat by lia.
    by rewrite Nat.div_add.
  - by apply Forall_step2, Forall_removelast.
Qed.

Lemma shape2_odd_level R C lv :
  shape2 (2 * R) (2 * C) lv → shape2 R C (Np.step2 <$> Np.from1_step2 lv).
Proof.
  intros [L F]. apply shape2_step2_rows.
  - unfold Np.from1_step2, Np.from1.
    rewrite step2_length, length_tl, L.
    destruct R as [|R]; [done|].
    replace (2 * S R - 1 + 1)%nat with (0 + S R * 2)%nat by lia.
    by rewrite Nat.div_add.
  - by apply Forall_step2, Forall_tail'.
Qed.

Lemma shape2_sum_axis0 r c (a : list (list (list Q))) :
  Forall (shape2 r c) a → shape2 r c (Np.sum_axis0 r c a).
Proof.
  unfold Np.sum_axis0. generalize (shape2_zeros r c). generalize (Np.zeros2 r c).
  induction a as [|x a IH]; intros z Hz HF; [done|]. simpl.
  inversion HF; subst. apply IH; [|done]. by apply shape2_zip_with.
Qed.

Lemma stretch_id {A} t (a : list A) : length a = t → Np.stretch t a = a.
Proof. intros <-. unfold Np.stretch. by rewrite Nat.eqb_refl. Qed.

Lemma assign_level_id R C rhs :
  shape2 R C rhs → assign_level (2 * R + 1) (2 * C) rhs = Ok rhs.
Proof.
  intros [L F]. unfold assign_level, sub_rows, sub_cols, Np.fits.
  replace (2 * R + 1 - 1)%nat with (0 + R * 2)%nat by lia.
  replace (2 * R + 1)%nat with (1 + R * 2)%nat by lia.
  replace (2 * C + 1)%nat with (1 + C * 2)%nat by lia.
  replace (2 * C)%nat with (0 + C * 2)%nat by lia.
  rewrite !Nat.div_add by done. simpl. rewrite !Nat.eqb_refl. simpl.
  f_equal. rewrite stretch_id.
  - induction rhs as [|row rhs IH] in R, L, F |- *; [done|]. simpl.
    inversion F; subst. rewrite stretch_id by done. f_equal. by eapply IH.
  - by rewrite length_fmap.
Qed.

Section Level.

Variables (n0 R C : nat) (a : list (list (list Q))).
Hypothesis Hshape : shape3 n0 (2 * R + 1) (2 * C) a.

Lemma sub_rows_odd : sub_rows (2 * R + 1) = R.
Proof.
  unfold sub_rows. replace (2 * R + 1 - 1)%nat with (0 + R * 2)%nat by lia.
  by rewrite Nat.div_add.
Qed.
Lemma sub_cols_even : sub_cols (2 * C) = C.
Proof.
  unfold sub_cols. replace (2 * C + 1)%nat with (1 + C * 2)%nat by lia.
  by rewrite Nat.div_add.
Qed.

Lemma mid_level l :
  (l < n0)%nat →
  ∃ m, mid a !! l = Some m ∧ shape2 (2 * R) (2 * C) m
       ∧ ∀ r c, (r < 2 * R)%nat → (c < 2 * C)%nat →
           Np.cell2 m r c = Some (lat_mid a l r c).
Proof.
  intros Hl. destruct (shape3_level _ _ _ _ _ Hshape Hl) as (lv & Hlv & Llv & Flv).
  eexists. split; [|split].
  - unfold mid. by rewrite list_lookup_fmap, Hlv.
  - by apply shape2_mid_level.
  - intros r c Hr Hc. rewrite mid_level_lookup.
    assert (Hx : ∀ r', (r' < 2 * R + 1)%nat →
              Np.cell2 lv r' c = Some (at3 a l r' c)).
    { intros r' Hr'. rewrite <- (shape3_cell _ _ _ _ l r' c Hshape) by done.
      unfold Np.cell. by rewrite Hlv. }
    rewrite !Hx by lia. done.
Qed.

(** The two operands of the assignment for level [L], stacked. *)
Lemma operands L :
  (3 * L + 3 ≤ n0)%nat →
  ∃ m0 m1 m2,
    Np.window3 (3 * L) (mid a) = [m0; m1; m2]
    ∧ Forall (shape2 (2 * R) (2 * C)) [m0; m1; m2]
    ∧ ∀ j i, (j < R)%nat → (i < C)%nat →
        Np.cell2 m0 (2 * j) (2 * i) = Some (lat_mid a (3 * L + 0) (2 * j) (2 * i))
        ∧ Np.cell2 m1 (2 * j) (2 * i) = Some (lat_mid a (3 * L + 1) (2 * j) (2 * i))
        ∧ Np.cell2 m2 (2 * j) (2 * i) = Some (lat_mid a (3 * L + 2) (2 * j) (2 * i))
        ∧ Np.cell2 m0 (S (2 * j)) (2 * i) = Some (lat_mid a (3 * L + 0) (2 * j + 1) (2 * i))
        ∧ Np.cell2 m1 (S (2 * j)) (2 * i) = Some (lat_mid a (3 * L + 1) (2 * j + 1) (2 * i))
        ∧ Np.cell2 m2 (S (2 * j)) (2 * i) = Some (lat_mid a (3 * L + 2) (2 * j + 1) (2 * i)).
Proof.
  intros HL.
  destruct (mid_level (3 * L + 0)) as (m0 & H0 & S0 & C0); [lia|].
  destruct (mid_level (3 * L + 1)) as (m1 & H1 & S1 & C1); [lia|].
  destruct (mid_level (3 * L + 2)) as (m2 & H2 & S2 & C2); [lia|].
  exists m0, m1, m2. split; [|split].
  - apply window3_three.
    + by rewrite Nat.add_0_r in H0.
    + by replace (S (3 * L)) with (3 * L + 1)%nat by lia.
    + by replace (S (S (3 * L))) with (3 * L + 2)%nat by lia.
  - repeat (apply Forall_cons_2; [assumption|]). apply Forall_nil_2.
  - intros j i Hj Hi.
    replace (S (2 * j)) with (2 * j + 1)%nat by lia.
    rewrite C0, C1, C2, C0, C1, C2 by lia. done.
Qed.

Lemma sum_axis0_three (x0 x1 x2 : list (list Q)) j i v0 v1 v2 :
  (j < R)%nat → (i < C)%nat →
  Np.cell2 x0 j i = Some v0 → Np.cell2 x1 j i = Some v1 → Np.cell2 x2 j i = Some v2 →
  Np.cell2 (Np.sum_axis0 R C [x0; x1; x2]) j i = Some (0 + v0 + v1 + v2).
Proof.
  intros Hj Hi H0 H1 H2. unfold Np.sum_axis0, Np.add2. simpl.
  rewrite !cell2_zip_with, cell2_zeros, H0, H1, H2 by done. done.
Qed.

Lemma level_sum_cell L :
  (3 * L + 3 ≤ n0)%nat →
  shape2 R C (level_sum (2 * R + 1) (2 * C) (mid a) L)
  ∧ ∀ j i, (j < R)%nat → (i < C)%nat →
      Np.cell2 (level_sum (2 * R + 1) (2 * C) (mid a) L) j i
      = Some (half_sum (sum3 (λ d, lat_mid a (3 * L + d) (2 * j) (2 * i)))
                       (sum3 (λ d, lat_mid a (3 * L + d) (2 * j + 1) (2 * i)))).
Proof.
  intros HL. destruct (operands L HL) as (m0 & m1 & m2 & HW & HS & HC).
  unfold level_sum, even_rows, odd_rows. rewrite sub_rows_odd, sub_cols_even, HW.
  inversion HS as [|? ? S0 HS1]; subst. inversion HS1 as [|? ? S1 HS2]; subst.
  inversion HS2 as [|? ? S2 _]; subst.
  split.
  - apply shape2_zip_with; apply shape2_sum_axis0; rewrite !fmap_cons, !fmap_nil;
      repeat (apply Forall_cons_2;
              [(by apply shape2_even_level) || (by apply shape2_odd_level)|]);
      apply Forall_nil_2.
  - intros j i Hj Hi.
    destruct (HC j i Hj Hi) as (E0 & E1 & E2 & O0 & O1 & O2).
    pose proof (proj1 S0) as L0. pose proof (proj1 S1) as L1. pose proof (proj1 S2) as L2.
    rewrite <- (even_rows_level m0 j i) in E0 by lia.
    rewrite <- (even_rows_level m1 j i) in E1 by lia.
    rewrite <- (even_rows_level m2 j i) in E2 by lia.
    rewrite <- (odd_rows_level m0 j i) in O0.
    rewrite <- (odd_rows_level m1 j i) in O1.
    rewrite <- (odd_rows_level m2 j i) in O2.
    rewrite cell2_zip_with, !fmap_cons, !fmap_nil.
    rewrite (sum_axis0_three _ _ _ j i _ _ _ Hj Hi E0 E1 E2).
    rewrite (sum_axis0_three _ _ _ j i _ _ _ Hj Hi O0 O1 O2).
    done.
Qed.

Lemma mean_axis0_three (x0 x1 x2 : list (list Q)) j i v0 v1 v2 :
  (j < R)%nat → (i < C)%nat →
  Np.cell2 x0 j i = Some v0 → Np.cell2 x1 j i = Some v1 → Np.cell2 x2 j i = Some v2 →
  Np.cell2 (Np.mean_axis0 R C [x0; x1; x2]) j i = Some ((0 + v0 + v1 + v2) / 3).
Proof.
  intros Hj Hi H0 H1 H2. unfold Np.mean_axis0.
  pose proof (sum_axis0_three x0 x1 x2 j i v0 v1 v2 Hj Hi H0 H1 H2) as Hs.
  unfold Np.cell2 in *. rewrite list_lookup_fmap.
  destruct (Np.sum_axis0 R C [x0; x1; x2] !! j) as [row|]; [|done]. simpl in *.
  rewrite list_lookup_fmap, Hs. done.
Qed.

Lemma level_mean_cell L :
  (3 * L + 3 ≤ n0)%nat →
  shape2 R C (level_mean (2 * R + 1) (2 * C) (mid a) L)
  ∧ ∀ j i, (j < R)%nat → (i < C)%nat →
      Np.cell2 (level_mean (2 * R + 1) (2 * C) (mid a) L) j i
      = Some (half_sum (sum3 (λ d, lat_mid a (3 * L + d) (2 * j) (2 * i)) / 3)
                       (sum3 (λ d, lat_mid a (3 * L + d) (2 * j + 1) (2 * i)) / 3)).
Proof.
  intros HL. destruct (operands L HL) as (m0 & m1 & m2 & HW & HS & HC).
  unfold level_mean, even_rows, odd_rows. rewrite sub_rows_odd, sub_cols_even, HW.
  inversion HS as [|? ? S0 HS1]; subst. inversion HS1 as [|? ? S1 HS2]; subst.
  inversion HS2 as [|? ? S2 _]; subst.
  split.
  - apply shape2_zip_with; unfold Np.mean_axis0; apply shape2_fmap;
      apply shape2_sum_axis0; rewrite !fmap_cons, !fmap_nil;
      repeat (apply Forall_cons_2;
              [(by apply shape2_even_level) || (by apply shape2_odd_level)|]);
      apply Forall_nil_2.
  - intros j i Hj Hi.
    destruct (HC j i Hj Hi) as (E0 & E1 & E2 & O0 & O1 & O2).
    pose proof (proj1 S0) as L0. pose proof (proj1 S1) as L1. pose proof (proj1 S2) as L2.
    rewrite <- (even_rows_level m0 j i) in E0 by lia.
    rewrite <- (even_rows_level m1 j i) in E1 by lia.
    rewrite <- (even_rows_level m2 j i) in E2 by lia.
    rewrite <- (odd_rows_level m0 j i) in O0.
    rewrite <- (odd_rows_level m1 j i) in O1.
    rewrite <- (odd_rows_level m2 j i) in O2.
    rewrite cell2_zip_with, !fmap_cons, !fmap_nil.
    rewrite (mean_axis0_three _ _ _ j i _ _ _ Hj Hi E0 E1 E2).
    rewrite (mean_axis0_three _ _ _ j i _ _ _ Hj Hi O0 O1 O2).
    done.
Qed.

Lemma subsample_cells rhs (v : nat → nat → nat → Q) :
  (∀ L, (3 * L + 3 ≤ n0)%nat →
     shape2 R C (rhs (2 * R + 1)%nat (2 * C)%nat (mid a) L)
     ∧ ∀ j i, (j < R)%nat → (i < C)%nat →
         Np.cell2 (rhs (2 * R + 1)%nat (2 * C)%nat (mid a) L) j i = Some (v L j i)) →
  ∃ out, subsample rhs n0 (2 * R + 1) (2 * C) a = Ok out
         ∧ ∀ L j i, (L < n0 / 3)%nat → (j < R)%nat → (i < C)%nat →
             Np.cell out L j i = Some (v L j i).
Proof.
  intros Hrhs. unfold subsample. eexists. split.
  - apply traverse_total with (g := λ ilev, rhs (2 * R + 1)%nat (2 * C)%nat (mid a) ilev).
    intros L HL%elem_of_seq. apply assign_level_id, Hrhs.
    pose proof (Nat.div_mod_eq n0 3). lia.
  - intros L j i HL Hj Hi. unfold Np.cell.
    rewrite list_lookup_fmap, lookup_seq_lt by done. simpl.
    apply Hrhs; [|done|done]. pose proof (Nat.div_mod_eq n0 3). lia.
Qed.

End Level.

(** C4 (amended).  On a regular grid with an odd number of latitudes and
    an even number of longitudes the sub-sampler succeeds, and each output
    cell [(L, j, i)] is obtained by averaging each latitude-adjacent pair
    of native rows (same level, same longitude) into mid-latitude values,
    summing the mid-latitude values of the three native levels
    [3L .. 3L+2], and averaging the even-indexed mid row [2j] and the
    odd-indexed mid row [2j+1] with half weight each, at the even-indexed
    longitude [2i] alone; for the asymmetry parameter the three levels are
    averaged, not summed. *)
Theorem subsample_cell (n0 R C : nat) (a : list (list (list Q))) :
  shape3 n0 (2 * R + 1) (2 * C) a →
  (∃ out, subsample_sum n0 (2 * R + 1) (2 * C) a = Ok out
     ∧ ∀ L j i, (L < n0 / 3)%nat → (j < R)%nat → (i < C)%nat →
         Np.cell out L j i
         = Some (half_sum (sum3 (λ d, lat_mid a (3 * L + d) (2 * j) (2 * i)))
                          (sum3 (λ d, lat_mid a (3 * L + d) (2 * j + 1) (2 * i)))))
  ∧ (∃ out, subsample_mean n0 (2 * R + 1) (2 * C) a = Ok out
     ∧ ∀ L j i, (L < n0 / 3)%nat → (j < R)%nat → (i < C)%nat →
         Np.cell out L j i
         = Some (half_sum (sum3 (λ d, lat_mid a (3 * L + d) (2 * j) (2 * i)) / 3)
                          (sum3 (λ d, lat_mid a (3 * L + d) (2 * j + 1) (2 * i)) / 3))).
Proof.
  intros Hshape. split.
  - apply (subsample_cells n0 R C a level_sum
             (λ L j i, half_sum (sum3 (λ d, lat_mid a (3 * L + d) (2 * j) (2 * i)))
                                (sum3 (λ d, lat_mid a (3 * L + d) (2 * j + 1) (2 * i))))).
    intros L HL. by apply (level_sum_cell n0).
  - apply (subsample_cells n0 R C a level_mean
             (λ L j i, half_sum (sum3 (λ d, lat_mid a (3 * L + d) (2 * j) (2 * i)) / 3)
                                (sum3 (λ d, lat_mid a (3 * L + d) (2 * j + 1) (2 * i)) / 3))).
    intros L HL. by apply (level_mean_cell n0).
Qed.

(** C5 as stated fails: on the 6-level 4x4 grid of level indices neither
    the sub-sampled extinction before the clip nor the clipped one has the
    means 1 and 4 as its two levels. *)
Lemma level_index_not_mean :
  ¬ (∃ l0 l1, subsample_sum 6 4 4 (level_index_grid 6 4 4) = Ok [l0; l1]
              ∧ all_cells (λ v, v == 1) l0 ∧ all_cells (λ v, v == 4) l1)
  ∧ ¬ (∃ pre l0 l1, subsample_sum 6 4 4 (level_index_grid 6 4 4) = Ok pre
                    ∧ clip_ext pre = [l0; l1]
                    ∧ all_cells (λ v, v == 1) l0 ∧ all_cells (λ v, v == 4) l1).
Proof.
  split.
  - intros (l0 & l1 & H & H0 & _). vm_compute in H. injection H as <- <-.
    inversion H0 as [|? ? Hrow _]. inversion Hrow as [|? ? Hv _]. discriminate Hv.
  - intros (pre & l0 & l1 & H & Hc & H0 & _). vm_compute in H. injection H as <-.
    vm_compute in Hc. injection Hc as <- <-.
    inversion H0 as [|? ? Hrow _]. inversion Hrow as [|? ? Hv _]. discriminate Hv.
Qed.

(** C5 (amended).  On the 6-level 4x4 grid of level indices each of the
    two output levels of the sub-sampled extinction equals the sum of its
    three native levels, 0+1+2 and 3+4+5; the clip to [0, 10] then leaves 3
    and turns 12 into 10. *)
Theorem level_index_sum :
  ∃ l0 l1 c0 c1,
    subsample_sum 6 4 4 (level_index_grid 6 4 4) = Ok [l0; l1]
    ∧ all_cells (λ v, v == 0 + 1 + 2) l0
    ∧ all_cells (λ v, v == 3 + 4 + 5) l1
    ∧ clip_ext [l0; l1] = [c0; c1]
    ∧ all_cells (λ v, v == 3) c0
    ∧ all_cells (λ v, v == 10) c1.
Proof.
  eexists _, _, _, _. split; [vm_compute; reflexivity|].
  split; [by repeat constructor|]. split; [by repeat constructor|].
  split; [vm_compute; reflexivity|].
  split; by repeat constructor.
Qed.

(** C4 as stated fails: on the 6x5x4 grid of level indices the code gives
    3 where vertically averaged mid-levels would give 4.5, and on the grid
    that is one on the odd longitudes only the code gives 0 where the mean
    of the 2x2 horizontal block would give 1.5. *)
Lemma subsample_not_as_claimed :
  (∃ out v, subsample_sum 6 5 4 (level_index_grid 6 5 4) = Ok out
            ∧ Np.cell out 0 0 0 = Some v
            ∧ v == 3 ∧ claimed_cell (level_index_grid 6 5 4) 0 0 0 == 4.5)
  ∧ (∃ out v, subsample_sum 6 5 4 (odd_longitude_grid 6 5 4) = Ok out
              ∧ Np.cell out 0 0 0 = Some v
              ∧ v == 0 ∧ claimed_cell (odd_longitude_grid 6 5 4) 0 0 0 == 1.5).
Proof.
  split; eexists _, _; (split; [vm_compute; reflexivity|]);
    (split; [vm_compute; reflexivity|]); split; reflexivity.
Qed.

Lemma level_index_grid_shape : shape3 6 (2 * 2 + 1) (2 * 2) (level_index_grid 6 5 4).
Proof. split; [reflexivity|]. repeat constructor. Qed.

Lemma subsample_cell_witness :
  ∃ out, subsample_sum 6 (2 * 2 + 1) (2 * 2) (level_index_grid 6 5 4) = Ok out
         ∧ Np.cell out 1 1 1
           = Some (half_sum (sum3 (λ d, lat_mid (level_index_grid 6 5 4) (3 * 1 + d) (2 * 1) (2 * 1)))
                            (sum3 (λ d, lat_mid (level_index_grid 6 5 4) (3 * 1 + d) (2 * 1 + 1) (2 * 1)))).
Proof.
  destruct (subsample_cell 6 2 2 (level_index_grid 6 5 4) level_index_grid_shape)
    as [(out & Hout & Hcell) _].
  exists out. split; [exact Hout|]. apply Hcell.
  - vm_compute. lia.
  - lia.
  - lia.
Defined.

Lemma argmin_go_spec r : ∀ pre best bv,
  pre !! best = Some bv →
  (∀ j x, pre !! j = Some x → bv <= x) →
  (∀ j x, (j < best)%nat → pre !! j = Some x → bv < x) →
  first_argmin (pre ++ r)%list (Np.argmin_go r (length pre) best bv).
Proof.
  induction r as [|x r IH]; intros pre best bv Hb Hle Hlt; simpl.
  - rewrite app_nil_r. by exists bv.
  - replace (pre ++ x :: r)%list with ((pre ++ [x]) ++ r)%list by by rewrite <- app_assoc.
    replace (S (length pre)) with (length (pre ++ [x])%list)
      by (rewrite length_app; simpl; lia).
    destruct (Qlt_le_dec x bv) as [Hx|Hx]; apply IH.
    + by rewrite lookup_app_r, Nat.sub_diag.
    + intros j y Hj. apply lookup_app_Some in Hj as [Hj|[_ Hj]].
      * specialize (Hle _ _ Hj). lra.
      * apply list_lookup_singleton_Some in Hj as [_ <-]. lra.
    + intros j y Hjl Hj. rewrite lookup_app_l in Hj by done.
      specialize (Hle _ _ Hj). lra.
    + rewrite lookup_app_l; [done|]. by eapply lookup_lt_Some.
    + intros j y Hj. apply lookup_app_Some in Hj as [Hj|[_ Hj]].
      * eauto.
      * by apply list_lookup_singleton_Some in Hj as [_ <-].
    + intros j y Hjl Hj. apply (Hlt j y Hjl).
      rewrite lookup_app_l in Hj; [done|].
      apply lookup_lt_Some in Hb. lia.
Qed.

Lemma argmin_spec a k : Np.argmin a = Ok k → first_argmin a k.
Proof.
  destruct a as [|x r]; [done|]. intros [= <-].
  apply (argmin_go_spec r [x] 0%nat x).
  - done.
  - intros [|j] y [= <-]. lra.
  - intros j y Hj. lia.
Qed.

Lemma argmin_total a : a ≠ [] → ∃ k, Np.argmin a = Ok k.
Proof. destruct a; [done|]. intros _. simpl. eauto. Qed.

Lemma traverse_Forall2 {A B} (f : A → result B) l ys :
  traverse f l = Ok ys → Forall2 (λ x y, f x = Ok y) l ys.
Proof.
  revert ys. induction l as [|x l IH]; intros ys H; simpl in H.
  - injection H as <-. constructor.
  - inv_bind H. inv_bind H. injection H as <-. constructor; eauto.
Qed.

Lemma band_bounds_Ok tbl band_idx wvl_min wvl_max :
  band_bounds tbl band_idx = Ok (wvl_min, wvl_max) →
  Np.get tbl band_idx = Ok wvl_max ∧ Np.get tbl (band_idx - 1)%Z = Ok wvl_min.
Proof.
  unfold band_bounds. intros H. inv_bind H. inv_bind H. by injection H as <- <-.
Qed.

Lemma select_band_Ok band ds_bands o wvl_min wvl_max idx :
  select_band band ds_bands o = Ok (wvl_min, wvl_max, idx) →
  ∃ band_idx,
    Py.int (Py.slice 2 4 band) = Ok band_idx
    ∧ (Py.contains "sw" band = true ∨ Py.contains "lw" band = true)
    ∧ Np.get (band_table band ds_bands) (band_idx - 1)%Z = Ok wvl_min
    ∧ Np.get (band_table band ds_bands) band_idx = Ok wvl_max
    ∧ first_argmin ((λ w, Qabs (w - 0.5 * (wvl_max + wvl_min))) <$> wvls o) idx.
Proof.
  unfold select_band, band_table. intros H.
  apply bind_Ok in H as (band_idx & Hint & H). exists band_idx. split; [done|].
  apply bind_Ok in H as (sw & Hsw & H).
  apply bind_Ok in H as (lw & Hlw & H).
  apply bind_Ok in H as ([mn mx] & Hb & H). apply of_option_Ok in Hb. subst lw.
  apply bind_Ok in H as (k & Hk & H). injection H as <- <- <-.
  apply argmin_spec in Hk.
  destruct (Py.contains "lw" band).
  - apply bind_Ok in Hlw as ([mn' mx'] & Hb & [= <- <-]).
    apply band_bounds_Ok in Hb as [? ?]. auto.
  - injection Hlw as ->. destruct (Py.contains "sw" band); [|done].
    apply bind_Ok in Hsw as ([mn' mx'] & Hb & [= <- <-]).
    apply band_bounds_Ok in Hb as [? ?]. auto.
Qed.

Lemma get_lookup {A} (a : list A) (n : nat) x :
  a !! n = Some x → Np.get a (Z.of_nat n) = Ok x.
Proof. intros H. apply get_nonneg; [lia|]. by rewrite Nat2Z.id. Qed.

Lemma select_band_total band ds_bands o band_idx (n : nat) lo hi :
  Py.int (Py.slice 2 4 band) = Ok band_idx →
  Py.contains "sw" band ≠ Py.contains "lw" band →
  band_idx = Z.of_nat (S n) →
  band_table band ds_bands !! n = Some lo →
  band_table band ds_bands !! S n = Some hi →
  lambda o ≠ [] →
  ∃ idx, select_band band ds_bands o = Ok (lo, hi, idx).
Proof.
  intros Hint Hcat -> Hlo Hhi Hne. unfold select_band. rewrite Hint. cbn [bind].
  assert (Hb : band_bounds (band_table band ds_bands) (Z.of_nat (S n)) = Ok (lo, hi)).
  { unfold band_bounds. rewrite (get_lookup _ _ _ Hhi). cbn [bind].
    replace (Z.of_nat (S n) - 1)%Z with (Z.of_nat n) by lia.
    by rewrite (get_lookup _ _ _ Hlo). }
  destruct (argmin_total ((λ w, Qabs (w - 0.5 * (hi + lo))) <$> wvls o)) as [k Hk].
  { unfold wvls. by destruct (lambda o). }
  exists k. unfold band_table in *.
  destruct (Py.contains "lw" band), (Py.contains "sw" band); try done.
  - cbn [bind]. rewrite Hb. cbn [bind of_option]. by rewrite Hk.
  - rewrite Hb. cbn [bind of_option]. by rewrite Hk.
Qed.

Lemma process_file_Ok o species size_bin idx_wvl ds outs :
  process_file o species size_bin idx_wvl ds = Ok outs →
  ∃ name idx_size,
    select_species species size_bin = Ok (name, idx_size)
    ∧ Forall2 (λ snap out, time_step o name idx_size idx_wvl snap = Ok out) ds outs.
Proof.
  unfold process_file. intros H. apply bind_Ok in H as ([name idx_size] & Hs & H).
  exists name, idx_size. split; [done|]. by apply traverse_Forall2.
Qed.

(** C7.  For a label with one category marker, a two-character index
    [n >= 1] and bounds [n - 1] and [n] present in the category's table,
    the band selector returns the lower bound, the upper bound and a
    wavelength index.  Whatever it returns is read from the label in this
    way: the index is [int(band[2:4])], the bounds are the entries
    [index - 1] and [index] of the table of the category, and the
    wavelength index is the first one that minimises the distance to the
    midpoint of the bounds.  A run converts every time step of every file
    with this one wavelength index. *)
Theorem band_selection (band species size_bin : string) (ds_bands : bands) (o : optics) :
  (∀ band_idx (n : nat) lo hi,
     Py.int (Py.slice 2 4 band) = Ok band_idx →
     Py.contains "sw" band ≠ Py.contains "lw" band →
     band_idx = Z.of_nat (S n) →
     band_table band ds_bands !! n = Some lo →
     band_table band ds_bands !! S n = Some hi →
     lambda o ≠ [] →
     ∃ idx, select_band band ds_bands o = Ok (lo, hi, idx))
  ∧ (∀ wvl_min wvl_max idx,
       select_band band ds_bands o = Ok (wvl_min, wvl_max, idx) →
       ∃ band_idx,
         Py.int (Py.slice 2 4 band) = Ok band_idx
         ∧ (Py.contains "sw" band = true ∨ Py.contains "lw" band = true)
         ∧ Np.get (band_table band ds_bands) (band_idx - 1)%Z = Ok wvl_min
         ∧ Np.get (band_table band ds_bands) band_idx = Ok wvl_max
         ∧ first_argmin ((λ w, Qabs (w - 0.5 * (wvl_max + wvl_min))) <$> wvls o) idx)
  ∧ (∀ files outs,
       main band species size_bin ds_bands o files = Ok outs →
       ∃ wvl_min wvl_max idx sp name idx_size,
         select_band band ds_bands o = Ok (wvl_min, wvl_max, idx)
         ∧ (files ≠ [] → species_map species = Ok sp
                         ∧ select_species sp size_bin = Ok (name, idx_size))
         ∧ Forall2 (Forall2 (λ snap out,
                      time_step o name idx_size (Z.of_nat idx) snap = Ok out))
                   files outs).
Proof.
  split; [|split].
  - intros band_idx n lo hi. apply select_band_total.
  - intros wvl_min wvl_max idx. apply select_band_Ok.
  - intros files outs H. unfold main in H.
    apply bind_Ok in H as ([[wvl_min wvl_max] idx] & Hsel & H).
    apply traverse_Forall2 in H.
    destruct files as [|ds files].
    + inversion H; subst. exists wvl_min, wvl_max, idx, "", "", 0%Z.
      split; [done|]. split; [done|]. constructor.
    + inversion H as [|? out ? outs' H1 Hrest]; subst.
      apply bind_Ok in H1 as (sp & Hsp & H1).
      apply process_file_Ok in H1 as (name & idx_size & Hsel' & H1).
      exists wvl_min, wvl_max, idx, sp, name, idx_size.
      split; [done|]. split; [done|]. constructor; [done|].
      eapply Forall2_impl; [exact Hrest|]. intros ds' out' H2. simpl in H2.
      rewrite Hsp in H2. apply process_file_Ok in H2 as (name' & idx_size' & Hs2 & H2).
      cbn [bind] in Hs2. rewrite Hsel' in Hs2. by injection Hs2 as <- <-.
Qed.

Lemma band_selection_witness :
  (∃ idx, select_band "sw01" demo_bands demo_optics = Ok (0.2, 0.7, idx))
  ∧ first_argmin
      ((λ w, Qabs (w - 0.5 * (0.7 + 0.2))) <$> wvls demo_optics) 0
  ∧ ∃ outs name idx_size idx,
      main "sw01" "SU" "001" demo_bands demo_optics [[demo_snapshot; demo_snapshot]]
      = Ok outs
      ∧ Forall2 (Forall2 (λ snap out,
                   time_step demo_optics name idx_size (Z.of_nat idx) snap = Ok out))
                [[demo_snapshot; demo_snapshot]] outs.
Proof.
  destruct (band_selection "sw01" "SU" "001" demo_bands demo_optics) as (Htot & Hsel & Hrun).
  split; [|split].
  - apply (Htot 1%Z 0%nat 0.2 0.7); [reflexivity|discriminate|reflexivity..|discriminate].
  - destruct (Hsel 0.2 0.7 0%nat) as (? & _ & _ & _ & _ & Hmin); [reflexivity|exact Hmin].
  - destruct (main "sw01" "SU" "001" demo_bands demo_optics [[demo_snapshot; demo_snapshot]])
      as [outs|e] eqn:E; [|vm_compute in E; discriminate E].
    destruct (Hrun _ _ E) as (_ & _ & idx & _ & name & idx_size & _ & _ & HF).
    exists outs, name, idx_size, idx. split; [reflexivity|exact HF].
Defined.

Lemma clipping_invariant_witness :
  ∃ nat sub,
    time_step demo_optics "SO4" 0 0 demo_snapshot = Ok (nat, sub)
    ∧ ∃ e s, Np.cell (tau_ext_sub sub) 0 0 0 = Some e
             ∧ Np.cell (tau_sca_sub sub) 0 0 0 = Some s
             ∧ s == e.
Proof.
  destruct (time_step demo_optics "SO4" 0 0 demo_snapshot) as [[nat sub]|e] eqn:E;
    [|vm_compute in E; discriminate E].
  exists nat, sub. split; [reflexivity|].
  destruct (clipping_invariant _ _ _ _ _ _ _ E) as (_ & _ & _ & e_pre & s_pre & He & Hs & Hc).
  vm_compute in E. injection E as <- <-.
  vm_compute in He. injection He as <-.
  vm_compute in Hs. injection Hs as <-.
  apply (Hc 0%nat 0%nat 0%nat _ _ eq_refl eq_refl). reflexivity.
Defined.

Lemma layer_optical_depth_witness :
  ∃ nat sub,
    time_step demo_optics "SO4" 0 0 scenario_a = Ok (nat, sub)
    ∧ ∀ j i, (j < 3)%nat → (i < 2)%nat →
        ∃ k50 col,
          gather_cell (ext demo_optics) 0 50 0 = Ok k50
          ∧ Np.cell (da_tau_ext nat) 0 j i = Some (1000 * 0.000001 * k50 / 9.8)
          ∧ Np.cell2 (da_tau_ext_column nat) j i = Some col
          ∧ col == 1000 * 0.000001 * k50 / 9.8.
Proof.
  destruct (time_step demo_optics "SO4" 0 0 scenario_a) as [[nat sub]|e] eqn:E;
    [|vm_compute in E; discriminate E].
  exists nat, sub. split; [reflexivity|].
  destruct (layer_optical_depth demo_optics "SO4" 0 0 scenario_a nat sub
              (replicate 6 0.5) (replicate 6 0.000001) E eq_refl eq_refl eq_refl eq_refl)
    as (_ & _ & H).
  exact (H eq_refl eq_refl eq_refl eq_refl eq_refl).
Defined.

End SpeciesOpticsProofs.

Module ExternalMixProofs.

Import ExternalMix.

Lemma log_nil w : log w [] = w.
Proof. destruct w. unfold log. simpl. by rewrite app_nil_r. Qed.
Lemma log_log w e1 e2 : log (log w e1) e2 = log w (e1 ++ e2)%list.
Proof. unfold log. simpl. by rewrite app_assoc. Qed.

Section Resolve.

Variable glob_match : string → string → bool.
Variable str_of_list : list string → string.

Abbreviation resolve_species := (resolve_species glob_match).
Abbreviation resolve := (resolve glob_match).
Abbreviation matches_in := (matches_in glob_match).
Abbreviation process_file := (process_file glob_match str_of_list).
Abbreviation main := (main glob_match str_of_list).

(** Resolving the files reads the file system and writes warnings only. *)
Lemma resolve_species_log pattern files species w :
  ∃ evs files',
    resolve_species pattern files species w = (log w evs, Ok files')
    ∧ Forall (λ e, ∀ p, e ≠ Opened p ∧ e ≠ Wrote p) evs
    ∧ (matches_in (fs w) (species_pattern pattern species) = [] →
       matches_in (fs w) (legacy_pattern (species_pattern pattern species)) = [] →
       evs = [WarnNoMatch (species_pattern pattern species)] ∧ files' = files).
Proof.
  unfold resolve_species, sbind, matches.
  destruct (matches_in (fs w) (species_pattern pattern species)) as [|m ms] eqn:E1.
  - destruct (matches_in (fs w) (legacy_pattern (species_pattern pattern species)))
      as [|m ms] eqn:E2; simpl.
    + exists [WarnNoMatch (species_pattern pattern species)], files.
      split; [done|]. split; [|done]. by repeat constructor.
    + exists [WarnLegacy (legacy_pattern (species_pattern pattern species))],
             (files ++ m :: ms)%list.
      split; [done|]. split; [|done]. by repeat constructor.
  - simpl. exists [], (files ++ m :: ms)%list. rewrite log_nil.
    split; [done|]. split; [constructor|done].
Qed.

Lemma resolve_log pattern species_list : ∀ files w,
  ∃ evs files',
    foldM (resolve_species pattern) files species_list w = (log w evs, Ok files')
    ∧ Forall (λ e, ∀ p, e ≠ Opened p ∧ e ≠ Wrote p) evs
    ∧ ((∀ sp, sp ∈ species_list →
          matches_in (fs w) (species_pattern pattern sp) = []
          ∧ matches_in (fs w) (legacy_pattern (species_pattern pattern sp)) = []) →
       evs = (λ sp, WarnNoMatch (species_pattern pattern sp)) <$> species_list
       ∧ files' = files).
Proof.
  induction species_list as [|sp l IH]; intros files w.
  - exists [], files. simpl. unfold ret. rewrite log_nil.
    split; [done|]. split; [constructor|done].
  - simpl. unfold sbind.
    destruct (resolve_species_log pattern files sp w) as (e1 & f1 & -> & F1 & N1).
    destruct (IH f1 (log w e1)) as (e2 & f2 & -> & F2 & N2).
    exists (e1 ++ e2)%list, f2. rewrite log_log.
    split; [done|]. split; [by apply Forall_app|].
    intros Hnone. destruct N1 as [-> ->]; [apply Hnone; by left ..|].
    destruct N2 as [-> ->]; [|done].
    intros sp' Hsp'. apply Hnone. by right.
Qed.

(** C8.  When no species has a match, neither on the primary nor on the
    legacy path, [process_file] returns normally, leaves the file system
    as it was, and adds to the trace the warnings alone: no file is opened
    (no accumulator is made) and none is written; the main loop goes on
    with the next date. *)
Theorem skip_empty_unit (now cwd pattern : string) (species_list : list string)
    (w : world) :
  (∀ sp, sp ∈ species_list →
     matches_in (fs w) (species_pattern pattern sp) = []
     ∧ matches_in (fs w) (legacy_pattern (species_pattern pattern sp)) = []) →
  let evs := (((λ sp, WarnNoMatch (species_pattern pattern sp)) <$> species_list)
              ++ [WarnSkip pattern])%list in
  process_file now cwd pattern species_list w = (log w evs, Ok tt)
  ∧ fs (log w evs) = fs w
  ∧ Forall (λ e, ∀ p, e ≠ Opened p ∧ e ≠ Wrote p) evs
  ∧ ∀ fill_date_hour_template datadir file_pattern band date_str dates,
      pattern = unit_pattern fill_date_hour_template datadir file_pattern band date_str →
      main fill_date_hour_template now cwd datadir file_pattern band species_list
           (date_str :: dates) w
      = main fill_date_hour_template now cwd datadir file_pattern band species_list
             dates (log w evs).
Proof.
  intros Hnone evs.
  assert (Hpf : process_file now cwd pattern species_list w = (log w evs, Ok tt)).
  { unfold ExternalMix.process_file, sbind, ExternalMix.resolve.
    destruct (resolve_log pattern species_list [] w) as (e & f & -> & _ & N).
    destruct (N Hnone) as [-> ->]. unfold emit, evs, log. simpl.
    by rewrite app_assoc. }
  split; [done|]. split; [done|]. split.
  - unfold evs. apply Forall_app. split.
    + rewrite Forall_fmap. apply Forall_true. done.
    + by repeat constructor.
  - intros fill_date_hour_template datadir file_pattern band date_str dates ->.
    unfold ExternalMix.main. simpl. unfold sbind at 1. by rewrite Hpf.
Qed.

End Resolve.

Lemma updates_optical_refl d : updates_optical d d.
Proof. by constructor. Qed.

Lemma updates_optical_trans d1 d2 d3 :
  updates_optical d1 d2 → updates_optical d2 d3 → updates_optical d1 d3.
Proof.
  intros [O1 S1 A1] [O2 S2 A2]. constructor.
  - intros name H. by rewrite O2, O1.
  - intros name. by rewrite S2, S1.
  - by rewrite A2, A1.
Qed.

Lemma set_var_updates k a a' d :
  k ∈ optical → variables d !! k = Some a → shape a' = shape a →
  updates_optical d (set_var k a' d).
Proof.
  intros Hk Ha Hs. constructor; simpl.
  - intros name Hn. apply lookup_insert_ne. by intros ->.
  - intros name. destruct (decide (k = name)) as [<-|Hne].
    + rewrite lookup_insert_eq, Ha. simpl. by rewrite Hs.
    + by rewrite lookup_insert_ne.
  - done.
Qed.

Lemma field_set_var_eq k a d i : field (set_var k a d) k i = data a !! i.
Proof. unfold field, set_var. simpl. by rewrite lookup_insert_eq. Qed.
Lemma field_set_var_ne k k' a d i : k ≠ k' → field (set_var k a d) k' i = field d k' i.
Proof. intros H. unfold field, set_var. simpl. by rewrite lookup_insert_ne. Qed.

Lemma values_Ok a v : values a = Ok v → v = data a.
Proof. unfold values. destruct (shape a); [done|]. by intros [= <-]. Qed.

Lemma zero_var_Ok k d d' :
  zero_var k d = Ok d' →
  ∃ a, variables d !! k = Some a
       ∧ d' = set_var k {| shape := shape a; data := (λ _, 0) <$> data a |} d.
Proof.
  unfold zero_var, get_var. intros H.
  apply bind_Ok in H as (a & Ha%of_option_Ok & H).
  apply bind_Ok in H as (v & ->%values_Ok & H). injection H as <-. eauto.
Qed.

Lemma add_var_Ok k sh rhs d d' :
  add_var k sh rhs d = Ok d' →
  ∃ a, variables d !! k = Some a
       ∧ d' = set_var k {| shape := shape a; data := zip_with Qplus (data a) rhs |} d.
Proof.
  unfold add_var, get_var. intros H.
  apply bind_Ok in H as (a & Ha%of_option_Ok & H).
  apply bind_Ok in H as (v & ->%values_Ok & H).
  destruct (decide (sh = shape a)); [|done]. injection H as <-. eauto.
Qed.

Lemma add_var_field k sh rhs d d' :
  add_var k sh rhs d = Ok d' → k ∈ optical →
  updates_optical d d'
  ∧ (∀ i, field d' k i = match field d k i, rhs !! i with
                         | Some x, Some y => Some (x + y)
                         | _, _ => None
                         end)
  ∧ (∀ k' i, k ≠ k' → field d' k' i = field d k' i).
Proof.
  intros (a & Ha & ->)%add_var_Ok Hk. split; [|split].
  - by eapply set_var_updates.
  - intros i. rewrite field_set_var_eq. simpl. unfold field. rewrite Ha. simpl.
    rewrite lookup_zip_with. destruct (data a !! i); simpl; [|done].
    by destruct (rhs !! i).
  - intros k' i Hne. by apply field_set_var_ne.
Qed.

Lemma get_values d k v :
  (let! a := get_var d k in values a) = Ok v → ∀ i, field d k i = v !! i.
Proof.
  unfold get_var. intros H i.
  apply bind_Ok in H as (a & Ha%of_option_Ok & ->%values_Ok).
  unfold field. by rewrite Ha.
Qed.

Lemma optical_distinct :
  EXT ≠ SCA ∧ EXT ≠ ASM ∧ EXT ≠ COL ∧ SCA ≠ ASM ∧ SCA ≠ COL ∧ ASM ≠ COL.
Proof. repeat split; discriminate. Qed.

Lemma in_optical : EXT ∈ optical ∧ SCA ∈ optical ∧ ASM ∈ optical ∧ COL ∈ optical.
Proof. unfold optical. repeat split; set_solver. Qed.

(** One contributing file (lines 95-103), field by field. *)
Lemma add_file_field ds acc acc' :
  add_file ds acc = Ok acc' →
  updates_optical acc acc'
  ∧ (∀ i, field acc' EXT i = match field acc EXT i, field ds EXT i with
                             | Some x, Some y => Some (x + y)
                             | _, _ => None
                             end)
  ∧ (∀ i, field acc' SCA i = match field acc SCA i, field ds SCA i with
                             | Some x, Some y => Some (x + y)
                             | _, _ => None
                             end)
  ∧ (∀ i, field acc' COL i = match field acc COL i, field ds COL i with
                             | Some x, Some y => Some (x + y)
                             | _, _ => None
                             end)
  ∧ (∀ i, field acc' ASM i
          = match field acc ASM i, field ds SCA i, field ds ASM i with
            | Some x, Some s, Some a => Some (x + s * a)
            | _, _, _ => None
            end).
Proof.
  destruct optical_distinct as (N1 & N2 & N3 & N4 & N5 & N6).
  destruct in_optical as (I1 & I2 & I3 & I4).
  unfold add_file. intros H.
  apply bind_Ok in H as (e & He & H). apply bind_Ok in H as (ev & Hev & H).
  apply bind_Ok in H as (d1 & H1 & H).
  apply bind_Ok in H as (s & Hs & H). apply bind_Ok in H as (sv & Hsv & H).
  apply bind_Ok in H as (d2 & H2 & H).
  apply bind_Ok in H as (c & Hc & H). apply bind_Ok in H as (cv & Hcv & H).
  apply bind_Ok in H as (d3 & H3 & H).
  apply bind_Ok in H as (s' & Hs' & H). apply bind_Ok in H as (sv' & Hsv' & H).
  apply bind_Ok in H as (a & Ha & H). apply bind_Ok in H as (av & Hav & H).
  destruct (decide (shape s' = shape a)); [|done].
  assert (Fe : ∀ i, field ds EXT i = ev !! i)
    by (apply get_values; rewrite He; exact Hev).
  assert (Fs : ∀ i, field ds SCA i = sv !! i)
    by (apply get_values; rewrite Hs; exact Hsv).
  assert (Fc : ∀ i, field ds COL i = cv !! i)
    by (apply get_values; rewrite Hc; exact Hcv).
  assert (Fs' : ∀ i, field ds SCA i = sv' !! i)
    by (apply get_values; rewrite Hs'; exact Hsv').
  assert (Fa : ∀ i, field ds ASM i = av !! i)
    by (apply get_values; rewrite Ha; exact Hav).
  apply add_var_field in H1 as (U1 & E1 & O1); [|done].
  apply add_var_field in H2 as (U2 & E2 & O2); [|done].
  apply add_var_field in H3 as (U3 & E3 & O3); [|done].
  apply add_var_field in H as (U4 & E4 & O4); [|done].
  split; [|split; [|split; [|split]]].
  - eauto using updates_optical_trans.
  - intros i. rewrite O4, O3, O2, E1, Fe by (done || by apply not_eq_sym). done.
  - intros i. rewrite O4, O3, E2, O1, Fs by (done || by apply not_eq_sym). done.
  - intros i. rewrite O4, E3, O2, O1, Fc by (done || by apply not_eq_sym). done.
  - intros i. rewrite E4, O3, O2, O1, Fs', Fa by (done || by apply not_eq_sym).
    rewrite lookup_zip_with.
    destruct (field acc ASM i); [|done].
    destruct (sv' !! i); simpl; [|done]. by destruct (av !! i).
Qed.


Lemma zero_var_field k d d' :
  zero_var k d = Ok d' → k ∈ optical →
  updates_optical d d'
  ∧ (∀ i x, field d' k i = Some x → x = 0)
  ∧ (∀ k' i, k ≠ k' → field d' k' i = field d k' i).
Proof.
  intros (a & Ha & ->)%zero_var_Ok Hk. split; [|split].
  - by eapply set_var_updates.
  - intros i x. rewrite field_set_var_eq. simpl. rewrite list_lookup_fmap.
    destruct (data a !! i); simpl; [|done]. by intros [= <-].
  - intros k' i Hne. by apply field_set_var_ne.
Qed.

Lemma finalize_field d d' :
  finalize d = Ok d' →
  updates_optical d d'
  ∧ (∀ i, field d' ASM i = match field d ASM i, field d SCA i with
                           | Some a, Some s => Some (finalize_cell a s)
                           | _, _ => None
                           end)
  ∧ (∀ k' i, ASM ≠ k' → field d' k' i = field d k' i).
Proof.
  destruct in_optical as (I1 & I2 & I3 & I4).
  unfold finalize. intros H.
  apply bind_Ok in H as (s & Hs & H). apply bind_Ok in H as (sv & Hsv & H).
  apply bind_Ok in H as (a & Ha & H). apply bind_Ok in H as (av & Hav & H).
  destruct (decide (shape s = shape a)); [|done]. injection H as <-.
  assert (Fs : ∀ i, field d SCA i = sv !! i)
    by (apply get_values; rewrite Hs; exact Hsv).
  assert (Fa : ∀ i, field d ASM i = av !! i)
    by (apply get_values; rewrite Ha; exact Hav).
  apply of_option_Ok in Ha.
  split; [|split].
  - by eapply set_var_updates.
  - intros i. rewrite field_set_var_eq, Fs, Fa. simpl. rewrite lookup_zip_with.
    destruct (av !! i); simpl; [|done]. by destruct (sv !! i).
  - intros k' i Hne. by apply field_set_var_ne.
Qed.

Section Accumulate.

(** An accumulated field [name] and what one file adds to it. *)
Variable name : string.
Variable contrib : dataset → nat → option Q.
Hypothesis step : ∀ ds acc acc', add_file ds acc = Ok acc' →
  ∀ i, field acc' name i = match field acc name i, contrib ds i with
                           | Some x, Some y => Some (x + y)
                           | _, _ => None
                           end.


End Accumulate.

Lemma add_files_updates dss : ∀ acc acc',
  add_files dss acc = Ok acc' → updates_optical acc acc'.
Proof.
  induction dss as [|ds dss IH]; intros acc acc' H; simpl in H.
  - injection H as <-. apply updates_optical_refl.
  - apply bind_Ok in H as (acc1 & H1 & H).
    eapply updates_optical_trans; [exact (proj1 (add_file_field _ _ _ H1))|by apply IH].
Qed.


Lemma field_term dss name i :
  Forall (λ ds, is_Some (field ds name i)) dss →
  (λ ds, default 0 (field ds name i)) <$> dss = (λ ds, term name ds i) <$> dss.
Proof. done. Qed.



Section Written.

Variable glob_match : string → string → bool.
Variable str_of_list : list string → string.

Abbreviation resolve := (resolve glob_match).
Abbreviation process_file := (process_file glob_match str_of_list).
Abbreviation init := (init str_of_list).

Lemma resolve_fs pattern species_list w w1 files :
  resolve pattern species_list w = (w1, Ok files) → fs w1 = fs w.
Proof.
  unfold ExternalMix.resolve. intros H.
  destruct (resolve_log glob_match pattern species_list [] w) as (e & f & E & _).
  rewrite E in H. by injection H as <- _.
Qed.

Lemma loop_contents files : ∀ acc w w' acc',
  foldM (λ acc filename, sbind (open_dataset filename) (λ ds, lift (add_file ds acc)))
        acc files w = (w', Ok acc') →
  ∃ dss, Forall2 (λ f d, fs w !! f = Some d) files dss
         ∧ add_files dss acc = Ok acc'
         ∧ fs w' = fs w.
Proof.
  induction files as [|f files IH]; intros acc w w' acc' H; simpl in H.
  - injection H as <- <-. exists []. by repeat split.
  - unfold sbind at 1 2, open_dataset at 1 in H.
    destruct (fs w !! f) as [d|] eqn:Ef; [|done].
    unfold lift at 1 in H. destruct (add_file d acc) as [acc1|] eqn:E1; [|done].
    apply IH in H as (dss & F & A & Hfs). simpl in *.
    exists (d :: dss). split; [by constructor|]. split; [|done].
    simpl. by rewrite E1.
Qed.

Lemma init_field now cwd files first ds0 :
  init now cwd files first = Ok ds0 →
  (∀ name i x, name ∈ optical → field ds0 name i = Some x → x = 0)
  ∧ (∀ name, name ∉ optical → variables ds0 !! name = variables first !! name)
  ∧ (∀ name, shape <$> variables ds0 !! name = shape <$> variables first !! name)
  ∧ attrs ds0
    = <["script_version" := path_join cwd "external_mix.py " ++ version]>
        (<["processing_datetime" := now]>
           (<["input_filename" := str_of_list files]> (attrs first))).
Proof.
  destruct optical_distinct as (N1 & N2 & N3 & N4 & N5 & N6).
  destruct in_optical as (I1 & I2 & I3 & I4).
  unfold ExternalMix.init. intros H.
  apply bind_Ok in H as (d1 & H1 & H). apply bind_Ok in H as (d2 & H2 & H).
  apply bind_Ok in H as (d3 & H3 & H).
  apply zero_var_field in H1 as ([O1 S1 A1] & Z1 & F1); [|done].
  apply zero_var_field in H2 as ([O2 S2 A2] & Z2 & F2); [|done].
  apply zero_var_field in H3 as ([O3 S3 A3] & Z3 & F3); [|done].
  apply zero_var_field in H as ([O4 S4 A4] & Z4 & F4); [|done].
  split; [|split; [|split]].
  - intros name i x Hn. unfold optical in Hn.
    apply elem_of_cons in Hn as [->|Hn]; [|apply elem_of_cons in Hn as [->|Hn];
      [|apply elem_of_cons in Hn as [->|Hn]; [|apply list_elem_of_singleton in Hn as ->]]].
    + rewrite F4, F3, F2 by (done || by apply not_eq_sym). apply Z1.
    + rewrite F4, F3 by (done || by apply not_eq_sym). apply Z2.
    + rewrite F4 by (done || by apply not_eq_sym). apply Z3.
    + apply Z4.
  - intros name Hn. by rewrite O4, O3, O2, O1.
  - intros name. by rewrite S4, S3, S2, S1.
  - by rewrite A4, A3, A2, A1.
Qed.

(** A successful run of [process_file] on a non-empty file set. *)
Lemma process_file_written now cwd pattern species_list w w' w1 f0 rest :
  process_file now cwd pattern species_list w = (w', Ok tt) →
  resolve pattern species_list w = (w1, Ok (f0 :: rest)) →
  ∃ d0 drest ds0 acc out,
    Forall2 (λ f d, fs w !! f = Some d) (f0 :: rest) (d0 :: drest)
    ∧ init now cwd (f0 :: rest) d0 = Ok ds0
    ∧ add_files (d0 :: drest) ds0 = Ok acc
    ∧ finalize acc = Ok out
    ∧ fs w' = <[Py.replace "*_" "AER_" pattern := out]> (fs w).
Proof.
  intros H Hres. pose proof (resolve_fs _ _ _ _ _ Hres) as Hfs1.
  unfold ExternalMix.process_file in H. unfold sbind at 1 in H. rewrite Hres in H.
  unfold sbind at 1, open_dataset at 1 in H.
  destruct (fs w1 !! f0) as [d0|] eqn:E0; [|done].
  unfold sbind at 1, lift at 1 in H.
  destruct (ExternalMix.init _ _ _ _ _) as [ds0|] eqn:Ei; [|done].
  unfold sbind at 1 in H.
  destruct (foldM _ _ _ _) as [w2 [acc|]] eqn:El; [|done].
  apply loop_contents in El as (dss & F & A & Hfs2). simpl in Hfs2.
  unfold sbind at 1, lift at 1 in H.
  destruct (finalize acc) as [out|] eqn:Ef; [|done].
  unfold to_netcdf in H. injection H as <-.
  inversion F as [|? d0' ? drest Hd0 Hrest]; subst. simpl in Hd0.
  rewrite E0 in Hd0. injection Hd0 as <-.
  exists d0, drest, ds0, acc, out.
  split.
  { constructor; [by rewrite <- Hfs1|].
    eapply Forall2_impl; [exact Hrest|]. intros f d Hf. simpl in Hf.
    by rewrite <- Hfs1. }
  repeat (split; [done|]). simpl. by rewrite Hfs2, Hfs1.
Qed.

End Written.


Section Aggregate.

Variable glob_match : string → string → bool.
Variable str_of_list : list string → string.

Abbreviation resolve := (resolve glob_match).
Abbreviation process_file := (process_file glob_match str_of_list).
Abbreviation init := (init str_of_list).



(** C10.  In the written aggregate every variable other than the four
    accumulated optical fields, every shape, and every attribute other than
    the three provenance attributes is the one of the first matched file;
    in particular [DELP] and the coordinates are the first contributor's. *)
Theorem first_file_frame (now cwd pattern : string) (species_list : list string)
    (w w' w1 : world) (f0 : string) (rest : list string) (first : dataset) :
  process_file now cwd pattern species_list w = (w', Ok tt) →
  resolve pattern species_list w = (w1, Ok (f0 :: rest)) →
  fs w !! f0 = Some first →
  ∃ out,
    fs w' !! Py.replace "*_" "AER_" pattern = Some out
    ∧ (∀ name, name ∉ optical → variables out !! name = variables first !! name)
    ∧ (∀ name, shape <$> variables out !! name = shape <$> variables first !! name)
    ∧ (∀ name, name ∉ provenance → attrs out !! name = attrs first !! name)
    ∧ variables out !! "DELP" = variables first !! "DELP"
    ∧ variables out !! "lat" = variables first !! "lat"
    ∧ variables out !! "lon" = variables first !! "lon"
    ∧ variables out !! "lev" = variables first !! "lev".
Proof.
  intros H Hres Hfirst.
  destruct (process_file_written _ _ _ _ _ _ _ _ _ _ _ H Hres)
    as (d0 & drest & ds0 & acc & out & F & Hi & Ha & Hf & Hfs).
  inversion F as [|? ? ? ? Hd0 _]; subst. simpl in Hd0.
  rewrite Hfirst in Hd0. injection Hd0 as <-.
  apply init_field in Hi as (_ & O0 & S0 & A0).
  apply add_files_updates in Ha as [O1 S1 A1].
  apply finalize_field in Hf as ([O2 S2 A2] & _).
  assert (Hother : ∀ name, name ∉ optical →
            variables out !! name = variables first !! name).
  { intros name Hn. by rewrite O2, O1, O0. }
  exists out. split; [by rewrite Hfs, lookup_insert_eq|].
  split; [done|]. split; [intros name; by rewrite S2, S1, S0|].
  split.
  - intros name Hn. rewrite A2, A1, A0. unfold provenance in Hn.
    rewrite !lookup_insert_ne; [done|..]; intros <-; apply Hn; set_solver.
  - repeat split; apply Hother; unfold optical, EXT, SCA, ASM, COL;
      rewrite !not_elem_of_cons; repeat split; (discriminate || apply not_elem_of_nil).
Qed.

End Aggregate.

Abbreviation demo_process :=
  (process_file demo_glob_match demo_str "2026/01/01_00:00:00" "/home/run"
     demo_pattern demo_species demo_world).
Abbreviation demo_resolve := (resolve demo_glob_match demo_pattern demo_species demo_world).



Lemma first_file_frame_witness :
  ∃ out,
    fs (fst demo_process) !! Py.replace "*_" "AER_" demo_pattern = Some out
    ∧ variables out !! "DELP" = variables (demo_dataset 0.1 0.05 0.5) !! "DELP"
    ∧ ∀ name, name ∉ provenance →
        attrs out !! name = attrs (demo_dataset 0.1 0.05 0.5) !! name.
Proof.
  assert (Hp : demo_process = (fst demo_process, Ok tt)) by (vm_compute; reflexivity).
  assert (Hr : demo_resolve = (fst demo_resolve, Ok demo_files)) by (vm_compute; reflexivity).
  assert (Hf : fs demo_world !! "d/GEOS.SO4_SW01.nc" = Some (demo_dataset 0.1 0.05 0.5))
    by (vm_compute; reflexivity).
  revert Hp Hr. generalize (fst demo_process) (fst demo_resolve). intros w' w1 Hp Hr.
  destruct (first_file_frame demo_glob_match demo_str
              "2026/01/01_00:00:00" "/home/run" demo_pattern demo_species
              demo_world w' w1 "d/GEOS.SO4_SW01.nc" ["d/GEOS.DU001_SW01.nc"]
              (demo_dataset 0.1 0.05 0.5) Hp Hr Hf)
    as (out & H1 & _ & _ & H4 & H5 & _).
  exists out. split; [exact H1|]. split; [exact H5|exact H4].
Defined.

Lemma skip_empty_unit_witness :
  process_file demo_glob_match demo_str "2026/01/01_00:00:00" "/home/run"
    empty_pattern demo_species demo_world
  = (log demo_world
       [WarnNoMatch "e/GEOS.SO4_SW01.nc"; WarnNoMatch "e/GEOS.SS001_SW01.nc";
        WarnNoMatch "e/GEOS.DU001_SW01.nc"; WarnSkip "e/GEOS.*_SW01.nc"],
     Ok tt).
Proof.
  apply (skip_empty_unit demo_glob_match demo_str
           "2026/01/01_00:00:00" "/home/run" empty_pattern demo_species demo_world).
  intros sp Hsp. unfold demo_species in Hsp.
  repeat (apply elem_of_cons in Hsp as [->|Hsp]; [split; vm_compute; reflexivity|]).
  by apply elem_of_nil in Hsp.
Defined.

End ExternalMixProofs.

(** ** external_mix.py: file resolution, effects and the aggregate *)

Module AggregatorProofs.

Import ExternalMix ExternalMixProofs.

Lemma ascii_compare_N (a b : ascii) :
  Ascii.compare a b = N.compare (N_of_ascii a) (N_of_ascii b).
Proof. reflexivity. Qed.

Lemma ascii_compare_refl a : Ascii.compare a a = Eq.
Proof. rewrite ascii_compare_N. apply N.compare_refl. Qed.

Lemma string_compare_refl s : String.compare s s = Eq.
Proof. induction s as [|c s IH]; simpl; [done|]. by rewrite ascii_compare_refl. Qed.

Lemma string_compare_lt_trans s1 : ∀ s2 s3,
  String.compare s1 s2 = Lt → String.compare s2 s3 = Lt → String.compare s1 s3 = Lt.
Proof.
  induction s1 as [|a s1 IH]; intros [|b s2] [|c s3]; simpl; try done.
  rewrite !ascii_compare_N.
  destruct (N.compare (N_of_ascii a) (N_of_ascii b)) eqn:E1; [| |done];
    (destruct (N.compare (N_of_ascii b) (N_of_ascii c)) eqn:E2; [| |done]);
    intros H1 H2.
  - apply N.compare_eq_iff in E1. apply N.compare_eq_iff in E2.
    rewrite E1, E2, N.compare_refl. by eapply IH.
  - apply N.compare_eq_iff in E1. by rewrite E1, E2.
  - apply N.compare_eq_iff in E2. by rewrite <- E2, E1.
  - apply N.compare_lt_iff in E1. apply N.compare_lt_iff in E2.
    assert (E : (N_of_ascii a ?= N_of_ascii c)%N = Lt)
      by (apply N.compare_lt_iff; by eapply N.lt_trans).
    by rewrite E.
Qed.

Lemma string_leb_ltb s1 s2 : String.leb s1 s2 = true → s1 ≠ s2 → String.ltb s1 s2 = true.
Proof.
  unfold String.leb, String.ltb. destruct (String.compare s1 s2) eqn:E; try done.
  apply String.compare_eq_iff in E. done.
Qed.

Lemma string_ltb_leb s1 s2 : String.ltb s1 s2 = true → String.leb s1 s2 = true.
Proof. unfold String.leb, String.ltb. by destruct (String.compare s1 s2). Qed.

Lemma string_ltb_trans s1 s2 s3 :
  String.ltb s1 s2 = true → String.ltb s2 s3 = true → String.ltb s1 s3 = true.
Proof.
  unfold String.ltb.
  destruct (String.compare s1 s2) eqn:E1; try done.
  destruct (String.compare s2 s3) eqn:E2; try done.
  by rewrite (string_compare_lt_trans _ _ _ E1 E2).
Qed.

Lemma string_ltb_irrefl s : String.ltb s s = false.
Proof. unfold String.ltb. by rewrite string_compare_refl. Qed.

Lemma string_leb_false_ltb s1 s2 : String.leb s1 s2 = false → String.ltb s2 s1 = true.
Proof.
  unfold String.leb, String.ltb. rewrite (String.compare_antisym s1 s2).
  by destruct (String.compare s2 s1).
Qed.

Lemma insert_sorted_Permutation x l : insert_sorted x l ≡ₚ x :: l.
Proof.
  induction l as [|y l IH]; simpl; [done|].
  destruct (String.leb x y); [done|]. rewrite IH. apply Permutation_swap.
Qed.

Lemma sorted_Permutation l : sorted l ≡ₚ l.
Proof.
  induction l as [|x l IH]; simpl; [done|].
  unfold sorted in *. simpl. rewrite insert_sorted_Permutation. by constructor.
Qed.

Lemma insert_sorted_ascending x l :
  ascending l → x ∉ l → ascending (insert_sorted x l).
Proof.
  unfold ascending. induction 1 as [|y l Hl IH Hy]; intros Hx; simpl.
  - repeat constructor.
  - apply not_elem_of_cons in Hx as [Hxy Hx].
    destruct (String.leb x y) eqn:E.
    + assert (Hlt : String.ltb x y = true) by by apply string_leb_ltb.
      constructor; [by constructor|]. constructor; [done|].
      eapply Forall_impl; [exact Hy|]. intros z Hz. simpl in Hz.
      by eapply string_ltb_trans.
    + constructor; [by apply IH|].
      rewrite insert_sorted_Permutation. constructor; [|done].
      by apply string_leb_false_ltb.
Qed.

Lemma sorted_ascending l : NoDup l → ascending (sorted l).
Proof.
  induction 1 as [|x l Hx Hl IH]; [constructor|].
  change (sorted (x :: l)) with (insert_sorted x (sorted l)).
  apply insert_sorted_ascending; [done|]. by rewrite sorted_Permutation.
Qed.

Lemma ascending_filter (P : string → Prop) `{∀ x, Decision (P x)} l :
  ascending l → ascending (filter P l).
Proof.
  unfold ascending. induction 1 as [|y l Hl IH Hy]; [constructor|].
  rewrite filter_cons. destruct (decide (P y)); [|done].
  constructor; [done|]. rewrite Forall_forall in *. intros z [_ Hz]%list_elem_of_filter. auto.
Qed.

Section Matches.
Variable glob_match : string → string → bool.

Lemma matches_in_elem files pattern p :
  p ∈ matches_in glob_match files pattern
  ↔ p ∈ dom files ∧ glob_match pattern p = true ∧ Py.contains "_AER_" p = false.
Proof.
  unfold matches_in, glob.
  rewrite list_elem_of_filter, sorted_Permutation, list_elem_of_filter, elem_of_elements.
  tauto.
Qed.

Lemma matches_in_ascending files pattern :
  ascending (matches_in glob_match files pattern).
Proof.
  unfold matches_in, glob. apply ascending_filter, sorted_ascending.
  apply NoDup_filter, NoDup_elements.
Qed.
End Matches.

Section Effects.

Variable glob_match : string → string → bool.
Variable str_of_list : list string → string.

Abbreviation resolve_species := (resolve_species glob_match).
Abbreviation resolve := (resolve glob_match).
Abbreviation matches_in := (matches_in glob_match).
Abbreviation species_files := (species_files glob_match).
Abbreviation process_file := (process_file glob_match str_of_list).

Lemma resolve_species_files pattern files species w :
  ∃ evs, resolve_species pattern files species w
         = (log w evs, Ok (files ++ species_files (fs w) pattern species)%list)
         ∧ Forall is_warning evs.
Proof.
  unfold ExternalMix.resolve_species, ExternalMix.species_files, sbind, matches.
  destruct (matches_in (fs w) (species_pattern pattern species)) as [|m ms] eqn:E1.
  - destruct (matches_in (fs w) (legacy_pattern (species_pattern pattern species)))
      as [|m ms] eqn:E2; simpl.
    + exists [WarnNoMatch (species_pattern pattern species)].
      rewrite app_nil_r. split; [done|]. by repeat constructor.
    + exists [WarnLegacy (legacy_pattern (species_pattern pattern species))].
      split; [done|]. by repeat constructor.
  - simpl. exists []. rewrite log_nil. split; [done|constructor].
Qed.

Lemma foldM_resolve_files pattern species_list : ∀ files w,
  ∃ evs, foldM (resolve_species pattern) files species_list w
         = (log w evs,
            Ok (files ++ mjoin (species_files (fs w) pattern <$> species_list))%list)
         ∧ Forall is_warning evs.
Proof.
  induction species_list as [|sp l IH]; intros files w.
  - exists []. simpl. unfold ret. rewrite log_nil, app_nil_r. split; [done|constructor].
  - simpl. unfold sbind.
    destruct (resolve_species_files pattern files sp w) as (e1 & -> & F1).
    destruct (IH (files ++ species_files (fs w) pattern sp)%list (log w e1)) as (e2 & -> & F2).
    exists (e1 ++ e2)%list. rewrite log_log, <- app_assoc.
    split; [done|]. by apply Forall_app.
Qed.

Lemma resolve_files pattern species_list w :
  ∃ evs, resolve pattern species_list w
         = (log w evs, Ok (mjoin (species_files (fs w) pattern <$> species_list)))
         ∧ Forall is_warning evs.
Proof. apply (foldM_resolve_files pattern species_list [] w). Qed.

Lemma species_files_elem files pattern sp p :
  p ∈ species_files files pattern sp →
  p ∈ dom files ∧ Py.contains "_AER_" p = false
  ∧ (glob_match (species_pattern pattern sp) p = true
     ∨ glob_match (legacy_pattern (species_pattern pattern sp)) p = true).
Proof.
  unfold ExternalMix.species_files.
  destruct (matches_in files (species_pattern pattern sp)) as [|m ms] eqn:E.
  - intros (? & ? & ?)%matches_in_elem. auto.
  - rewrite <- E. intros (? & ? & ?)%matches_in_elem. auto.
Qed.

Lemma species_files_ascending files pattern sp :
  ascending (species_files files pattern sp).
Proof.
  unfold ExternalMix.species_files.
  destruct (matches_in files (species_pattern pattern sp)) as [|m ms] eqn:E.
  - apply matches_in_ascending.
  - rewrite <- E. apply matches_in_ascending.
Qed.


Lemma bind_not_raise {A B} (r : result A) (f : A → result B) e :
  r ≠ Raise e → (∀ a, f a ≠ Raise e) → bind r f ≠ Raise e.
Proof. intros H1 H2. destruct r; simpl; [apply H2|]. intros [= ->]. by apply H1. Qed.

Lemma get_var_found d k : get_var d k ≠ Raise FileNotFoundError.
Proof. unfold get_var. by destruct (variables d !! k). Qed.
Lemma values_found a : values a ≠ Raise FileNotFoundError.
Proof. unfold values. by destruct (shape a). Qed.
Lemma zero_var_found k d : zero_var k d ≠ Raise FileNotFoundError.
Proof.
  unfold zero_var. apply bind_not_raise; [apply get_var_found|]. intros a.
  apply bind_not_raise; [apply values_found|]. done.
Qed.
Lemma add_var_found k sh rhs d : add_var k sh rhs d ≠ Raise FileNotFoundError.
Proof.
  unfold add_var. apply bind_not_raise; [apply get_var_found|]. intros a.
  apply bind_not_raise; [apply values_found|]. intros v. by destruct (decide _).
Qed.
Lemma add_file_found ds acc : add_file ds acc ≠ Raise FileNotFoundError.
Proof.
  unfold add_file.
  repeat (apply bind_not_raise;
          [apply get_var_found || apply values_found || apply add_var_found|]; intros ?).
  destruct (decide _); [apply add_var_found|done].
Qed.
Lemma init_found now cwd files first :
  init str_of_list now cwd files first ≠ Raise FileNotFoundError.
Proof.
  unfold init. repeat (apply bind_not_raise; [apply zero_var_found|]; intros ?).
  apply zero_var_found.
Qed.
Lemma finalize_found d : finalize d ≠ Raise FileNotFoundError.
Proof.
  unfold finalize.
  repeat (apply bind_not_raise; [apply get_var_found || apply values_found|]; intros ?).
  by destruct (decide _).
Qed.

(** The accumulation loop, whatever its outcome: it opens files of its
    list, in order, and changes nothing in the file system. *)
Lemma loop_effect files : ∀ acc w,
  (∀ p, p ∈ files → p ∈ dom (fs w)) →
  ∃ evs r,
    foldM (λ acc filename, sbind (open_dataset filename) (λ ds, lift (add_file ds acc)))
          acc files w = (log w evs, r)
    ∧ Forall (λ e, ∃ p, e = Opened p ∧ p ∈ files) evs
    ∧ r ≠ Raise FileNotFoundError.
Proof.
  induction files as [|f files IH]; intros acc w Hdom.
  - exists [], (Ok acc). simpl. unfold ret. rewrite log_nil. done.
  - simpl. unfold sbind at 1 2, open_dataset at 1.
    destruct (fs w !! f) as [d|] eqn:Ef.
    2: { exfalso. assert (Hf : f ∈ dom (fs w)) by (apply Hdom; left).
         apply elem_of_dom in Hf as [? ?]. congruence. }
    unfold lift at 1. destruct (add_file d acc) as [acc1|e] eqn:E1.
    + destruct (IH acc1 {| fs := fs w; trace := (trace w ++ [Opened f])%list |})
        as (evs & r & -> & F & N).
      { intros p Hp. simpl. apply Hdom. by right. }
      exists (Opened f :: evs), r. split; [|split; [|done]].
      * unfold log. simpl. by rewrite <- app_assoc.
      * constructor; [exists f; split; [done|left]|].
        eapply Forall_impl; [exact F|]. intros e (p & -> & Hp). exists p. split; [done|by right].
    + exists [Opened f], (Raise e). split; [done|]. split.
      * constructor; [|constructor]. exists f. split; [done|left].
      * rewrite <- E1. apply add_file_found.
Qed.

(** Every outcome of [process_file]. *)
Lemma process_file_effect now cwd pattern species_list w :
  ∃ evs_r evs_o,
    let files := mjoin (species_files (fs w) pattern <$> species_list) in
    resolve pattern species_list w = (log w evs_r, Ok files)
    ∧ Forall is_warning evs_r
    ∧ Forall (λ e, ∃ p, e = Opened p ∧ p ∈ files) evs_o
    ∧ ((files = []
        ∧ process_file now cwd pattern species_list w
          = (log w (evs_r ++ [WarnSkip pattern]), Ok tt))
       ∨ (∃ e, e ≠ FileNotFoundError
               ∧ process_file now cwd pattern species_list w
                 = (log w (evs_r ++ evs_o), Raise e))
       ∨ (∃ out, files ≠ []
                 ∧ process_file now cwd pattern species_list w
                   = ({| fs := <[Py.replace "*_" "AER_" pattern := out]> (fs w);
                         trace := (trace w ++ evs_r ++ evs_o
                                   ++ [Wrote (Py.replace "*_" "AER_" pattern)])%list |},
                      Ok tt))).
Proof.
  destruct (resolve_files pattern species_list w) as (evs_r & Hres & Fr).
  cbv zeta.
  set (files := mjoin (species_files (fs w) pattern <$> species_list)) in *.
  assert (Hdom : ∀ p, p ∈ files → p ∈ dom (fs w)).
  { intros p Hp. unfold files in Hp. apply list_elem_of_join in Hp as (l & Hp & Hl).
    apply list_elem_of_fmap in Hl as (sp & -> & _).
    by apply species_files_elem in Hp as (? & _). }
  remember (process_file now cwd pattern species_list w) as R eqn:HR.
  unfold ExternalMix.process_file in HR. unfold sbind at 1 in HR. rewrite Hres in HR.
  clearbody files. destruct files as [|f0 rest].
  - exists evs_r, []. split; [done|]. split; [done|]. split; [constructor|].
    left. split; [done|]. subst R. unfold emit, log. simpl. by rewrite app_assoc.
  - unfold sbind at 1, open_dataset at 1 in HR. simpl fs in HR.
    destruct (fs w !! f0) as [d0|] eqn:E0.
    2: { exfalso. assert (Hf : f0 ∈ dom (fs w)) by (apply Hdom; left).
         apply elem_of_dom in Hf as [? ?]. congruence. }
    assert (H0 : ∃ p, Opened f0 = Opened p ∧ p ∈ f0 :: rest)
      by (exists f0; split; [done|left]).
    unfold sbind at 1, lift at 1 in HR.
    destruct (ExternalMix.init _ _ _ _ _) as [ds0|e] eqn:Ei.
    2: { exists evs_r, [Opened f0]. split; [done|]. split; [done|]. split.
         { by repeat constructor. }
         right. left. exists e. split; [intros ->; by eapply init_found|].
         subst R. unfold log. simpl. by rewrite <- ?app_assoc. }
    unfold sbind at 1 in HR.
    match type of HR with context [foldM _ ds0 _ ?W] =>
      destruct (loop_effect (f0 :: rest) ds0 W) as (evs & r & Hloop & F & N); [done|]
    end.
    rewrite Hloop in HR.
    destruct r as [acc|e].
    2: { exists evs_r, (Opened f0 :: evs). split; [done|]. split; [done|]. split.
         { by constructor. }
         right. left. exists e. split; [by intros ->|].
         subst R. unfold log. simpl. by rewrite <- ?app_assoc. }
    unfold sbind at 1, lift at 1 in HR.
    destruct (finalize acc) as [out|e] eqn:Ef.
    2: { exists evs_r, (Opened f0 :: evs). split; [done|]. split; [done|]. split.
         { by constructor. }
         right. left. exists e. split; [intros ->; by eapply finalize_found|].
         subst R. unfold log. simpl. by rewrite <- ?app_assoc. }
    exists evs_r, (Opened f0 :: evs). split; [done|]. split; [done|]. split.
    { by constructor. }
    right. right. exists out. split; [done|].
    subst R. unfold to_netcdf, log. simpl. by rewrite <- ?app_assoc.
Qed.

End Effects.




Section Runs.

Variable glob_match : string → string → bool.
Variable str_of_list : list string → string.

Abbreviation resolve := (resolve glob_match).
Abbreviation species_files := (species_files glob_match).
Abbreviation process_file := (process_file glob_match str_of_list).
Abbreviation main := (main glob_match str_of_list).

(** The file system after [process_file], whatever the outcome. *)
Lemma process_file_fs now cwd pattern species_list w :
  (fs (process_file now cwd pattern species_list w).1 = fs w
   ∧ ∃ evs, (trace (process_file now cwd pattern species_list w).1
             = trace w ++ evs)%list
            ∧ ∀ p, Wrote p ∉ evs)
  ∨ ((process_file now cwd pattern species_list w).2 = Ok tt
     ∧ ∃ out evs,
         fs (process_file now cwd pattern species_list w).1
         = <[Py.replace "*_" "AER_" pattern := out]> (fs w)
         ∧ (trace (process_file now cwd pattern species_list w).1
            = trace w ++ evs ++ [Wrote (Py.replace "*_" "AER_" pattern)])%list
         ∧ ∀ p, Wrote p ∉ evs).
Proof.
  destruct (process_file_effect glob_match str_of_list now cwd pattern species_list w)
    as (evs_r & evs_o & _ & Fr & Fo & H). cbv zeta in Fo, H.
  assert (Hr : ∀ p, Wrote p ∉ evs_r).
  { intros p Hp. rewrite Forall_forall in Fr. by apply Fr in Hp. }
  assert (Ho : ∀ p, Wrote p ∉ evs_o).
  { intros p Hp. rewrite Forall_forall in Fo. by apply Fo in Hp as (q & ? & _). }
  destruct H as [[_ ->]|[(e & _ & ->)|(out & _ & ->)]]; simpl.
  - left. split; [done|]. eexists. split; [done|]. intros p.
    rewrite elem_of_app, list_elem_of_singleton. intros [?|?]; [by eapply Hr|done].
  - left. split; [done|]. eexists. split; [done|]. intros p.
    rewrite elem_of_app. intros [?|?]; [by eapply Hr|by eapply Ho].
  - right. split; [done|]. exists out, (evs_r ++ evs_o)%list.
    split; [done|]. split; [by rewrite <- app_assoc|]. intros p.
    rewrite elem_of_app. intros [?|?]; [by eapply Hr|by eapply Ho].
Qed.

(** X1.  Whatever its outcome, [process_file] leaves every path other than
    its output path [pattern.replace('*_', 'AER_')] as it was; when it
    raises, the file system is unchanged altogether; and the only file it
    ever writes is the output, once, as its last action and only when it
    returns normally. *)
Theorem writes_output_only (now cwd pattern : string) (species_list : list string)
    (w : world) :
  let run := process_file now cwd pattern species_list w in
  let out_path := Py.replace "*_" "AER_" pattern in
  (∀ p, p ≠ out_path → fs run.1 !! p = fs w !! p)
  ∧ (∀ e, run.2 = Raise e → fs run.1 = fs w)
  ∧ ∃ evs, trace run.1 = (trace w ++ evs)%list
           ∧ ∀ p, Wrote p ∈ evs →
               p = out_path ∧ run.2 = Ok tt ∧ ∃ evs', evs = (evs' ++ [Wrote p])%list
                                                      ∧ Wrote p ∉ evs'.
Proof.
  intros run out_path. subst run out_path.
  destruct (process_file_fs now cwd pattern species_list w)
    as [(Hfs & evs & Htr & Hw)|(Hok & out & evs & Hfs & Htr & Hw)].
  - split; [intros p _; by rewrite Hfs|]. split; [done|].
    exists evs. split; [done|]. intros p Hp. by apply Hw in Hp.
  - split; [intros p Hp; by rewrite Hfs, lookup_insert_ne|].
    split; [intros e He; by rewrite Hok in He|].
    eexists. split; [exact Htr|]. intros p.
    rewrite elem_of_app, list_elem_of_singleton. intros [Hp|[= ->]]; [by apply Hw in Hp|].
    split; [done|]. split; [done|]. by exists evs.
Qed.


(** X2.  [process_file] opens only files that exist, whose path does not
    contain [_AER_] and that match the pattern of a species of the list,
    on the primary or on the legacy path; it never fails for a missing
    file. *)
Theorem opens_matched_only (now cwd pattern : string) (species_list : list string)
    (w : world) :
  let run := process_file now cwd pattern species_list w in
  (∃ evs, trace run.1 = (trace w ++ evs)%list
          ∧ ∀ p, Opened p ∈ evs →
              p ∈ dom (fs w)
              ∧ Py.contains "_AER_" p = false
              ∧ ∃ sp, sp ∈ species_list
                      ∧ (glob_match (species_pattern pattern sp) p = true
                         ∨ glob_match (legacy_pattern (species_pattern pattern sp)) p
                           = true))
  ∧ run.2 ≠ Raise FileNotFoundError.
Proof.
  intros run. subst run.
  destruct (process_file_effect glob_match str_of_list now cwd pattern species_list w)
    as (evs_r & evs_o & _ & Fr & Fo & H). cbv zeta in Fo, H.
  assert (Hopen : ∀ p, Opened p ∈ (evs_r ++ evs_o)%list →
            p ∈ dom (fs w) ∧ Py.contains "_AER_" p = false
            ∧ ∃ sp, sp ∈ species_list
                    ∧ (glob_match (species_pattern pattern sp) p = true
                       ∨ glob_match (legacy_pattern (species_pattern pattern sp)) p = true)).
  { intros p. rewrite elem_of_app. intros [Hp|Hp].
    - rewrite Forall_forall in Fr. by apply Fr in Hp.
    - rewrite Forall_forall in Fo. apply Fo in Hp as (q & [= <-] & Hq).
      apply list_elem_of_join in Hq as (l & Hq & Hl).
      apply list_elem_of_fmap in Hl as (sp & -> & Hsp).
      apply species_files_elem in Hq as (? & ? & ?). eauto. }
  destruct H as [[_ ->]|[(e & He & ->)|(out & _ & ->)]]; simpl.
  - split; [|done]. eexists. split; [done|]. intros p.
    rewrite elem_of_app, list_elem_of_singleton. intros [Hp|?]; [|done].
    apply Hopen, elem_of_app. by left.
  - split; [|by intros [= ->]]. eexists. split; [done|]. done.
  - split; [|done]. exists ((evs_r ++ evs_o) ++ [Wrote (Py.replace "*_" "AER_" pattern)])%list.
    split; [by rewrite <- !app_assoc|]. intros p.
    rewrite elem_of_app, list_elem_of_singleton. intros [Hp|?]; [by apply Hopen|done].
Qed.

(** X3.  The resolved file list is the concatenation, in the order of the
    species list, of the files of each species; the files of a species are
    in strictly ascending order, and they are the existing paths without
    [_AER_] that match its pattern, or, when no such path exists, those
    that match its legacy pattern.  Resolving writes warnings only. *)
Theorem resolve_order (pattern : string) (species_list : list string) (w : world) :
  let matching (pat p : string) :=
    p ∈ dom (fs w) ∧ glob_match pat p = true ∧ Py.contains "_AER_" p = false in
  (∃ evs, resolve pattern species_list w
          = (log w evs, Ok (mjoin (species_files (fs w) pattern <$> species_list)))
          ∧ Forall is_warning evs)
  ∧ ∀ sp,
      ascending (species_files (fs w) pattern sp)
      ∧ ∀ p, p ∈ species_files (fs w) pattern sp
             ↔ matching (species_pattern pattern sp) p
               ∨ ((∀ q, ¬ matching (species_pattern pattern sp) q)
                  ∧ matching (legacy_pattern (species_pattern pattern sp)) p).
Proof.
  intros matching. split; [apply resolve_files|]. intros sp.
  split; [apply species_files_ascending|]. intros p. subst matching. cbv beta.
  unfold ExternalMix.species_files.
  destruct (matches_in glob_match (fs w) (species_pattern pattern sp)) as [|m ms] eqn:E.
  - rewrite matches_in_elem. split.
    + intros H. right. split; [|done]. intros q Hq%matches_in_elem.
      rewrite E in Hq. by apply elem_of_nil in Hq.
    + intros [H%matches_in_elem|[_ H]]; [|done]. rewrite E in H. by apply elem_of_nil in H.
  - rewrite <- E, matches_in_elem. split; [by left|].
    intros [H|[H _]]; [done|]. exfalso. apply (H m), matches_in_elem. rewrite E. left.
Qed.






(** X7.  A whole run changes the file system at the output paths of its
    dates only: every other path holds after the run what it held before,
    whether the run ends normally or with an exception. *)
Theorem run_writes_outputs_only (fill_date_hour_template : string → string → string)
    (now cwd datadir file_pattern band : string) (species dates : list string)
    (w : world) (p : string) :
  (∀ date_str, date_str ∈ dates →
     p ≠ Py.replace "*_" "AER_"
           (unit_pattern fill_date_hour_template datadir file_pattern band date_str)) →
  fs (main fill_date_hour_template now cwd datadir file_pattern band species dates w).1 !! p
  = fs w !! p.
Proof.
  revert w. induction dates as [|d dates IH]; intros w Hp; [done|].
  unfold ExternalMix.main. simpl. unfold sbind at 1.
  set (pat := unit_pattern fill_date_hour_template datadir file_pattern band d).
  assert (Hframe : fs (process_file now cwd pat species w).1 !! p = fs w !! p).
  { destruct (process_file_fs now cwd pat species w)
      as [(Hfs & _)|(_ & out & evs & Hfs & _)]; rewrite Hfs; [done|].
    apply lookup_insert_ne. apply not_eq_sym, Hp. left. }
  destruct (process_file now cwd pat species w) as [w1 [[]|e]]; simpl in *; [|done].
  rewrite <- Hframe. apply IH. intros d' Hd'. apply Hp. by right.
Qed.

End Runs.




Lemma run_writes_outputs_only_witness :
  fs (main demo_glob_match demo_str demo_fill "2026/01/01_00:00:00" "/home/run"
        "d" "GEOS.*_band.nc" "sw01" demo_species ["2010-01-Jan-01-001-00"]
        demo_world).1 !! "d/GEOS.SO4_SW01.nc"
  = fs demo_world !! "d/GEOS.SO4_SW01.nc".
Proof.
  apply (run_writes_outputs_only demo_glob_match demo_str demo_fill
           "2026/01/01_00:00:00" "/home/run" "d" "GEOS.*_band.nc" "sw01" demo_species
           ["2010-01-Jan-01-001-00"] demo_world "d/GEOS.SO4_SW01.nc").
  intros date_str ->%list_elem_of_singleton. vm_compute. discriminate.
Defined.

(** *** Runs that cannot fail *)











Section Total.

Variable glob_match : string → string → bool.
Variable str_of_list : list string → string.


End Total.



End AggregatorProofs.

(** ** species_optics.py: species labels, radius bins and band labels *)

Module ConverterProofs.

Import SpeciesOptics SpeciesOpticsProofs.

(** *** Species names and radius bins *)

Lemma species_map_Ok s sp :
  species_map s = Ok sp →
  (s, sp) ∈ [("SU", "SO4"); ("OCPHO", "OCPHOBIC"); ("OCPHI", "OCPHILIC");
             ("BCPHO", "BCPHOBIC"); ("BCPHI", "BCPHILIC"); ("SS", "SS"); ("DU", "DU");
             ("NI", "NO3AN")].
Proof.
  unfold species_map.
  repeat match goal with
         | |- context [String.eqb s ?k] =>
             destruct (String.eqb_spec s k) as [->|?];
             [intros [= <-]; rewrite !elem_of_cons; tauto|]
         end.
  done.
Qed.

Lemma format_0d_int_check :
  forallb (λ n, match Py.int (Py.format_0d 3 n) with
                | Ok z => (z =? Z.of_nat n)%Z
                | Raise _ => false
                end) (seq 0 1000) = true.
Proof. vm_compute. reflexivity. Qed.

Lemma format_0d_int n : (n < 1000)%nat → Py.int (Py.format_0d 3 n) = Ok (Z.of_nat n).
Proof.
  intros Hn. pose proof format_0d_int_check as H.
  rewrite forallb_forall in H. specialize (H n).
  destruct (Py.int (Py.format_0d 3 n)) as [z|e].
  - f_equal. apply Z.eqb_eq, H, in_seq. lia.
  - discriminate H. apply in_seq. lia.
Qed.

(** X8.  For sea salt and dust the converter reads the variable named
    species + size_bin and takes [int(size_bin) - 1] as radius index; a
    size bin written [f'{m:03d}'] parses to [m].  On a table with [nr]
    radius planes a bin number in [1, nr] selects plane [n - 1], the bin
    number 0 selects the last plane (the index -1 counts from the end), and
    a bin number above [nr] makes the gather of every cell raise
    [IndexError]. *)
Theorem radius_bin_bounds (values : list (list (list Q))) (species size_bin : string)
    (n : Z) :
  species = "SS" ∨ species = "DU" →
  Py.int size_bin = Ok n →
  select_species species size_bin = Ok (species ++ size_bin, (n - 1)%Z)
  ∧ (∀ m, (m < 1000)%nat → size_bin = Py.format_0d 3 m → n = Z.of_nat m)
  ∧ (∀ plane, (1 ≤ n)%Z → values !! Z.to_nat (n - 1) = Some plane →
       ∀ i w, gather_cell values (n - 1) i w = gather_cell [plane] 0 i w)
  ∧ (∀ plane, n = 0%Z → last values = Some plane →
       ∀ i w, gather_cell values (n - 1) i w = gather_cell [plane] 0 i w)
  ∧ ((Z.of_nat (length values) < n)%Z →
       ∀ i w, gather_cell values (n - 1) i w = Raise IndexError).
Proof.
  intros Hsp Hint. split; [|split; [|split; [|split]]].
  - unfold select_species. rewrite Hint. by destruct Hsp as [-> | ->].
  - intros m Hm ->. rewrite format_0d_int in Hint by done. by injection Hint as <-.
  - intros plane Hn Hp i w. unfold gather_cell.
    rewrite (get_nonneg values (n - 1) plane) by (lia || done). done.
  - intros plane -> Hp i w. unfold gather_cell.
    rewrite last_lookup in Hp.
    assert (length values ≠ 0)%nat by (intros E; rewrite E in Hp; by destruct values).
    rewrite (get_neg values (0 - 1) plane); [done|lia|].
    replace (Z.to_nat (Z.of_nat (length values) + (0 - 1))) with (pred (length values)) by lia.
    done.
  - intros Hn i w. unfold gather_cell. rewrite get_out by lia. done.
Qed.

Lemma radius_bin_bounds_witness :
  select_species "SS" "003" = Ok ("SS003", 2%Z)
  ∧ gather_cell [[[1]]; [[2]]; [[3]]] (3 - 1) 0 0 = gather_cell [[[3]]] 0 0 0
  ∧ gather_cell [[[1]]; [[2]]; [[3]]] (4 - 1) 0 0 = Raise IndexError.
Proof.
  destruct (radius_bin_bounds [[[1]]; [[2]]; [[3]]] "SS" "003" 3 (or_introl eq_refl) eq_refl)
    as (H1 & _ & H3 & _ & _).
  destruct (radius_bin_bounds [[[1]]; [[2]]; [[3]]] "SS" "004" 4 (or_introl eq_refl) eq_refl)
    as (_ & _ & _ & _ & H5).
  split; [exact H1|]. split.
  - apply (H3 [[3]]); [lia|reflexivity].
  - apply H5. simpl. lia.
Defined.

(** X9.  The labels under which the converter writes its files are the
    species the aggregator sums by default: for every key of [species_map]
    and every size bin [f'{n:03d}'] with [n] in 1..5 the converter's label
    is an entry of [ALL_SPECIES], it is its own alias, and for the species
    without size bins it is the aggregator's alias of the key; conversely
    every entry of [ALL_SPECIES] is the label of some key and bin. *)
Theorem species_labels_agree :
  (∀ s sp n name idx,
     species_map s = Ok sp → (1 ≤ n ≤ 5)%nat →
     select_species sp (Py.format_0d 3 n) = Ok (name, idx) →
     name ∈ ExternalMix.ALL_SPECIES
     ∧ ExternalMix.species_alias name = name
     ∧ (sp ≠ "SS" → sp ≠ "DU" → name = ExternalMix.species_alias s ∧ idx = 0%Z)
     ∧ (sp = "SS" ∨ sp = "DU" →
        name = sp ++ Py.format_0d 3 n ∧ idx = (Z.of_nat n - 1)%Z))
  ∧ (∀ name, name ∈ ExternalMix.ALL_SPECIES →
       ∃ s sp n idx, species_map s = Ok sp ∧ (1 ≤ n ≤ 5)%nat
                     ∧ select_species sp (Py.format_0d 3 n) = Ok (name, idx)).
Proof.
  split.
  - intros s sp n name idx Hs Hn Hsel.
    assert (Hn' : n ∈ seq 1 5) by (apply elem_of_seq; lia).
    apply species_map_Ok in Hs.
    change (seq 1 5) with [1; 2; 3; 4; 5]%nat in Hn'.
    rewrite !elem_of_cons in Hs. rewrite !elem_of_cons in Hn'.
    destruct Hs as [[= -> ->]|[[= -> ->]|[[= -> ->]|[[= -> ->]|[[= -> ->]|[[= -> ->]|
                    [[= -> ->]|[[= -> ->]|Hs]]]]]]]]; [..|by apply elem_of_nil in Hs];
    destruct Hn' as [->|[->|[->|[->|[->|Hn']]]]]; try (by apply elem_of_nil in Hn');
    vm_compute in Hsel; injection Hsel as <- <-;
    (split; [let l := eval vm_compute in ExternalMix.ALL_SPECIES in
             change ExternalMix.ALL_SPECIES with l; rewrite !elem_of_cons; tauto|]);
    (split; [reflexivity|]);
    (split; [intros; (done || (split; reflexivity))|]);
    intros [E|E]; (discriminate E || (split; reflexivity)).
  - intros name Hname.
    let l := eval vm_compute in ExternalMix.ALL_SPECIES in
    change ExternalMix.ALL_SPECIES with l in Hname.
    rewrite !elem_of_cons in Hname.
    destruct Hname as [->|[->|[->|[->|[->|[->|[->|[->|[->|[->|[->|[->|[->|[->|[->|[->|H]]]]]]]]]]]]]]]];
      [..|by apply elem_of_nil in H].
    + exists "SU", "SO4", 1%nat, 0%Z. repeat split; lia.
    + exists "OCPHO", "OCPHOBIC", 1%nat, 0%Z. repeat split; lia.
    + exists "OCPHI", "OCPHILIC", 1%nat, 0%Z. repeat split; lia.
    + exists "BCPHO", "BCPHOBIC", 1%nat, 0%Z. repeat split; lia.
    + exists "BCPHI", "BCPHILIC", 1%nat, 0%Z. repeat split; lia.
    + exists "NI", "NO3AN", 1%nat, 0%Z. repeat split; lia.
    + exists "SS", "SS", 1%nat, 0%Z. repeat split; lia.
    + exists "SS", "SS", 2%nat, 1%Z. repeat split; lia.
    + exists "SS", "SS", 3%nat, 2%Z. repeat split; lia.
    + exists "SS", "SS", 4%nat, 3%Z. repeat split; lia.
    + exists "SS", "SS", 5%nat, 4%Z. repeat split; lia.
    + exists "DU", "DU", 1%nat, 0%Z. repeat split; lia.
    + exists "DU", "DU", 2%nat, 1%Z. repeat split; lia.
    + exists "DU", "DU", 3%nat, 2%Z. repeat split; lia.
    + exists "DU", "DU", 4%nat, 3%Z. repeat split; lia.
    + exists "DU", "DU", 5%nat, 4%Z. repeat split; lia.
Qed.

(** *** Band labels *)

Lemma of_option_Raise {A} e e' (o : option A) : of_option e o = Raise e' → e' = e.
Proof. destruct o; simpl; congruence. Qed.

Lemma int_raises s e : Py.int s = Raise e → e = ValueError.
Proof. unfold Py.int. apply of_option_Raise. Qed.

Lemma band_bounds_out tbl n :
  (Z.of_nat (length tbl) ≤ n ∨ n ≤ - Z.of_nat (length tbl))%Z →
  band_bounds tbl n = Raise IndexError.
Proof.
  intros Hn. unfold band_bounds.
  destruct (decide (Z.of_nat (length tbl) ≤ n ∨ n < - Z.of_nat (length tbl))%Z) as [Ho|Hi].
  - rewrite get_out by lia. done.
  - destruct (lookup_lt_is_Some_2 tbl 0) as [x Hx]; [lia|].
    rewrite (get_neg tbl n x); [|lia|].
    + cbn [bind]. rewrite get_out by lia. done.
    + replace (Z.to_nat (Z.of_nat (length tbl) + n)) with 0%nat by lia. done.
Qed.

(** X10.  Errors and edges of the band selector.  A label whose
    characters 2..3 are not an integer raises [ValueError]; a label that
    contains neither [sw] nor [lw] (an upper-case label, say) raises
    [NameError]; with one category marker, a band index at or beyond the
    length of the category's table raises [IndexError]; and the band index
    0 is accepted: its upper bound is the first entry of the table and its
    lower bound the last one, read from the end. *)
Theorem band_label_errors (band : string) (ds_bands : bands) (o : optics) :
  (∀ e, Py.int (Py.slice 2 4 band) = Raise e →
     select_band band ds_bands o = Raise ValueError)
  ∧ (∀ n, Py.int (Py.slice 2 4 band) = Ok n →
       Py.contains "sw" band = false → Py.contains "lw" band = false →
       select_band band ds_bands o = Raise NameError)
  ∧ (∀ n, Py.int (Py.slice 2 4 band) = Ok n →
       Py.contains "sw" band ≠ Py.contains "lw" band →
       (Z.of_nat (length (band_table band ds_bands)) ≤ n)%Z →
       select_band band ds_bands o = Raise IndexError)
  ∧ (∀ lo hi, Py.int (Py.slice 2 4 band) = Ok 0%Z →
       Py.contains "sw" band ≠ Py.contains "lw" band →
       band_table band ds_bands !! 0%nat = Some hi →
       last (band_table band ds_bands) = Some lo →
       lambda o ≠ [] →
       ∃ idx, select_band band ds_bands o = Ok (lo, hi, idx)).
Proof.
  split; [|split; [|split]].
  - intros e He. unfold select_band. rewrite He. cbn [bind].
    by rewrite (int_raises _ _ He).
  - intros n Hn Hsw Hlw. unfold select_band. rewrite Hn, Hsw, Hlw. done.
  - intros n Hn Hcat Hlen. unfold select_band, band_table in *. rewrite Hn. cbn [bind].
    destruct (Py.contains "lw" band), (Py.contains "sw" band); try done.
    + cbn [bind]. rewrite band_bounds_out by lia. done.
    + rewrite band_bounds_out by lia. done.
  - intros lo hi Hn Hcat Hhi Hlo Hne. unfold select_band. rewrite Hn. cbn [bind].
    rewrite last_lookup in Hlo.
    assert (Hlen : length (band_table band ds_bands) ≠ 0%nat)
      by (intros E; by rewrite (nil_length_inv _ E) in Hhi).
    assert (Hb : band_bounds (band_table band ds_bands) 0 = Ok (lo, hi)).
    { unfold band_bounds. rewrite (get_nonneg _ 0 hi) by (lia || done). cbn [bind].
      rewrite (get_neg _ (0 - 1) lo); [done|lia|].
      replace (Z.to_nat (Z.of_nat (length (band_table band ds_bands)) + (0 - 1)))
        with (pred (length (band_table band ds_bands))) by lia.
      done. }
    destruct (argmin_total ((λ w, Qabs (w - 0.5 * (hi + lo))) <$> wvls o)) as [k Hk].
    { unfold wvls. by destruct (lambda o). }
    exists k. unfold band_table in *.
    destruct (Py.contains "lw" band), (Py.contains "sw" band); try done.
    + cbn [bind]. rewrite Hb. cbn [bind of_option]. by rewrite Hk.
    + rewrite Hb. cbn [bind of_option]. by rewrite Hk.
Qed.

Lemma band_label_errors_witness :
  select_band "swxx" demo_bands demo_optics = Raise ValueError
  ∧ select_band "SW01" demo_bands demo_optics = Raise NameError
  ∧ select_band "sw03" demo_bands demo_optics = Raise IndexError
  ∧ ∃ idx, select_band "sw00" demo_bands demo_optics = Ok (1.3, 0.2, idx).
Proof.
  split; [|split; [|split]].
  - apply (proj1 (band_label_errors "swxx" demo_bands demo_optics) ValueError). reflexivity.
  - apply (proj1 (proj2 (band_label_errors "SW01" demo_bands demo_optics)) 1%Z);
      reflexivity.
  - apply (proj1 (proj2 (proj2 (band_label_errors "sw03" demo_bands demo_optics))) 3%Z);
      [reflexivity|discriminate|simpl; lia].
  - apply (proj2 (proj2 (proj2 (band_label_errors "sw00" demo_bands demo_optics))));
      [reflexivity|discriminate|reflexivity|reflexivity|discriminate].
Defined.

End ConverterProofs.

(** ** species_optics.py: grids on which a time step succeeds *)

Module ConverterGridProofs.

Import SpeciesOptics SpeciesOpticsProofs.



















Lemma check_coord_Ok a b u : check_coord a b = Ok u → a = b.
Proof. unfold check_coord. by destruct (Nat.eqb_spec a b). Qed.

(** What a successful time step has checked and stored besides the
    fields of [step_facts]. *)
Lemma time_step_sub o species idx_size idx_wvl ds nat sub :
  time_step o species idx_size idx_wvl ds = Ok (nat, sub) →
  ∃ e_pre,
    subsample_sum (nlev ds) (nlat ds) (nlon ds) (da_tau_ext nat) = Ok e_pre
    ∧ tau_ext_sub sub = clip_ext e_pre
    ∧ tau_ext_sub_column sub
      = Np.sum_axis0 (nlat ds / 2) (nlon ds / 2) (tau_ext_sub sub)
    ∧ lat_sub sub
      = zip_with half_sum
          (Np.upto_last_step2 (zip_with half_sum (Np.upto_last (lat ds)) (Np.from1 (lat ds))))
          (Np.from1_step2 (zip_with half_sum (Np.upto_last (lat ds)) (Np.from1 (lat ds))))
    ∧ lon_sub sub = Np.step2 (lon ds)
    ∧ length (lat_sub sub) = (nlat ds / 2)%nat
    ∧ length (lon_sub sub) = (nlon ds / 2)%nat
    ∧ (nlat ds / 2 < length (lat ds))%nat.
Proof.
  unfold time_step. cbv zeta. intros H.
  do 20 inv_bind H.
  injection H as <- <-.
  cbn [da_tau_ext tau_ext_sub tau_ext_sub_column lat_sub lon_sub].
  repeat match goal with
         | H : check_coord _ _ = Ok _ |- _ => apply check_coord_Ok in H
         | H : Np.index _ _ = Ok _ |- _ => apply index_Ok in H as [[? ?]|[? ?]]; [|lia]
         end.
  eexists. repeat (split; [done|]). lia.
Qed.

Lemma lat_sub_length_any (lat : list Q) :
  length (zip_with half_sum
            (Np.upto_last_step2 (zip_with half_sum (Np.upto_last lat) (Np.from1 lat)))
            (Np.from1_step2 (zip_with half_sum (Np.upto_last lat) (Np.from1 lat))))
  = ((length lat - 1 - 1 + 1) / 2)%nat.
Proof.
  set (m := zip_with half_sum (Np.upto_last lat) (Np.from1 lat)).
  assert (Hm : length m = (length lat - 1)%nat).
  { unfold m, Np.upto_last, Np.from1. rewrite length_zip_with, removelast_length, length_tl. lia. }
  unfold Np.upto_last_step2, Np.from1_step2, Np.upto_last, Np.from1.
  rewrite length_zip_with, !step2_length, removelast_length, length_tl, Hm. lia.
Qed.

(** X12.  On a file whose coordinates have the lengths of the grid, a
    time step can only succeed when the number of latitudes is odd and the
    number of longitudes is even: any other grid ends in an exception. *)
Theorem grid_requirements (o : optics) (species : string) (idx_size idx_wvl : Z)
    (ds : snapshot) (nat : native) (sub : subsampled) :
  time_step o species idx_size idx_wvl ds = Ok (nat, sub) →
  length (lat ds) = nlat ds → length (lon ds) = nlon ds →
  Nat.Odd (nlat ds) ∧ Nat.Even (nlon ds).
Proof.
  intros H Llat Llon.
  destruct (time_step_sub _ _ _ _ _ _ _ H) as (_ & _ & _ & _ & Elat & Elon & Hlat & Hlon & Hmid).
  rewrite Elat, lat_sub_length_any, Llat in Hlat.
  rewrite Elon, step2_length, Llon in Hlon. rewrite Llat in Hmid.
  pose proof (Nat.div_mod_eq (nlat ds - 1 - 1 + 1) 2) as D1.
  pose proof (Nat.mod_upper_bound (nlat ds - 1 - 1 + 1) 2) as M1.
  pose proof (Nat.div_mod_eq (nlat ds) 2) as D2.
  pose proof (Nat.mod_upper_bound (nlat ds) 2) as M2.
  pose proof (Nat.div_mod_eq (nlon ds + 1) 2) as D3.
  pose proof (Nat.mod_upper_bound (nlon ds + 1) 2) as M3.
  pose proof (Nat.div_mod_eq (nlon ds) 2) as D4.
  pose proof (Nat.mod_upper_bound (nlon ds) 2) as M4.
  split.
  - exists (nlat ds / 2)%nat. lia.
  - exists (nlon ds / 2)%nat. lia.
Qed.

Lemma grid_requirements_witness :
  Nat.Odd (nlat demo_snapshot) ∧ Nat.Even (nlon demo_snapshot).
Proof.
  destruct (time_step demo_optics "SO4" 0 0 demo_snapshot) as [[nat sub]|e] eqn:E;
    [|vm_compute in E; discriminate E].
  exact (grid_requirements demo_optics "SO4" 0 0 demo_snapshot nat sub E eq_refl eq_refl).
Defined.

(** *** The column optical depth *)

Lemma cell2_fmap (f : Q → Q) (x : list (list Q)) j i :
  Np.cell2 (fmap (M := list) (fmap (M := list) f) x) j i = f <$> Np.cell2 x j i.
Proof.
  unfold Np.cell2. rewrite list_lookup_fmap.
  destruct (x !! j) as [row|]; simpl; [|done]. by rewrite list_lookup_fmap.
Qed.

Lemma cell2_zeros_Some r c j i x : Np.cell2 (Np.zeros2 r c) j i = Some x → x = 0.
Proof.
  unfold Np.cell2, Np.zeros2. intros H.
  destruct (replicate r (replicate c 0) !! j) as [row|] eqn:E; [|done].
  apply lookup_replicate in E as [-> _]. simpl in H.
  by apply lookup_replicate in H as [-> _].
Qed.

Lemma foldl_add2_cell levels : ∀ acc j i c,
  Np.cell2 (foldl Np.add2 acc levels) j i = Some c →
  ∃ c0, Np.cell2 acc j i = Some c0
        ∧ Forall (λ lv, is_Some (Np.cell2 lv j i)) levels
        ∧ c == c0 + ExternalMix.sumQ ((λ lv, default 0 (Np.cell2 lv j i)) <$> levels).
Proof.
  induction levels as [|lv levels IH]; intros acc j i c H; simpl in H.
  - exists c. split; [done|]. split; [constructor|].
    rewrite fmap_nil. unfold ExternalMix.sumQ. simpl. ring.
  - apply IH in H as (c1 & H1 & F & E). unfold Np.add2 in H1.
    rewrite cell2_zip_with in H1.
    destruct (Np.cell2 acc j i) as [x|]; [|done].
    destruct (Np.cell2 lv j i) as [y|] eqn:Ey; [|done]. injection H1 as <-.
    exists x. split; [done|]. split; [constructor; [by rewrite Ey|done]|].
    rewrite E, fmap_cons, Ey. unfold ExternalMix.sumQ. cbn [foldr default from_option id].
    ring.
Qed.

Lemma sumQ_bounds lo hi (l : list Q) :
  Forall (λ x, lo <= x ∧ x <= hi) l →
  lo * inject_Z (Z.of_nat (length l)) <= ExternalMix.sumQ l
  ∧ ExternalMix.sumQ l <= hi * inject_Z (Z.of_nat (length l)).
Proof.
  induction 1 as [|x l [Hlo Hhi] _ [IHlo IHhi]].
  - unfold ExternalMix.sumQ. simpl. split; ring_simplify; apply Qle_refl.
  - change (ExternalMix.sumQ (x :: l)) with (x + ExternalMix.sumQ l).
    cbn [length]. rewrite Nat2Z.inj_succ, <- Z.add_1_r, inject_Z_plus.
    change (inject_Z 1) with 1. split; ring_simplify; lra.
Qed.

(** X13.  In the sub-sampled output the column extinction optical depth
    of a cell is the sum, over the [nlev // 3] output levels, of the layer
    extinction as written (after the clip to [0, 10]); it therefore lies
    between 0 and [10 * (nlev // 3)]. *)
Theorem column_bounds (o : optics) (species : string) (idx_size idx_wvl : Z)
    (ds : snapshot) (nat : native) (sub : subsampled) :
  time_step o species idx_size idx_wvl ds = Ok (nat, sub) →
  length (tau_ext_sub sub) = (nlev ds / 3)%nat
  ∧ ∀ j i c, Np.cell2 (tau_ext_sub_column sub) j i = Some c →
      Forall (λ lv, is_Some (Np.cell2 lv j i)) (tau_ext_sub sub)
      ∧ c == ExternalMix.sumQ ((λ lv, default 0 (Np.cell2 lv j i)) <$> tau_ext_sub sub)
      ∧ 0 <= c ∧ c <= 10 * inject_Z (Z.of_nat (nlev ds / 3)).
Proof.
  intros H.
  destruct (time_step_sub _ _ _ _ _ _ _ H) as (e_pre & Hpre & Eext & Ecol & _).
  assert (Hlen : length (tau_ext_sub sub) = (nlev ds / 3)%nat).
  { rewrite Eext. unfold clip_ext. rewrite length_fmap.
    unfold subsample_sum, subsample in Hpre.
    by rewrite (traverse_length _ _ _ Hpre), length_seq. }
  split; [done|]. intros j i c Hc. rewrite Ecol in Hc. unfold Np.sum_axis0 in Hc.
  apply foldl_add2_cell in Hc as (c0 & H0 & F & E).
  apply cell2_zeros_Some in H0. subst c0.
  split; [done|]. split; [rewrite E; ring|].
  assert (B : Forall (λ x, 0 <= x ∧ x <= 10)
                ((λ lv, default 0 (Np.cell2 lv j i)) <$> tau_ext_sub sub)).
  { rewrite Forall_fmap, Eext. unfold clip_ext. rewrite Forall_fmap.
    apply Forall_true. intros lv. simpl. rewrite cell2_fmap.
    destruct (Np.cell2 lv j i) as [x|]; simpl; [|lra].
    apply clip_bounds. lra. }
  apply sumQ_bounds in B. rewrite length_fmap, Hlen in B. rewrite E. lra.
Qed.

Lemma column_bounds_witness :
  ∃ nat sub,
    time_step demo_optics "SO4" 0 0 demo_snapshot = Ok (nat, sub)
    ∧ ∀ j i c, Np.cell2 (tau_ext_sub_column sub) j i = Some c →
        0 <= c ∧ c <= 10 * inject_Z (Z.of_nat (3 / 3)).
Proof.
  destruct (time_step demo_optics "SO4" 0 0 demo_snapshot) as [[nat sub]|e] eqn:E;
    [|vm_compute in E; discriminate E].
  exists nat, sub. split; [reflexivity|]. intros j i c Hc.
  destruct (column_bounds demo_optics "SO4" 0 0 demo_snapshot nat sub E) as [_ Hb].
  by destruct (Hb j i c Hc) as (_ & _ & ? & ?).
Defined.

(** *** Values the clip leaves alone *)

Lemma clip_id x lo hi : lo <= x → x <= hi → Np.clip x lo hi == x.
Proof.
  intros H1 H2. unfold Np.clip.
  destruct (Q.max_spec x lo) as [[? E1]|[? E1]];
  destruct (Q.min_spec (Qmax x lo) hi) as [[? E2]|[? E2]]; lra.
Qed.

(** X14.  The clip changes no physically valid value: where the
    sub-sampled extinction before the clip lies in [0, 10] it is written
    as it is, and so are a scattering between 0 and that extinction and an
    asymmetry in [-1, 1]. *)
Theorem clip_keeps_valid (o : optics) (species : string) (idx_size idx_wvl : Z)
    (ds : snapshot) (nat : native) (sub : subsampled) :
  time_step o species idx_size idx_wvl ds = Ok (nat, sub) →
  ∃ e_pre s_pre a_pre,
    subsample_sum (nlev ds) (nlat ds) (nlon ds) (da_tau_ext nat) = Ok e_pre
    ∧ subsample_sum (nlev ds) (nlat ds) (nlon ds) (da_tau_sca nat) = Ok s_pre
    ∧ subsample_mean (nlev ds) (nlat ds) (nlon ds) (da_asm nat) = Ok a_pre
    ∧ (∀ l j i e0, Np.cell e_pre l j i = Some e0 → 0 <= e0 → e0 <= 10 →
         ∃ e, Np.cell (tau_ext_sub sub) l j i = Some e ∧ e == e0)
    ∧ (∀ l j i e0 s0, Np.cell e_pre l j i = Some e0 → Np.cell s_pre l j i = Some s0 →
         0 <= s0 → s0 <= e0 → e0 <= 10 →
         ∃ s, Np.cell (tau_sca_sub sub) l j i = Some s ∧ s == s0)
    ∧ (∀ l j i a0, Np.cell a_pre l j i = Some a0 → -1 <= a0 → a0 <= 1 →
         ∃ a, Np.cell (asm_sub sub) l j i = Some a ∧ a == a0).
Proof.
  intros H.
  destruct (time_step_Ok _ _ _ _ _ _ _ H)
    as (rh & delp & q & k_ext & k_sca & k_asm & tau_ext & tau_sca & e_pre & s_pre & a_pre & F).
  destruct F as [_ _ _ _ _ _ _ _ _ _ _ _ _ He_pre Hs_pre Ha_pre Eext Esca Easm].
  exists e_pre, s_pre, a_pre. rewrite Eext, Esca, Easm.
  unfold clip_ext, clip_sca, clip_asm.
  repeat (split; [done|]). split; [|split].
  - intros l j i e0 He H0 H10. rewrite cell_fmap, He. simpl.
    eexists. split; [done|]. by apply clip_id.
  - intros l j i e0 s0 He Hs H0 Hse H10. rewrite cell_zip_with, cell_fmap, He, Hs. simpl.
    eexists. split; [done|]. apply clip_id; [done|].
    rewrite clip_id by lra. done.
  - intros l j i a0 Ha H0 H1. rewrite cell_fmap, Ha. simpl.
    eexists. split; [done|]. by apply clip_id.
Qed.

Lemma clip_keeps_valid_witness :
  ∃ nat sub e_pre e0 e,
    time_step demo_optics "SO4" 0 0 demo_snapshot = Ok (nat, sub)
    ∧ subsample_sum 3 3 2 (da_tau_ext nat) = Ok e_pre
    ∧ Np.cell e_pre 0 0 0 = Some e0
    ∧ Np.cell (tau_ext_sub sub) 0 0 0 = Some e ∧ e == e0.
Proof.
  destruct (time_step demo_optics "SO4" 0 0 demo_snapshot) as [[nat sub]|e] eqn:E;
    [|vm_compute in E; discriminate E].
  destruct (clip_keeps_valid demo_optics "SO4" 0 0 demo_snapshot nat sub E)
    as (e_pre & s_pre & a_pre & He & _ & _ & Hc & _).
  vm_compute in E. injection E as <- <-.
  vm_compute in He. injection He as <-.
  destruct (Hc 0%nat 0%nat 0%nat _ eq_refl) as (e & He & Ee); [discriminate..|].
  eexists _, _, _, _, e. split; [reflexivity|]. split; [vm_compute; reflexivity|].
  split; [reflexivity|]. split; [exact He|exact Ee].
Defined.

End ConverterGridProofs.

(** ** species_optics.py: the humidity interpolation *)

Module RhInterpProofs.

Import SpeciesOptics SpeciesOpticsProofs RhInterp.

(** *** Sorted nodes *)

Lemma ascending_Q_tail x xs : ascending_Q (x :: xs) → ascending_Q xs.
Proof. intros H i j a b Hij Ha Hb. apply (H (S i) (S j) a b); [lia|done..]. Qed.

Lemma ascending_increasing xs : ascending_Q xs → increasing xs = true.
Proof.
  induction xs as [|x xs IH]; intros H; [done|].
  destruct xs as [|y xs]; [done|].
  change (increasing (x :: y :: xs)) with (negb (Qle_bool y x) && increasing (y :: xs)).
  rewrite IH by by eapply ascending_Q_tail.
  assert (Hxy : x < y) by (apply (H 0%nat 1%nat); [lia|done|done]).
  destruct (Qle_bool y x) eqn:E; [|done]. apply Qle_bool_iff in E. lra.
Qed.

Lemma sort_nodes_sorted (l : list (Q * Q)) :
  ascending_Q (fst <$> l) → sort_nodes l = l.
Proof.
  induction l as [|p l IH]; intros H; [done|].
  change (sort_nodes (p :: l)) with (insert_node p (sort_nodes l)).
  rewrite IH by (rewrite fmap_cons in H; by eapply ascending_Q_tail).
  destruct l as [|q l]; [done|]. simpl.
  assert (Hpq : fst p < fst q) by (apply (H 0%nat 1%nat); [lia|done|done]).
  destruct (Qle_bool (fst p) (fst q)) eqn:E; [done|].
  assert (Qle_bool (fst p) (fst q) = true) by (apply Qle_bool_iff; lra). congruence.
Qed.

Lemma interp1d_sorted x y :
  length x = length y → (2 ≤ length x)%nat → ascending_Q x →
  interp1d x y = Ok (zip x y).
Proof.
  intros Hl Hn Hx. unfold interp1d. rewrite Hl, Nat.eqb_refl. cbn [negb]. cbv zeta.
  assert (Hf : fst <$> zip x y = x) by (apply fst_zip; lia).
  rewrite sort_nodes_sorted by by rewrite Hf.
  rewrite Hf, ascending_increasing by done.
  rewrite length_zip_with, <- Hl, Nat.min_id.
  destruct (Nat.leb_spec 2 (length x)); [done|lia].
Qed.

Lemma searchsorted_spec xs v : ∀ k,
  (∀ i a, (i < k)%nat → xs !! i = Some a → a < v) →
  (∀ b, xs !! k = Some b → v <= b) →
  (k ≤ length xs)%nat →
  searchsorted xs v = k.
Proof.
  induction xs as [|x xs IH]; intros k Hlt Hge Hk; simpl in *.
  - lia.
  - destruct k as [|k].
    + destruct (Qlt_le_dec x v) as [Hx|Hx]; [|done].
      specialize (Hge x eq_refl). lra.
    + destruct (Qlt_le_dec x v) as [Hx|Hx].
      * f_equal. apply IH; [|done|lia].
        intros i a Hi Ha. apply (Hlt (S i) a); [lia|done].
      * specialize (Hlt 0%nat x). simpl in Hlt. specialize (Hlt ltac:(lia) eq_refl). lra.
Qed.

(** The interpolant on sorted nodes: the line of the segment around the
    argument, the first segment below the nodes, the last one above. *)
Lemma evaluate_line xs ys m x0 y0 x1 y1 v :
  length xs = length ys → ascending_Q xs →
  xs !! m = Some x0 → xs !! S m = Some x1 →
  ys !! m = Some y0 → ys !! S m = Some y1 →
  (x0 < v ∧ v <= x1) ∨ (m = 0%nat ∧ v <= x0) ∨ (S (S m) = length xs ∧ x1 < v) →
  evaluate (zip xs ys) v = line x0 y0 x1 y1 v.
Proof.
  intros Hl Hx Hx0 Hx1 Hy0 Hy1 Hv.
  assert (Hm : (S m < length xs)%nat) by by eapply lookup_lt_Some.
  assert (Hi : Nat.min (Nat.max (searchsorted xs v) 1) (length xs - 1) = S m).
  { destruct Hv as [[H0 H1]|[[-> H0]|[Hn H1]]].
    - rewrite (searchsorted_spec xs v (S m)); [lia| | |lia].
      + intros i a Hi Ha. destruct (decide (i = m)) as [->|Hne].
        * rewrite Hx0 in Ha. by injection Ha as <-.
        * assert (a < x0) by (apply (Hx i m); [lia|done..]). lra.
      + intros b Hb. rewrite Hx1 in Hb. by injection Hb as <-.
    - rewrite (searchsorted_spec xs v 0); [lia| | |lia].
      + intros i a Hi. lia.
      + intros b Hb. rewrite Hx0 in Hb. by injection Hb as <-.
    - rewrite (searchsorted_spec xs v (length xs)); [lia| | |lia].
      + intros i a Hi Ha. destruct (decide (i = S m)) as [->|Hne].
        * rewrite Hx1 in Ha. by injection Ha as <-.
        * assert (a < x1) by (apply (Hx i (S m)); [lia|done..]). lra.
      + intros b Hb. apply lookup_lt_Some in Hb. lia. }
  unfold evaluate, line.
  rewrite fst_zip by lia. rewrite length_zip_with, <- Hl, Nat.min_id, Hi.
  replace (S m - 1)%nat with m by lia.
  rewrite !lookup_zip_with, Hx0, Hx1, Hy0, Hy1. done.
Qed.

Lemma line_left x0 y0 x1 y1 : line x0 y0 x1 y1 x0 == y0.
Proof. unfold line. ring. Qed.

Lemma line_right x0 y0 x1 y1 : x0 < x1 → line x0 y0 x1 y1 x1 == y1.
Proof. intros H. unfold line. field. lra. Qed.

Lemma line_proper x0 y0 x1 y1 v v' :
  v == v' → line x0 y0 x1 y1 v == line x0 y0 x1 y1 v'.
Proof. intros E. unfold line. by rewrite E. Qed.

Lemma line_between x0 y0 x1 y1 v :
  x0 < x1 → x0 <= v → v <= x1 →
  Qmin y0 y1 <= line x0 y0 x1 y1 v ∧ line x0 y0 x1 y1 v <= Qmax y0 y1.
Proof.
  intros H01 H0 H1.
  set (t := (v - x0) / (x1 - x0)).
  assert (Ht0 : 0 <= t).
  { unfold t. apply Qle_shift_div_l; lra. }
  assert (Ht1 : t <= 1).
  { unfold t. apply Qle_shift_div_r; lra. }
  assert (E : line x0 y0 x1 y1 v == y0 + t * (y1 - y0)).
  { unfold line, t. field. lra. }
  rewrite E.
  destruct (Q.min_spec y0 y1) as [[? ->]|[? ->]];
  destruct (Q.max_spec y0 y1) as [[? ->]|[? ->]]; split; nra.
Qed.

(** *** The fine tables *)

Lemma column_regular n0 n1 n2 a r k :
  shape3 n0 n1 n2 a → (r < n0)%nat → (k < n2)%nat →
  column a r k = Ok (column_of a r k)
  ∧ length (column_of a r k) = n1
  ∧ ∀ m, column_of a r k !! m = Np.cell a r m k.
Proof.
  intros Hs Hr Hk. destruct (shape3_level _ _ _ _ _ Hs Hr) as (plane & Hp & Lp & Fp).
  unfold column, column_of. rewrite Hp. cbn [of_option bind default from_option id].
  split; [|split].
  - apply traverse_total. intros row Hrow. rewrite Forall_forall in Fp.
    specialize (Fp row Hrow).
    destruct (lookup_lt_is_Some_2 row k) as [x Hx]; [lia|]. by rewrite Hx.
  - by rewrite length_fmap.
  - intros m. unfold Np.cell. rewrite Hp. simpl. rewrite list_lookup_fmap.
    destruct (plane !! m) as [row|] eqn:Em; simpl; [|done].
    rewrite Forall_lookup in Fp. specialize (Fp _ _ Em).
    destruct (lookup_lt_is_Some_2 row k) as [x Hx]; [lia|]. by rewrite Hx.
Qed.

Lemma rh_fine_lookup h : (h < 100)%nat → rh_fine !! h = Some (bin_humidity h).
Proof.
  intros Hh. unfold rh_fine, nrh. rewrite list_lookup_fmap, lookup_seq_lt by done. done.
Qed.

Lemma fill_shape {A} (sel : A → list Q) (cells : list (list A)) n2 :
  Forall (λ per_k, length per_k = n2) cells →
  table_shape (length cells) n2 (fill sel cells).
Proof.
  intros F. unfold fill. split; [by rewrite length_fmap|].
  rewrite Forall_fmap. eapply Forall_impl; [exact F|]. intros per_k Hk. cbv beta.
  unfold compose. split; [by rewrite length_fmap, length_seq|].
  rewrite Forall_fmap. apply Forall_true. intros h. cbv beta. unfold compose.
  by rewrite length_fmap.
Qed.

Lemma fill_cell {A} (sel : A → list Q) (cells : list (list A)) r h k per_k x :
  cells !! r = Some per_k → per_k !! k = Some x → (h < 100)%nat →
  Np.cell (fill sel cells) r h k = Some (default 0 (sel x !! h)).
Proof.
  intros Hr Hk Hh. unfold Np.cell, fill.
  assert (Hs : seq 0 nrh !! h = Some h) by (apply lookup_seq_lt; unfold nrh; lia).
  revert Hs. generalize (seq 0 nrh). intros s Hs.
  rewrite list_lookup_fmap, Hr. simpl.
  rewrite list_lookup_fmap, Hs. simpl.
  by rewrite list_lookup_fmap, Hk.
Qed.

(** [rh_interp] on a well-formed optics file. *)
Lemma rh_interp_regular c n0 n1 n2 :
  regular c n0 n1 n2 →
  let cells := (λ r, (λ k, cell_of c r k) <$> seq 0 n2) <$> seq 0 n0 in
  rh_interp c
  = Ok {| ext := fill (λ t, t.1.1) cells; sca := fill (λ t, t.1.2) cells;
          asm := fill (λ t, t.2) cells; lambda := coords_lambda c |}.
Proof.
  intros (Hshape & Se & Ss & Sa & Lrh & Hn & Hasc) cells. unfold rh_interp.
  rewrite Hshape.
  rewrite (traverse_total _ (λ r, (λ k, cell_of c r k) <$> seq 0 n2)); [done|].
  intros r Hr%elem_of_seq. apply traverse_total. intros k Hk%elem_of_seq.
  destruct (column_regular _ _ _ _ r k Se) as (Ce & Le & _); [lia..|].
  destruct (column_regular _ _ _ _ r k Ss) as (Cs & Ls & _); [lia..|].
  destruct (column_regular _ _ _ _ r k Sa) as (Ca & La & _); [lia..|].
  unfold interp_cell. rewrite Ce, Cs, Ca. cbn [bind].
  rewrite !interp1d_sorted by (done || lia). done.
Qed.

(** The cells of the fine tables. *)
Lemma rh_interp_cells c n0 n1 n2 :
  regular c n0 n1 n2 →
  ∃ o, rh_interp c = Ok o
       ∧ lambda o = coords_lambda c
       ∧ (∀ a f, (a, f) ∈ tables c o → shape3 n0 n1 n2 a ∧ table_shape n0 n2 f)
       ∧ ∀ a f, (a, f) ∈ tables c o →
           ∀ r k h, (r < n0)%nat → (k < n2)%nat → (h < 100)%nat →
             Np.cell f r h k
             = Some (evaluate (zip (rh c) (column_of a r k)) (bin_humidity h)).
Proof.
  intros Hreg. pose proof (rh_interp_regular c n0 n1 n2 Hreg) as Hrun. cbv zeta in Hrun.
  destruct Hreg as (Hshape & Se & Ss & Sa & Lrh & Hn & Hasc).
  eexists. split; [exact Hrun|]. split; [done|].
  set (cells := (λ r, (λ k, cell_of c r k) <$> seq 0 n2) <$> seq 0 n0).
  assert (Hcells : Forall (λ per_k, length per_k = n2) cells).
  { unfold cells. rewrite Forall_fmap. apply Forall_true. intros r. simpl.
    by rewrite length_fmap, length_seq. }
  assert (Hlen : length cells = n0) by (unfold cells; by rewrite length_fmap, length_seq).
  split.
  - intros a f Hin. unfold tables in Hin. cbn [ext sca asm] in Hin.
    rewrite !elem_of_cons in Hin.
    destruct Hin as [[= -> ->]|[[= -> ->]|[[= -> ->]|Hin]]]; [..|by apply elem_of_nil in Hin];
      (split; [done|]); rewrite <- Hlen at 1; by apply fill_shape.
  - intros a f Hin r k h Hr Hk Hh. unfold tables in Hin. cbn [ext sca asm] in Hin.
    assert (Hc : cells !! r = Some ((λ k, cell_of c r k) <$> seq 0 n2)).
    { unfold cells. by rewrite list_lookup_fmap, lookup_seq_lt. }
    assert (Hx : ((λ k, cell_of c r k) <$> seq 0 n2) !! k = Some (cell_of c r k)).
    { by rewrite list_lookup_fmap, lookup_seq_lt. }
    rewrite !elem_of_cons in Hin.
    destruct Hin as [[= -> ->]|[[= -> ->]|[[= -> ->]|Hin]]]; [..|by apply elem_of_nil in Hin];
      rewrite (fill_cell _ _ _ _ _ _ _ Hc Hx Hh); unfold cell_of; cbn [fst snd];
      by rewrite list_lookup_fmap, rh_fine_lookup.
Qed.

(** X15.  Whenever [rh_interp] returns, its three arrays have the shape
    [(n0, 100, n2)] of the converter's optics table, [n0] and [n2] being
    the first and the last axis of [bext], and the wavelength coordinate is
    the one of the input. *)
Theorem rh_interp_shape (c : coarse) (o : optics) (n0 n1 n2 : nat) :
  rh_interp c = Ok o → shape_coarse c = (n0, n1, n2) →
  table_shape n0 n2 (ext o) ∧ table_shape n0 n2 (sca o) ∧ table_shape n0 n2 (asm o)
  ∧ lambda o = coords_lambda c.
Proof.
  intros H Hshape. unfold rh_interp in H. rewrite Hshape in H.
  apply bind_Ok in H as (cells & Hc & H). injection H as <-. cbn [ext sca asm lambda].
  assert (Hlen : length cells = n0) by by rewrite (traverse_length _ _ _ Hc), length_seq.
  assert (Hcells : Forall (λ per_k, length per_k = n2) cells).
  { rewrite Forall_lookup. intros r per_k Hr.
    destruct (traverse_lookup _ _ _ Hc r per_k Hr) as (r' & _ & Hk).
    by rewrite (traverse_length _ _ _ Hk), length_seq. }
  rewrite <- Hlen.
  split; [by apply fill_shape|]. split; [by apply fill_shape|].
  split; [by apply fill_shape|done].
Qed.

Lemma demo_regular : regular demo_coarse 1 3 2.
Proof.
  split; [reflexivity|]. split; [|split; [|split]];
    try (split; [reflexivity|]; by repeat constructor).
  split; [reflexivity|]. split; [lia|].
  intros i j a b Hij Ha Hb.
  destruct i as [|[|[|i]]], j as [|[|[|j]]]; try lia; try discriminate Hb;
    try discriminate Ha; injection Ha as <-; injection Hb as <-; reflexivity.
Qed.

Lemma rh_interp_shape_witness :
  ∃ o, rh_interp demo_coarse = Ok o ∧ table_shape 1 2 (ext o).
Proof.
  destruct (rh_interp demo_coarse) as [o|e] eqn:E; [|vm_compute in E; discriminate E].
  exists o. split; [reflexivity|].
  exact (proj1 (rh_interp_shape demo_coarse o 1 3 2 E eq_refl)).
Defined.

(** X16.  On a well-formed optics file [rh_interp] succeeds, and every
    entry of a fine table is the coarse table interpolated linearly in
    humidity: at bin [h], of humidity [h / 100], it is the value at that
    humidity of the line through the two coarse nodes around it; below the
    first node the line of the first segment is used and above the last
    node the line of the last segment (linear extrapolation). *)
Theorem rh_interp_piecewise_linear (c : coarse) (n0 n1 n2 : nat) :
  regular c n0 n1 n2 →
  ∃ o, rh_interp c = Ok o
       ∧ ∀ a f, (a, f) ∈ tables c o →
           ∀ r k h m x0 x1 y0 y1,
             (r < n0)%nat → (k < n2)%nat → (h < 100)%nat →
             rh c !! m = Some x0 → rh c !! S m = Some x1 →
             Np.cell a r m k = Some y0 → Np.cell a r (S m) k = Some y1 →
             (x0 < bin_humidity h ∧ bin_humidity h <= x1)
             ∨ (m = 0%nat ∧ bin_humidity h <= x0)
             ∨ (S (S m) = n1 ∧ x1 < bin_humidity h) →
             Np.cell f r h k = Some (line x0 y0 x1 y1 (bin_humidity h)).
Proof.
  intros Hreg. destruct (rh_interp_cells c n0 n1 n2 Hreg) as (o & Hrun & _ & Hsh & Hcell).
  destruct Hreg as (_ & _ & _ & _ & Lrh & _ & Hasc).
  exists o. split; [done|].
  intros a f Hin r k h m x0 x1 y0 y1 Hr Hk Hh Hx0 Hx1 Hy0 Hy1 Hv.
  rewrite (Hcell a f Hin r k h Hr Hk Hh). f_equal.
  destruct (Hsh a f Hin) as [Sa _].
  destruct (column_regular _ _ _ _ r k Sa Hr Hk) as (_ & Lcol & Ecol).
  apply (evaluate_line (rh c) (column_of a r k) m x0 y0 x1 y1);
    [congruence|done|done|done|by rewrite Ecol|by rewrite Ecol|by rewrite Lrh].
Qed.

Lemma rh_interp_piecewise_linear_witness :
  ∃ o, rh_interp demo_coarse = Ok o
       ∧ Np.cell (ext o) 0 25 1 = Some (line 0 3 0.5 4 (bin_humidity 25))
       ∧ Np.cell (ext o) 0 99 0 = Some (line 0.5 2 0.95 4 (bin_humidity 99)).
Proof.
  destruct (rh_interp_piecewise_linear demo_coarse 1 3 2 demo_regular) as (o & Hrun & H).
  exists o. split; [exact Hrun|].
  assert (Hin : (bext demo_coarse, ext o) ∈ tables demo_coarse o) by (unfold tables; left).
  split.
  - apply (H _ _ Hin 0%nat 1%nat 25%nat 0%nat); try reflexivity; try lia.
    left. split; reflexivity || discriminate.
  - apply (H _ _ Hin 0%nat 0%nat 99%nat 1%nat); try reflexivity; try lia.
    right. right. split; reflexivity.
Defined.

(** X17.  Inside the humidity range of the coarse table the
    interpolation creates no new extremes: an entry of a fine table whose
    bin humidity lies between two neighbouring coarse nodes lies between
    the two coarse values, and where the bin humidity is a coarse node the
    entry is the coarse value itself. *)
Theorem rh_interp_within_range (c : coarse) (n0 n1 n2 : nat) :
  regular c n0 n1 n2 →
  ∃ o, rh_interp c = Ok o
       ∧ ∀ a f, (a, f) ∈ tables c o →
           ∀ r k h m x0 x1 y0 y1,
             (r < n0)%nat → (k < n2)%nat → (h < 100)%nat →
             rh c !! m = Some x0 → rh c !! S m = Some x1 →
             Np.cell a r m k = Some y0 → Np.cell a r (S m) k = Some y1 →
             x0 <= bin_humidity h → bin_humidity h <= x1 →
             ∃ e, Np.cell f r h k = Some e
                  ∧ Qmin y0 y1 <= e ∧ e <= Qmax y0 y1
                  ∧ (bin_humidity h == x0 → e == y0)
                  ∧ (bin_humidity h == x1 → e == y1).
Proof.
  intros Hreg. destruct (rh_interp_cells c n0 n1 n2 Hreg) as (o & Hrun & _ & Hsh & Hcell).
  destruct Hreg as (_ & _ & _ & _ & Lrh & _ & Hasc).
  exists o. split; [done|].
  intros a f Hin r k h m x0 x1 y0 y1 Hr Hk Hh Hx0 Hx1 Hy0 Hy1 H0 H1.
  rewrite (Hcell a f Hin r k h Hr Hk Hh).
  destruct (Hsh a f Hin) as [Sa _].
  destruct (column_regular _ _ _ _ r k Sa Hr Hk) as (_ & Lcol & Ecol).
  assert (H01 : x0 < x1) by (apply (Hasc m (S m)); [lia|done..]).
  assert (Hseg : ∀ m' u0 u1 v0 v1,
            rh c !! m' = Some u0 → rh c !! S m' = Some u1 →
            Np.cell a r m' k = Some v0 → Np.cell a r (S m') k = Some v1 →
            (u0 < bin_humidity h ∧ bin_humidity h <= u1)
            ∨ (m' = 0%nat ∧ bin_humidity h <= u0)
            ∨ (S (S m') = n1 ∧ u1 < bin_humidity h) →
            evaluate (zip (rh c) (column_of a r k)) (bin_humidity h)
            = line u0 v0 u1 v1 (bin_humidity h)).
  { intros m' u0 u1 v0 v1 Hu0 Hu1 Hv0 Hv1 Hv.
    apply (evaluate_line (rh c) (column_of a r k) m' u0 v0 u1 v1);
      [congruence|done|done|done|by rewrite Ecol|by rewrite Ecol|by rewrite Lrh]. }
  destruct (Qlt_le_dec x0 (bin_humidity h)) as [Hlt|Hle].
  - rewrite (Hseg m x0 x1 y0 y1) by auto.
    eexists. split; [done|].
    destruct (line_between x0 y0 x1 y1 (bin_humidity h)) as [? ?]; [lra..|].
    split; [done|]. split; [done|]. split.
    + intros E. lra.
    + intros E. rewrite (line_proper _ _ _ _ _ _ E). by apply line_right.
  - assert (E0 : bin_humidity h == x0) by lra.
    assert (Hy : Qmin y0 y1 <= y0 ∧ y0 <= Qmax y0 y1).
    { destruct (Q.min_spec y0 y1) as [[? ->]|[? ->]];
      destruct (Q.max_spec y0 y1) as [[? ->]|[? ->]]; lra. }
    destruct m as [|m'].
    + rewrite (Hseg 0%nat x0 x1 y0 y1) by auto.
      eexists. split; [done|].
      assert (El : line x0 y0 x1 y1 (bin_humidity h) == y0).
      { rewrite (line_proper _ _ _ _ _ _ E0). apply line_left. }
      rewrite El. split; [tauto|]. split; [tauto|]. split; [done|]. intros E. lra.
    + destruct (lookup_lt_is_Some_2 (rh c) m') as [u Hu];
        [apply lookup_lt_Some in Hx0; lia|].
      assert (Hum : u < x0) by (apply (Hasc m' (S m')); [lia|done..]).
      destruct (lookup_lt_is_Some_2 (column_of a r k) m') as [v Hv];
        [apply lookup_lt_Some in Hx0; lia|].
      rewrite Ecol in Hv.
      rewrite (Hseg m' u x0 v y0) by (auto; left; lra).
      eexists. split; [done|].
      assert (El : line u v x0 y0 (bin_humidity h) == y0).
      { rewrite (line_proper _ _ _ _ _ _ E0). by apply line_right. }
      rewrite El. split; [tauto|]. split; [tauto|]. split; [done|]. intros E. lra.
Qed.

Lemma rh_interp_within_range_witness :
  ∃ o e, rh_interp demo_coarse = Ok o
         ∧ Np.cell (ext o) 0 50 1 = Some e ∧ e == 4.
Proof.
  destruct (rh_interp_within_range demo_coarse 1 3 2 demo_regular) as (o & Hrun & H).
  assert (Hin : (bext demo_coarse, ext o) ∈ tables demo_coarse o) by (unfold tables; left).
  destruct (H _ _ Hin 0%nat 1%nat 50%nat 1%nat 0.5 0.95 4 8) as (e & He & _ & _ & E0 & _);
    try reflexivity; try lia; try discriminate.
  exists o, e. split; [exact Hrun|]. split; [exact He|]. apply E0. reflexivity.
Defined.





End RhInterpProofs.

(** ** species_optics.py: the files of a run *)

Module SpeciesOpticsFilesProofs.

Import SpeciesOptics ExternalMix SpeciesOpticsFiles.

Section Files.

Variable float_attr : Q → string.
Variable cwd : string.
Variable clock : nat → string.

Abbreviation ds_sub_out := (ds_sub_out float_attr cwd clock).
Abbreviation write_step := (write_step float_attr cwd clock).
Abbreviation process_file := (SpeciesOpticsFiles.process_file float_attr cwd clock).

(** The loop over the time steps, from step [s] on: [k] steps complete,
    each writing the one output path, and the loop ends normally when all
    are done or with the exception of step [s + k]. *)
Lemma steps_run filename filename_out o name idx_size date band wvl_min wvl_max idx_wvl
    (ds : list snapshot) : ∀ (s : nat) (w : world),
  let path := filename_subsampled_out filename_out name band in
  let run := foldM (λ _ step,
                      write_step filename filename_out o name idx_size date band
                                 wvl_min wvl_max idx_wvl step.1 step.2)
                   tt (zip (seq s (length ds)) ds) w in
  ∃ k, (k ≤ length ds)%nat
       ∧ trace run.1 = (trace w ++ replicate k (Wrote path))%list
       ∧ (k = 0%nat → fs run.1 = fs w)
       ∧ (∀ snap, ds !! k = Some snap →
            ∃ e, time_step o name idx_size idx_wvl snap = Raise e ∧ run.2 = Raise e)
       ∧ (k = length ds → run.2 = Ok tt)
       ∧ (∀ i snap, (i < k)%nat → ds !! i = Some snap →
            ∃ r, time_step o name idx_size idx_wvl snap = Ok r
                 ∧ (S i = k →
                    fs run.1
                    = <[path := ds_sub_out filename date band wvl_min wvl_max (s + i) snap r.2]>
                        (fs w))).
Proof.
  induction ds as [|snap ds IH]; intros s w path run.
  - exists 0%nat. subst run. simpl. rewrite app_nil_r.
    repeat split; try done; intros; lia.
  - assert (Hstep : run
                    = match time_step o name idx_size idx_wvl snap with
                      | Ok r =>
                          foldM (λ _ step,
                                   write_step filename filename_out o name idx_size date band
                                              wvl_min wvl_max idx_wvl step.1 step.2)
                                tt (zip (seq (S s) (length ds)) ds)
                                {| fs := <[path := ds_sub_out filename date band wvl_min
                                                     wvl_max s snap r.2]> (fs w);
                                   trace := (trace w ++ [Wrote path])%list |}
                      | Raise e => (w, Raise e)
                      end).
    { subst run. cbn [length seq zip zip_with foldM].
      unfold sbind at 1. unfold SpeciesOpticsFiles.write_step at 1.
      unfold sbind at 1, lift at 1. cbn [fst snd].
      destruct (time_step o name idx_size idx_wvl snap) as [r|e]; [|done].
      unfold to_netcdf. reflexivity. }
    clearbody run. subst run.
    destruct (time_step o name idx_size idx_wvl snap) as [r|e] eqn:E.
    + set (w1 := {| fs := <[path := ds_sub_out filename date band wvl_min wvl_max s snap r.2]>
                            (fs w);
                    trace := (trace w ++ [Wrote path])%list |}).
      destruct (IH (S s) w1) as (k & Hk & Htr & H0 & Hfail & Hok & Hdone).
      cbv zeta in Htr, H0, Hfail, Hok, Hdone. fold path in Htr, Hdone.
      exists (S k). split; [simpl; lia|]. split; [|split; [|split; [|split]]].
      * rewrite Htr. subst w1. simpl. by rewrite <- app_assoc.
      * done.
      * intros snap' Hs. simpl in Hs. by apply Hfail.
      * intros Hlen. apply Hok. simpl in Hlen. lia.
      * intros i snap' Hi Hs. destruct i as [|i]; simpl in Hs.
        -- injection Hs as <-. exists r. split; [done|]. intros Hk1.
           assert (k = 0%nat) by lia. subst k. rewrite (H0 eq_refl). subst w1. simpl.
           by rewrite Nat.add_0_r.
        -- destruct (Hdone i snap' ltac:(lia) Hs) as (r' & Hr' & Hfs).
           exists r'. split; [done|]. intros Hk1. rewrite Hfs by lia. subst w1. simpl.
           rewrite insert_insert_eq. replace (s + S i)%nat with (S s + i)%nat by lia.
           reflexivity.
    + exists 0%nat. split; [lia|]. simpl. rewrite app_nil_r.
      split; [done|]. split; [done|]. split; [|split; [done|]].
      * intros snap' [= <-]. eauto.
      * intros i snap' Hi. lia.
Qed.

(** X20.  A run of [process_file] that ends normally has written the
    sub-sampled file once per time step, every time at the same path: the
    file that remains holds the last time step only (with the datetime
    attribute of that step), and an input without time steps leaves no
    file. *)
Theorem last_time_step_written (filename filename_out : string) (o : optics)
    (species size_bin band : string) (wvl_min wvl_max : Q) (idx_wvl : Z)
    (ds : list snapshot) (w w' : world) :
  process_file filename filename_out o species size_bin band wvl_min wvl_max idx_wvl ds w
  = (w', Ok tt) →
  ∃ date name idx_size,
    date_str filename = Ok date
    ∧ select_species species size_bin = Ok (name, idx_size)
    ∧ trace w'
      = (trace w
         ++ replicate (length ds) (Wrote (filename_subsampled_out filename_out name band)))%list
    ∧ (ds = [] → fs w' = fs w)
    ∧ ∀ pre snap, ds = (pre ++ [snap])%list →
        ∃ r, time_step o name idx_size idx_wvl snap = Ok r
             ∧ fs w'
               = <[filename_subsampled_out filename_out name band :=
                     ds_sub_out filename date band wvl_min wvl_max (length pre) snap r.2]>
                   (fs w).
Proof.
  unfold SpeciesOpticsFiles.process_file. intros H.
  unfold sbind at 1, lift at 1 in H.
  destruct (date_str filename) as [date|]; [|done].
  unfold sbind at 1, lift at 1 in H.
  destruct (select_species species size_bin) as [[name idx_size]|]; [|done].
  cbn [fst snd] in H.
  destruct (steps_run filename filename_out o name idx_size date band wvl_min wvl_max
              idx_wvl ds 0 w) as (k & Hk & Htr & H0 & Hfail & Hok & Hdone).
  cbv zeta in Htr, H0, Hfail, Hok, Hdone. rewrite H in Htr, H0, Hfail, Hdone.
  cbn [fst snd] in Htr, H0, Hfail, Hdone.
  assert (k = length ds) as ->.
  { destruct (decide (k = length ds)) as [|Hne]; [done|].
    destruct (lookup_lt_is_Some_2 ds k) as [snap Hs]; [lia|].
    by destruct (Hfail snap Hs) as (e & _ & ?). }
  exists date, name, idx_size. split; [done|]. split; [done|]. split; [done|].
  split.
  - intros ->. by apply H0.
  - intros pre snap ->. rewrite length_app in Hdone. simpl in Hdone.
    destruct (Hdone (length pre) snap) as (r & Hr & Hfs); [lia| |].
    + by rewrite lookup_app_r, Nat.sub_diag.
    + exists r. split; [done|]. apply Hfs. lia.
Qed.

(** X21.  A time step that raises ends [process_file] with its
    exception, but the file written by the time steps before it stays:
    after a failure at step [k > 0] the output path holds the data of step
    [k - 1], and after a failure at the first step nothing has been
    written. *)
Theorem failed_step_keeps_previous (filename filename_out : string) (o : optics)
    (species size_bin band : string) (wvl_min wvl_max : Q) (idx_wvl : Z)
    (pre rest : list snapshot) (snap : snapshot) (e : exn) (w : world)
    (date name : string) (idx_size : Z) :
  date_str filename = Ok date →
  select_species species size_bin = Ok (name, idx_size) →
  Forall (λ s, ∃ r, time_step o name idx_size idx_wvl s = Ok r) pre →
  time_step o name idx_size idx_wvl snap = Raise e →
  let run := process_file filename filename_out o species size_bin band wvl_min wvl_max
               idx_wvl (pre ++ snap :: rest) w in
  run.2 = Raise e
  ∧ trace run.1
    = (trace w
       ++ replicate (length pre) (Wrote (filename_subsampled_out filename_out name band)))%list
  ∧ (pre = [] → fs run.1 = fs w)
  ∧ ∀ pre' last, pre = (pre' ++ [last])%list →
      ∃ r, time_step o name idx_size idx_wvl last = Ok r
           ∧ fs run.1
             = <[filename_subsampled_out filename_out name band :=
                   ds_sub_out filename date band wvl_min wvl_max (length pre') last r.2]>
                 (fs w).
Proof.
  intros Hdate Hsel Hpre Hsnap run. subst run.
  unfold SpeciesOpticsFiles.process_file.
  unfold sbind at 1, lift at 1. rewrite Hdate.
  unfold sbind at 1, lift at 1. rewrite Hsel. cbn [fst snd].
  destruct (steps_run filename filename_out o name idx_size date band wvl_min wvl_max
              idx_wvl (pre ++ snap :: rest) 0 w) as (k & Hk & Htr & H0 & Hfail & Hok & Hdone).
  cbv zeta in Htr, H0, Hfail, Hok, Hdone.
  assert (k = length pre) as ->.
  { destruct (Nat.lt_trichotomy k (length pre)) as [Hlt|[->|Hgt]]; [|done|].
    - destruct (lookup_lt_is_Some_2 pre k Hlt) as [s Hs].
      destruct (Hfail s) as (e' & He' & _); [by rewrite lookup_app_l|].
      rewrite Forall_lookup in Hpre. destruct (Hpre k s Hs) as [r Hr]. congruence.
    - destruct (Hdone (length pre) snap Hgt) as (r & Hr & _);
        [by rewrite lookup_app_r, Nat.sub_diag|congruence]. }
  split; [|split; [done|split]].
  - destruct (Hfail snap) as (e' & He' & ->); [by rewrite lookup_app_r, Nat.sub_diag|].
    congruence.
  - intros ->. by apply H0.
  - intros pre' last ->. destruct (Hdone (length pre') last) as (r & Hr & Hfs).
    + rewrite length_app. simpl. lia.
    + rewrite <- app_assoc. by rewrite lookup_app_r, Nat.sub_diag.
    + exists r. split; [done|]. apply Hfs. rewrite length_app. simpl. lia.
Qed.


End Files.

Lemma split_cons sep s : ∃ p ps, Py.split sep s = p :: ps.
Proof.
  destruct s as [|c s]; simpl; [by eexists _, _|].
  destruct (Ascii.eqb c sep); [by eexists _, _|].
  destruct (Py.split sep s); by eexists _, _.
Qed.

Lemma split_prefix sep a b :
  Py.split sep a = [a] →
  Py.split sep (a ++ b)
  = match Py.split sep b with
    | [] => [a ++ b]
    | hd :: tl => (a ++ hd) :: tl
    end.
Proof.
  induction a as [|c a IH]; intros H.
  - change (String.append EmptyString b) with b.
    by destruct (split_cons sep b) as (p & ps & ->).
  - change (String.append (String c a) b) with (String c (String.append a b)).
    cbn [Py.split] in *.
    destruct (Ascii.eqb c sep); [done|].
    destruct (split_cons sep a) as (p & ps & E). rewrite E in H.
    injection H as -> ->. rewrite IH by done.
    by destruct (split_cons sep b) as (p & ps & ->).
Qed.

(** X23.  For an input named as the default file pattern names it,
    [GEOS.it.asm.<...>] in a directory whose path has no dot, the third
    dot-separated field of the path, which the converter stores as the date
    in the [datetime] attribute of its output, is the text [asm]. *)
Theorem date_str_geosit (float_attr : Q → string) (cwd : string) (clock : nat → string)
    (dir rest band : string) (wvl_min wvl_max : Q) (t : nat) (ds : snapshot)
    (sub : subsampled) :
  Py.split "." dir = [dir] →
  date_str (dir ++ "/GEOS.it.asm." ++ rest) = Ok "asm"
  ∧ attrs (ds_sub_out float_attr cwd clock (dir ++ "/GEOS.it.asm." ++ rest) "asm" band
             wvl_min wvl_max t ds sub) !! "datetime"
    = Some ("asm_" ++ Py.format_0d 2 (3 * t) ++ "Z").
Proof.
  intros Hdir. split; [|reflexivity].
  unfold date_str. rewrite (split_prefix "." dir _ Hdir). reflexivity.
Qed.

Lemma demo_step_Ok : ∃ r, time_step demo_optics "SO4" 0 0 demo_snapshot = Ok r.
Proof.
  destruct (time_step demo_optics "SO4" 0 0 demo_snapshot) as [r|e] eqn:E; [by exists r|].
  exfalso. vm_compute in E. discriminate.
Qed.

Lemma last_time_step_written_witness :
  ∃ date name idx_size,
    date_str demo_filename = Ok date
    ∧ select_species "SO4" "001" = Ok (name, idx_size)
    ∧ trace (process_file demo_float "/home/run" demo_clock demo_filename demo_filename
            demo_optics "SO4" "001" "sw01" 0.2 0.7 0 [demo_snapshot; demo_snapshot]
            empty_world).1
      = (trace empty_world
         ++ replicate (length [demo_snapshot; demo_snapshot])
              (Wrote (filename_subsampled_out demo_filename name "sw01")))%list
    ∧ ([demo_snapshot; demo_snapshot] = [] →
       fs (process_file demo_float "/home/run" demo_clock demo_filename demo_filename
            demo_optics "SO4" "001" "sw01" 0.2 0.7 0 [demo_snapshot; demo_snapshot]
            empty_world).1 = fs empty_world)
    ∧ ∀ pre snap, [demo_snapshot; demo_snapshot] = (pre ++ [snap])%list →
        ∃ r, time_step demo_optics name idx_size 0 snap = Ok r
             ∧ fs (process_file demo_float "/home/run" demo_clock demo_filename demo_filename
            demo_optics "SO4" "001" "sw01" 0.2 0.7 0 [demo_snapshot; demo_snapshot]
            empty_world).1
               = <[filename_subsampled_out demo_filename name "sw01" :=
                     ds_sub_out demo_float "/home/run" demo_clock demo_filename date "sw01"
                       0.2 0.7 (length pre) snap r.2]>
                   (fs empty_world).
Proof.
  assert (Hp : process_file demo_float "/home/run" demo_clock demo_filename demo_filename
            demo_optics "SO4" "001" "sw01" 0.2 0.7 0 [demo_snapshot; demo_snapshot]
            empty_world
               = ((process_file demo_float "/home/run" demo_clock demo_filename demo_filename
            demo_optics "SO4" "001" "sw01" 0.2 0.7 0 [demo_snapshot; demo_snapshot]
            empty_world).1, Ok tt))
    by (vm_compute; reflexivity).
  revert Hp.
  generalize (process_file demo_float "/home/run" demo_clock demo_filename demo_filename
            demo_optics "SO4" "001" "sw01" 0.2 0.7 0 [demo_snapshot; demo_snapshot]
            empty_world).1.
  intros w' Hp.
  exact (last_time_step_written demo_float "/home/run" demo_clock demo_filename
           demo_filename demo_optics "SO4" "001" "sw01" 0.2 0.7 0
           [demo_snapshot; demo_snapshot] empty_world w' Hp).
Defined.

Lemma failed_step_keeps_previous_witness :
  (process_file demo_float "/home/run" demo_clock demo_filename demo_filename
            demo_optics "SO4" "001" "sw01" 0.2 0.7 0
            ([demo_snapshot] ++ demo_even_snapshot :: [demo_snapshot]) empty_world).2 = Raise ValueError
  ∧ trace (process_file demo_float "/home/run" demo_clock demo_filename demo_filename
            demo_optics "SO4" "001" "sw01" 0.2 0.7 0
            ([demo_snapshot] ++ demo_even_snapshot :: [demo_snapshot]) empty_world).1
    = (trace empty_world
       ++ replicate (length [demo_snapshot])
            (Wrote (filename_subsampled_out demo_filename "SO4" "sw01")))%list
  ∧ ([demo_snapshot] = [] →
     fs (process_file demo_float "/home/run" demo_clock demo_filename demo_filename
            demo_optics "SO4" "001" "sw01" 0.2 0.7 0
            ([demo_snapshot] ++ demo_even_snapshot :: [demo_snapshot]) empty_world).1 = fs empty_world)
  ∧ ∀ pre' last, [demo_snapshot] = (pre' ++ [last])%list →
      ∃ r, time_step demo_optics "SO4" 0 0 last = Ok r
           ∧ fs (process_file demo_float "/home/run" demo_clock demo_filename demo_filename
            demo_optics "SO4" "001" "sw01" 0.2 0.7 0
            ([demo_snapshot] ++ demo_even_snapshot :: [demo_snapshot]) empty_world).1
             = <[filename_subsampled_out demo_filename "SO4" "sw01" :=
                   ds_sub_out demo_float "/home/run" demo_clock demo_filename "asm" "sw01"
                     0.2 0.7 (length pre') last r.2]>
                 (fs empty_world).
Proof.
  apply (failed_step_keeps_previous demo_float "/home/run" demo_clock demo_filename
           demo_filename demo_optics "SO4" "001" "sw01" 0.2 0.7 0
           [demo_snapshot] [demo_snapshot] demo_even_snapshot ValueError empty_world
           "asm" "SO4" 0).
  - vm_compute. reflexivity.
  - reflexivity.
  - constructor; [exact demo_step_Ok|constructor].
  - vm_compute. reflexivity.
Defined.

Lemma date_str_geosit_witness :
  ∃ r, time_step demo_optics "SO4" 0 0 demo_snapshot = Ok r
       ∧ date_str ("in" ++ "/GEOS.it.asm." ++ "aer_inst_3hr_glo_L576x361_v72.nc4")
         = Ok "asm"
       ∧ attrs (ds_sub_out demo_float "/home/run" demo_clock
                  ("in" ++ "/GEOS.it.asm." ++ "aer_inst_3hr_glo_L576x361_v72.nc4")
                  "asm" "sw01" 0.2 0.7 1 demo_snapshot r.2) !! "datetime"
         = Some ("asm_" ++ Py.format_0d 2 (3 * 1) ++ "Z").
Proof.
  destruct demo_step_Ok as [r Hr]. exists r. split; [exact Hr|].
  apply (date_str_geosit demo_float "/home/run" demo_clock "in"
           "aer_inst_3hr_glo_L576x361_v72.nc4" "sw01" 0.2 0.7 1 demo_snapshot r.2).
  reflexivity.
Defined.

End SpeciesOpticsFilesProofs.

(** ** The converter's files as input of the aggregator *)

Module PipelineProofs.

Import SpeciesOptics ExternalMix ExternalMixProofs AggregatorProofs SpeciesOpticsFiles
  SpeciesOpticsFilesProofs.




End PipelineProofs.

(** ** validate_run.py *)

Module ValidateRunProofs.

Import ExternalMix ValidateRun AggregatorProofs.

(** *** [check_files] *)

Lemma check_files_acc (d : disk) paths : ∀ found missing zero_size,
  foldl (λ '(found, missing, zero_size) p,
           match d !! p with
           | None => (found, missing ++ [p], zero_size)
           | Some 0%N => (found, missing, zero_size ++ [p])
           | Some _ => (found ++ [p], missing, zero_size)
           end)%list
        (found, missing, zero_size) paths
  = ((found ++ filter (present d) paths)%list,
     (missing ++ filter (absent d) paths)%list,
     (zero_size ++ filter (empty_file d) paths)%list).
Proof.
  induction paths as [|p paths IH]; intros found missing zero_size.
  - simpl. by rewrite !app_nil_r.
  - cbn [foldl]. rewrite !filter_cons.
    destruct (decide (present d p)) as [Hp|Hp], (decide (absent d p)) as [Ha|Ha],
      (decide (empty_file d p)) as [He|He];
      unfold present, absent, empty_file in Hp, Ha, He;
      destruct (d !! p) as [[|n]|] eqn:E; try done; try congruence;
      rewrite IH, <- ?app_assoc; try done.
    all: exfalso; apply Hp; done.
Qed.

Lemma check_files_filter (d : disk) paths :
  check_files d paths
  = (filter (present d) paths, filter (absent d) paths, filter (empty_file d) paths).
Proof. unfold check_files. by rewrite check_files_acc. Qed.

Lemma status_length (d : disk) paths :
  length paths
  = (length (filter (present d) paths) + length (filter (absent d) paths)
     + length (filter (empty_file d) paths))%nat.
Proof.
  induction paths as [|p paths IH]; [done|].
  rewrite !filter_cons.
  destruct (decide (present d p)) as [Hp|Hp], (decide (absent d p)) as [Ha|Ha],
    (decide (empty_file d p)) as [He|He];
    unfold present, absent, empty_file in Hp, Ha, He;
    destruct (d !! p) as [[|n]|] eqn:E; try done; try congruence; simpl; try lia.
  all: exfalso; apply Hp; done.
Qed.

Lemma present_not_absent (d : disk) paths :
  Forall (present d) paths ↔ filter (absent d) paths = [] ∧ filter (empty_file d) paths = [].
Proof.
  induction paths as [|p paths IH]; [by split|].
  rewrite Forall_cons, !filter_cons, IH.
  destruct (decide (absent d p)) as [Ha|Ha], (decide (empty_file d p)) as [He|He];
    unfold present, absent, empty_file in Ha, He |- *;
    destruct (d !! p) as [[|n]|]; try done; try congruence;
    (split; [by intros [? [? ?]]|by intros [? ?]]).
Qed.

Lemma filter_join {A} (P : A → Prop) `{∀ x, Decision (P x)} (ls : list (list A)) :
  filter P (mjoin ls) = mjoin (filter P <$> ls).
Proof.
  induction ls as [|l ls IH]; [done|]. simpl. by rewrite filter_app, IH.
Qed.

(** *** The day groups *)

Lemma group_step_flat (G : gmap string (list string)) day p :
  mjoin (map_to_list (<[day := (default [] (G !! day) ++ [p])%list]> G)).*2
  ≡ₚ (mjoin (map_to_list G).*2 ++ [p])%list.
Proof.
  destruct (G !! day) as [l|] eqn:E; cbn [from_option]; unfold id.
  - rewrite <- (insert_delete_eq G).
    rewrite map_to_list_insert by apply lookup_delete_eq.
    rewrite <- (map_to_list_delete G day l E). cbn [fmap list_fmap mjoin list_join snd].
    rewrite <- !app_assoc. apply Permutation_app_head, Permutation_app_comm.
  - rewrite map_to_list_insert by done. cbn [fmap list_fmap mjoin list_join snd app].
    apply Permutation_cons_append.
Qed.

Lemma group_days_flat paths : ∀ G G',
  group_days paths G = Ok G' →
  mjoin (map_to_list G').*2 ≡ₚ (mjoin (map_to_list G).*2 ++ paths)%list.
Proof.
  induction paths as [|p paths IH]; intros G G' H; cbn [group_days] in H.
  - injection H as ->. by rewrite app_nil_r.
  - destruct (day_of p) as [day|] eqn:E; [|done]. cbn [bind] in H.
    rewrite (IH _ _ H), group_step_flat, <- app_assoc. done.
Qed.

Lemma group_days_total paths :
  Forall (λ p, ∃ day, day_of p = Ok day) paths →
  ∀ G, ∃ G', group_days paths G = Ok G'.
Proof.
  induction 1 as [|p paths [day Hd] _ IH]; intros G; cbn [group_days].
  - by exists G.
  - rewrite Hd. cbn [bind]. apply IH.
Qed.

Lemma group_days_Ok paths : ∀ G G',
  group_days paths G = Ok G' → Forall (λ p, ∃ day, day_of p = Ok day) paths.
Proof.
  induction paths as [|p paths IH]; intros G G' H; [constructor|].
  cbn [group_days] in H. destruct (day_of p) as [day|] eqn:E; [|done].
  constructor; [by exists day|]. by apply (IH _ _ H).
Qed.

(** Every group is filed under the day of its paths, and no group is
    empty. *)
Lemma group_days_keys paths : ∀ G G',
  map_Forall (λ day l, l ≠ [] ∧ Forall (λ p, day_of p = Ok day) l) G →
  group_days paths G = Ok G' →
  map_Forall (λ day l, l ≠ [] ∧ Forall (λ p, day_of p = Ok day) l) G'.
Proof.
  induction paths as [|p paths IH]; intros G G' HG H; cbn [group_days] in H.
  - by injection H as ->.
  - destruct (day_of p) as [day|] eqn:E; [|done]. cbn [bind] in H.
    refine (IH _ _ _ H). clear IH H.
    intros k l Hk. destruct (decide (k = day)) as [->|Hne].
    + rewrite lookup_insert_eq in Hk. injection Hk as <-. split.
      * by destruct (default [] (G !! day)).
      * apply Forall_app. split; [|by constructor].
        destruct (G !! day) as [l0|] eqn:E0; [|constructor]. by apply (HG day l0).
    + rewrite lookup_insert_ne in Hk by done. by apply HG.
Qed.

Lemma lookup_keys (G : gmap string (list string)) (l : list (string * list string)) :
  Forall (λ kv, G !! kv.1 = Some kv.2) l →
  (λ k, default [] (G !! k)) <$> l.*1 = l.*2.
Proof.
  induction 1 as [|[k v] l H _ IH]; [done|]. cbn [fmap list_fmap fst snd] in *.
  by rewrite H, IH.
Qed.

Lemma lookup_map_keys (G : gmap string (list string)) :
  (λ k, default [] (G !! k)) <$> (map_to_list G).*1 = (map_to_list G).*2.
Proof.
  apply lookup_keys, Forall_forall. intros [k v] H. by apply elem_of_map_to_list.
Qed.

(** *** The table *)

Lemma row_ok_decide (d : disk) l :
  is_nil (filter (absent d) l) && is_nil (filter (empty_file d) l)
  = bool_decide (Forall (present d) l).
Proof.
  destruct (bool_decide_reflect (Forall (present d) l)) as [H|H].
  - apply present_not_absent in H as [-> ->]. done.
  - destruct (filter (absent d) l) eqn:Ea; [|done].
    destruct (filter (empty_file d) l) eqn:Ee; [|done].
    exfalso. apply H, present_not_absent. done.
Qed.

Lemma check_days_acc (d : disk) (G : gmap string (list string)) keys :
  ∀ rows all_missing all_zero,
  foldl (λ '(rows, all_missing, all_zero) day,
           let day_paths := default [] (G !! day) in
           let '(found, missing, zero_size) := check_files d day_paths in
           (rows ++ [{| row_day := day;
                        n_expected := length day_paths;
                        n_found := length found;
                        n_missing := length missing;
                        n_zero := length zero_size;
                        row_ok := is_nil missing && is_nil zero_size |}],
            all_missing ++ missing,
            all_zero ++ zero_size))%list
        (rows, all_missing, all_zero) keys
  = ((rows ++ ((λ k, row_of d k (default [] (G !! k))) <$> keys))%list,
     (all_missing ++ mjoin ((λ k, filter (absent d) (default [] (G !! k))) <$> keys))%list,
     (all_zero ++ mjoin ((λ k, filter (empty_file d) (default [] (G !! k))) <$> keys))%list).
Proof.
  induction keys as [|k keys IH]; intros rows all_missing all_zero.
  - simpl. by rewrite !app_nil_r.
  - cbn [foldl]. cbv zeta. rewrite check_files_filter, IH, row_ok_decide.
    cbn [fmap list_fmap mjoin list_join]. unfold row_of. by rewrite <- !app_assoc.
Qed.

Lemma check_days_eq (d : disk) (G : gmap string (list string)) :
  check_days d G
  = ((λ k, row_of d k (default [] (G !! k))) <$> sorted (map_to_list G).*1,
     mjoin ((λ k, filter (absent d) (default [] (G !! k))) <$> sorted (map_to_list G).*1),
     mjoin ((λ k, filter (empty_file d) (default [] (G !! k)))
              <$> sorted (map_to_list G).*1)).
Proof. unfold check_days. by rewrite check_days_acc. Qed.

Lemma groups_filter (P : string → Prop) `{∀ x, Decision (P x)}
    (G : gmap string (list string)) paths :
  mjoin (map_to_list G).*2 ≡ₚ paths →
  mjoin ((λ k, filter P (default [] (G !! k))) <$> sorted (map_to_list G).*1)
  ≡ₚ filter P paths.
Proof.
  intros HG. rewrite sorted_Permutation.
  change (λ k, filter P (default [] (G !! k)))
    with (filter P ∘ (λ k, default [] (G !! k))).
  rewrite list_fmap_compose, lookup_map_keys, <- filter_join. by rewrite HG.
Qed.

(** *** [check_run] *)

Lemma check_run_report (d : disk) paths r :
  check_run d paths = Ok r →
  ∃ G all_missing all_zero,
    group_days paths ∅ = Ok G
    ∧ mjoin (map_to_list G).*2 ≡ₚ paths
    ∧ all_missing ≡ₚ filter (absent d) paths
    ∧ all_zero ≡ₚ filter (empty_file d) paths
    ∧ r = {| rows := (λ k, row_of d k (default [] (G !! k))) <$> sorted (map_to_list G).*1;
             total := length paths;
             total_ok := (Z.of_nat (length paths) - Z.of_nat (length all_missing)
                          - Z.of_nat (length all_zero))%Z;
             total_missing := length all_missing;
             total_zero := length all_zero;
             log_file :=
               if negb (is_nil all_missing) || negb (is_nil all_zero)
               then Some (((λ p, String.append "MISSING  " p) <$> all_missing)
                          ++ ((λ p, String.append "ZERO     " p) <$> all_zero))%list
               else None;
             exit_code := if negb (is_nil all_missing) || negb (is_nil all_zero)
                          then 1%Z else 0%Z |}.
Proof.
  unfold check_run. intros H.
  destruct (group_days paths ∅) as [G|] eqn:EG; [|done]. cbn [bind] in H.
  rewrite check_days_eq in H.
  assert (HG : mjoin (map_to_list G).*2 ≡ₚ paths).
  { rewrite (group_days_flat _ _ _ EG), map_to_list_empty. done. }
  eexists G, _, _. split; [done|]. split; [done|].
  split; [by apply groups_filter|]. split; [by apply groups_filter|].
  cbv zeta in H.
  destruct (negb (is_nil _) || negb (is_nil _)); by injection H as <-.
Qed.

Lemma is_nil_length {A} (l : list A) : is_nil l = true ↔ length l = 0%nat.
Proof. by destruct l. Qed.

Lemma sum_list_Permutation (l l' : list nat) : l ≡ₚ l' → sum_list l = sum_list l'.
Proof. induction 1; simpl; lia. Qed.

Lemma group_days_const k paths : ∀ G,
  Forall (λ p, day_of p = Ok k) paths → paths ≠ [] →
  group_days paths G = Ok (<[k := (default [] (G !! k) ++ paths)%list]> G).
Proof.
  induction paths as [|p paths IH]; intros G H Hne; [done|].
  apply Forall_cons in H as [Hp H]. cbn [group_days]. rewrite Hp. cbn [bind].
  destruct paths as [|q paths]; [done|].
  rewrite IH by done. rewrite lookup_insert_eq. cbn [from_option]; unfold id.
  rewrite insert_insert_eq. unfold id. by rewrite <- app_assoc.
Qed.

Lemma split_sep sep a b :
  Py.split sep (a ++ String sep b) = (Py.split sep a ++ Py.split sep b)%list.
Proof.
  induction a as [|c a IH].
  - change (String.append EmptyString (String sep b)) with (String sep b).
    cbn [Py.split]. by rewrite Ascii.eqb_refl.
  - change (String.append (String c a) (String sep b))
      with (String c (String.append a (String sep b))).
    cbn [Py.split]. rewrite IH. destruct (Ascii.eqb c sep); [done|].
    destruct (Py.split sep a) as [|p ps] eqn:E; [|done].
    clear IH. exfalso. destruct a as [|c' a]; [done|]. cbn [Py.split] in E.
    destruct (Ascii.eqb c' sep); [done|]. by destruct (Py.split sep a).
Qed.

Lemma day_of_version p stem :
  basename p = stem ++ ".V01.nc4" → day_of p = Ok "V01".
Proof.
  intros H. unfold day_of. rewrite H.
  change (String.append stem ".V01.nc4") with (String.append stem (String "." "V01.nc4")).
  rewrite split_sep.
  change (Py.split "." "V01.nc4") with ["V01"; "nc4"].
  assert (Hi : Np.index (length (Py.split "." stem ++ ["V01"; "nc4"])%list) (-2)
               = Ok (length (Py.split "." stem))).
  { unfold Np.index. rewrite length_app. cbn [length].
    change (0 <=? -2)%Z with false. cbn [andb].
    change (-2 <? 0)%Z with true. rewrite andb_true_r.
    destruct (Z.leb_spec (- Z.of_nat (length (Py.split "." stem) + 2)) (-2)); [|lia].
    f_equal. lia. }
  unfold Np.get. rewrite Hi. cbn [bind].
  rewrite lookup_app_r, Nat.sub_diag by lia. reflexivity.
Qed.

Lemma group_days_lookup paths k : ∀ G G',
  group_days paths G = Ok G' →
  default [] (G' !! k)
  = (default [] (G !! k) ++ filter (λ p, day_of p = Ok k) paths)%list.
Proof.
  induction paths as [|p paths IH]; intros G G' H; cbn [group_days] in H.
  - injection H as ->. by rewrite app_nil_r.
  - destruct (day_of p) as [day|] eqn:E; [|done]. cbn [bind] in H.
    rewrite (IH _ _ H), filter_cons. clear IH H.
    destruct (decide (day_of p = Ok k)) as [Hk|Hk].
    + assert (day = k) as -> by congruence.
      rewrite lookup_insert_eq. cbn [from_option]; unfold id. by rewrite <- app_assoc.
    + rewrite lookup_insert_ne by congruence. done.
Qed.

Lemma group_days_dom paths k : ∀ G G',
  group_days paths G = Ok G' →
  is_Some (G' !! k) ↔ is_Some (G !! k) ∨ ∃ p, p ∈ paths ∧ day_of p = Ok k.
Proof.
  induction paths as [|p paths IH]; intros G G' H; cbn [group_days] in H.
  - injection H as ->. split; [by left|]. intros [?|(p & Hp & _)]; [done|].
    by apply elem_of_nil in Hp.
  - destruct (day_of p) as [day|] eqn:E; [|done]. cbn [bind] in H.
    rewrite (IH _ _ H). clear IH H. rewrite lookup_insert_is_Some. split.
    + intros [[->|[_ HG]]|(q & Hq & Hk)].
      * right. exists p. split; [left|done].
      * by left.
      * right. exists q. split; [by right|done].
    + intros [HG|(q & Hq & Hk)].
      * left. destruct (decide (day = k)); [by left|by right].
      * apply elem_of_cons in Hq as [->|Hq].
        -- left. left. congruence.
        -- right. by exists q.
Qed.

Lemma keys_elem (G : gmap string (list string)) k :
  k ∈ sorted (map_to_list G).*1 ↔ is_Some (G !! k).
Proof.
  rewrite sorted_Permutation, list_elem_of_fmap. split.
  - intros ([k' v] & -> & H). apply elem_of_map_to_list in H. by exists v.
  - intros [v H]. exists (k, v). split; [done|]. by apply elem_of_map_to_list.
Qed.

(** *** The verdict *)

(** X24.  When every path has a day (its base name has at least two
    dot-separated fields) the check ends with a report whose totals count
    the paths by their state on disk, with exit status 0 exactly when every
    expected path exists with a size other than zero and 1 otherwise, and
    the log file is written exactly when the status is 1. *)
Theorem validator_verdict (d : disk) (paths : list string) :
  Forall (λ p, ∃ day, day_of p = Ok day) paths →
  ∃ r, check_run d paths = Ok r
    ∧ total r = length paths
    ∧ total_ok r = Z.of_nat (length (filter (present d) paths))
    ∧ total_missing r = length (filter (absent d) paths)
    ∧ total_zero r = length (filter (empty_file d) paths)
    ∧ (exit_code r = 0%Z ↔ Forall (present d) paths)
    ∧ (exit_code r = 1%Z ↔ ¬ Forall (present d) paths)
    ∧ (log_file r = None ↔ exit_code r = 0%Z).
Proof.
  intros Hdays.
  destruct (check_run d paths) as [r|e] eqn:E.
  - exists r. split; [done|].
    destruct (check_run_report _ _ _ E) as (G & am & az & _ & _ & Ham & Haz & ->).
    cbn [total total_ok total_missing total_zero exit_code log_file].
    assert (Hnil : negb (is_nil am) || negb (is_nil az) = false
                   ↔ Forall (present d) paths).
    { rewrite present_not_absent, orb_false_iff, !negb_false_iff, !is_nil_length.
      rewrite (Permutation_length Ham), (Permutation_length Haz).
      by rewrite !length_zero_iff_nil. }
    rewrite (Permutation_length Ham), (Permutation_length Haz).
    split; [done|]. split; [rewrite (status_length d paths) at 1; lia|].
    split; [done|]. split; [done|].
    rewrite <- Hnil. destruct (negb (is_nil am) || negb (is_nil az)); by repeat split.
  - exfalso. unfold check_run in E.
    destruct (group_days_total paths Hdays ∅) as [G HG]. rewrite HG in E.
    cbn [bind] in E. rewrite check_days_eq in E. cbv zeta in E.
    by destruct (negb (is_nil _) || negb (is_nil _)).
Qed.

(** X25.  The log file lists every missing path on a line that begins
    with MISSING and then every empty file on a line that begins with ZERO:
    one line for each occurrence of such a path among the expected paths,
    and no other line. *)
Theorem validator_log (d : disk) (paths : list string) (r : report)
    (lines : list string) :
  check_run d paths = Ok r →
  log_file r = Some lines →
  ∃ missing zero_size,
    lines = (((λ p, String.append "MISSING  " p) <$> missing)
             ++ ((λ p, String.append "ZERO     " p) <$> zero_size))%list
    ∧ missing ≡ₚ filter (absent d) paths
    ∧ zero_size ≡ₚ filter (empty_file d) paths.
Proof.
  intros E Hlog.
  destruct (check_run_report _ _ _ E) as (G & am & az & _ & _ & Ham & Haz & ->).
  cbn [log_file] in Hlog. exists am, az.
  destruct (negb (is_nil am) || negb (is_nil az)); [|done].
  by injection Hlog as <-.
Qed.

(** X26.  The table has one row for every day that some expected path
    has, in ascending order of the days and no day twice, and the row of a
    day counts the paths of that day: how many are expected, found, missing
    and empty, and OK only if all are found. *)
Theorem validator_rows (d : disk) (paths : list string) (r : report) :
  check_run d paths = Ok r →
  ∃ days,
    ascending days
    ∧ (∀ k, k ∈ days ↔ ∃ p, p ∈ paths ∧ day_of p = Ok k)
    ∧ rows r = (λ k, row_of d k (filter (λ p, day_of p = Ok k) paths)) <$> days.
Proof.
  intros E.
  destruct (check_run_report _ _ _ E) as (G & am & az & HG & _ & _ & _ & ->).
  cbn [rows]. exists (sorted (map_to_list G).*1). split; [|split].
  - apply sorted_ascending, NoDup_fst_map_to_list.
  - intros k. rewrite keys_elem, (group_days_dom _ _ _ _ HG), lookup_empty.
    split; [intros [[? ?]|?]; done|by right].
  - apply list_fmap_ext. intros _ k _.
    by rewrite (group_days_lookup _ k _ _ HG), lookup_empty.
Qed.

(** X27.  The rows add up: the numbers of expected files of the rows sum
    to the total, no row is empty, and in every row the expected files are
    the found, the missing and the empty ones together. *)
Theorem rows_add_up (d : disk) (paths : list string) (r : report) :
  check_run d paths = Ok r →
  sum_list (n_expected <$> rows r) = total r
  ∧ Forall (λ row, (0 < n_expected row)%nat
                   ∧ n_expected row = (n_found row + n_missing row + n_zero row)%nat
                   ∧ (row_ok row = true ↔ n_missing row = 0%nat ∧ n_zero row = 0%nat))
           (rows r).
Proof.
  intros E.
  destruct (check_run_report _ _ _ E) as (G & am & az & HG & Hflat & _ & _ & ->).
  cbn [rows total]. split.
  - rewrite <- list_fmap_compose.
    change (n_expected ∘ (λ k, row_of d k (default [] (G !! k))))
      with (length ∘ (λ k : string, default [] (G !! k))).
    rewrite list_fmap_compose.
    rewrite (sum_list_Permutation _ (length <$> (map_to_list G).*2)).
    + by rewrite <- length_join, Hflat.
    + by rewrite sorted_Permutation, lookup_map_keys.
  - apply Forall_fmap, Forall_forall. intros k Hk. cbn [compose].
    apply keys_elem in Hk as [l Hl]. rewrite Hl. cbn [from_option]; unfold id.
    unfold row_of. cbn [n_expected n_found n_missing n_zero row_ok].
    split; [|split].
    + assert (Hkeys := group_days_keys paths ∅ G (map_Forall_empty _) HG).
      destruct (Hkeys k l Hl) as [Hne _]. destruct l; [done|]. simpl. lia.
    + apply status_length.
    + rewrite bool_decide_eq_true, present_not_absent, !length_zero_iff_nil. done.
Qed.

(** X28.  Expected paths named as the file pattern names them, with a
    base name that ends in [.V01.nc4], all have the day [V01], the field
    before the extension: the table of a check of such paths has a single
    row, labelled [V01], that counts all of them. *)
Theorem table_has_one_row (d : disk) (paths : list string) :
  paths ≠ [] →
  Forall (λ p, ∃ stem, basename p = stem ++ ".V01.nc4") paths →
  Forall (λ p, day_of p = Ok "V01") paths
  ∧ ∃ r, check_run d paths = Ok r ∧ rows r = [row_of d "V01" paths].
Proof.
  intros Hne Hnames.
  assert (Hdays : Forall (λ p, day_of p = Ok "V01") paths).
  { eapply Forall_impl; [exact Hnames|]. intros p [stem H]. by apply (day_of_version p stem). }
  split; [done|].
  assert (HG := group_days_const "V01" paths ∅ Hdays Hne).
  rewrite lookup_empty in HG. cbn [from_option app] in HG; unfold id in HG; cbn [app] in HG.
  destruct (check_run d paths) as [r|e] eqn:E.
  - exists r. split; [done|].
    destruct (check_run_report _ _ _ E) as (G & am & az & HG' & _ & _ & _ & ->).
    rewrite HG in HG'. injection HG' as <-. cbn [rows].
    rewrite insert_empty, map_to_list_singleton. cbn [fmap list_fmap fst].
    change (sorted ["V01"]) with ["V01"]. cbn [fmap list_fmap].
    by rewrite lookup_singleton_eq.
  - exfalso. unfold check_run in E. rewrite HG in E.
    cbn [bind] in E. rewrite check_days_eq in E. cbv zeta in E.
    by destruct (negb (is_nil _) || negb (is_nil _)).
Qed.

(** *** The expected paths *)

Lemma band_paths_length datadir file_pattern yyyy mm dd hh species
    (include_species include_aer : bool) band :
  length (band_paths datadir file_pattern yyyy mm dd hh species
            include_species include_aer band)
  = ((if include_species then length species else 0)
     + (if include_aer then 1 else 0))%nat.
Proof.
  unfold band_paths. rewrite length_app.
  destruct include_species, include_aer; by rewrite ?length_fmap.
Qed.

Lemma date_paths_length datadir file_pattern species bands
    (include_species include_aer : bool) date_str :
  length (Py.split "-" date_str) = 6%nat →
  ∃ l, date_paths datadir file_pattern species bands include_species include_aer date_str
       = Ok l
       ∧ length l
         = (length bands * ((if include_species then length species else 0)
                            + (if include_aer then 1 else 0)))%nat.
Proof.
  unfold date_paths. intros H.
  destruct (Py.split "-" date_str) as [|yyyy [|mm [|b [|dd [|j [|hh [|x t]]]]]]]; try done.
  eexists. split; [done|].
  rewrite length_join, <- list_fmap_compose.
  apply sum_list_fmap_same, Forall_forall. intros band _.
  apply band_paths_length.
Qed.

Lemma date_paths_fields datadir file_pattern species bands
    (include_species include_aer : bool) date_str :
  length (Py.split "-" date_str) ≠ 6%nat →
  date_paths datadir file_pattern species bands include_species include_aer date_str
  = Raise ValueError.
Proof.
  unfold date_paths. intros H.
  by destruct (Py.split "-" date_str) as [|yyyy [|mm [|b [|dd [|j [|hh [|x t]]]]]]].
Qed.

Lemma build_file_list_length datadir file_pattern dates species bands
    (include_species include_aer : bool) :
  Forall (λ s, length (Py.split "-" s) = 6%nat) dates →
  ∃ paths,
    build_file_list datadir file_pattern dates species bands include_species include_aer
    = Ok paths
    ∧ length paths
      = (length dates * (length bands * ((if include_species then length species else 0)
                                         + (if include_aer then 1 else 0))))%nat.
Proof.
  unfold build_file_list. intros H.
  assert (∃ per_date,
            traverse (date_paths datadir file_pattern species bands
                        include_species include_aer) dates = Ok per_date
            ∧ length (mjoin per_date)
              = (length dates * (length bands
                                 * ((if include_species then length species else 0)
                                    + (if include_aer then 1 else 0))))%nat)
    as (per_date & -> & Hlen).
  { induction H as [|date_str dates Hd _ (per_date & IH & Hlen)]; [by exists []|].
    destruct (date_paths_length datadir file_pattern species bands include_species
                include_aer date_str Hd) as (l & Hl & Hn).
    exists (l :: per_date). cbn [traverse]. rewrite Hl, IH. split; [done|].
    change (mjoin (l :: per_date)) with (l ++ mjoin per_date)%list.
    rewrite length_app, Hn, Hlen. cbn [length]. lia. }
  by exists (mjoin per_date).
Qed.

Lemma build_file_list_fields datadir file_pattern dates species bands
    (include_species include_aer : bool) :
  Exists (λ s, length (Py.split "-" s) ≠ 6%nat) dates →
  build_file_list datadir file_pattern dates species bands include_species include_aer
  = Raise ValueError.
Proof.
  unfold build_file_list. intros H.
  assert (traverse (date_paths datadir file_pattern species bands
                      include_species include_aer) dates = Raise ValueError) as ->; [|done].
  induction dates as [|date_str dates IH]; [by apply Exists_nil in H|].
  cbn [traverse].
  destruct (decide (length (Py.split "-" date_str) = 6%nat)) as [Hd|Hd].
  - destruct (date_paths_length datadir file_pattern species bands include_species
                include_aer date_str Hd) as (l & -> & _).
    cbn [bind]. apply Exists_cons in H as [H|H]; [done|]. by rewrite IH.
  - by rewrite date_paths_fields.
Qed.

(** X29.  A dry run lists 26 bands times 17 labels, 442 paths, for every
    time step: 416 with [--species-only] and 26 with [--aer-only], whatever
    is on disk; with both options it ends with the usage error, and a
    formatted date that does not have six hyphen-separated fields raises
    [ValueError]. *)
Theorem expected_file_count (datadir : string) (ceres species_only aer_only : bool)
    (dates : list string) (d : disk) :
  (species_only && aer_only = true →
   main datadir ceres species_only aer_only true dates d = Ok Usage)
  ∧ (species_only && aer_only = false →
     Forall (λ s, length (Py.split "-" s) = 6%nat) dates →
     ∃ paths,
       main datadir ceres species_only aer_only true dates d
       = Ok (DryRun paths (length paths))
       ∧ length paths
         = (length dates * (26 * ((if aer_only then 0 else 16)
                                  + (if species_only then 0 else 1))))%nat)
  ∧ (species_only && aer_only = false →
     Exists (λ s, length (Py.split "-" s) ≠ 6%nat) dates →
     main datadir ceres species_only aer_only true dates d = Raise ValueError).
Proof.
  unfold main. split; [by intros ->|]. split.
  - intros -> Hdates. cbv zeta.
    destruct (build_file_list_length
                (if ceres then "/CERES/sarb/dfillmor/" else datadir)
                (if ceres then Py.replace "GEOSIT/" "GEOSIT_alpha_4/" FILE_PATTERN
                 else FILE_PATTERN)
                dates ALL_SPECIES ALL_BANDS (negb aer_only) (negb species_only) Hdates)
      as (paths & -> & Hlen).
    exists paths. split; [done|]. rewrite Hlen.
    change (length ALL_BANDS) with 26%nat. change (length ALL_SPECIES) with 16%nat.
    by destruct aer_only, species_only.
  - intros -> Hdates. cbv zeta.
    by rewrite build_file_list_fields.
Qed.

(** *** Instances *)

Lemma demo_paths_days : Forall (λ p, ∃ day, day_of p = Ok day) demo_paths.
Proof. repeat constructor; by exists "V01". Qed.

Lemma validator_verdict_witness :
  ∃ r, check_run demo_disk demo_paths = Ok r
    ∧ total r = length demo_paths
    ∧ total_ok r = Z.of_nat (length (filter (present demo_disk) demo_paths))
    ∧ total_missing r = length (filter (absent demo_disk) demo_paths)
    ∧ total_zero r = length (filter (empty_file demo_disk) demo_paths)
    ∧ (exit_code r = 0%Z ↔ Forall (present demo_disk) demo_paths)
    ∧ (exit_code r = 1%Z ↔ ¬ Forall (present demo_disk) demo_paths)
    ∧ (log_file r = None ↔ exit_code r = 0%Z).
Proof. exact (validator_verdict demo_disk demo_paths demo_paths_days). Defined.

Lemma demo_run : ∃ r lines,
  check_run demo_disk demo_paths = Ok r ∧ log_file r = Some lines.
Proof. eexists _, _. split; vm_compute; reflexivity. Qed.

Lemma validator_log_witness :
  ∃ r lines missing zero_size,
    check_run demo_disk demo_paths = Ok r
    ∧ log_file r = Some lines
    ∧ lines = (((λ p, String.append "MISSING  " p) <$> missing)
               ++ ((λ p, String.append "ZERO     " p) <$> zero_size))%list
    ∧ missing ≡ₚ filter (absent demo_disk) demo_paths
    ∧ zero_size ≡ₚ filter (empty_file demo_disk) demo_paths.
Proof.
  destruct demo_run as (r & lines & Hr & Hl).
  destruct (validator_log demo_disk demo_paths r lines Hr Hl) as (missing & zs & H).
  exists r, lines, missing, zs. split; [exact Hr|]. split; [exact Hl|exact H].
Defined.

Lemma validator_rows_witness :
  ∃ r days,
    check_run demo_disk demo_paths = Ok r
    ∧ ascending days
    ∧ (∀ k, k ∈ days ↔ ∃ p, p ∈ demo_paths ∧ day_of p = Ok k)
    ∧ rows r = (λ k, row_of demo_disk k (filter (λ p, day_of p = Ok k) demo_paths))
               <$> days.
Proof.
  destruct demo_run as (r & lines & Hr & _).
  destruct (validator_rows demo_disk demo_paths r Hr) as (days & H).
  exists r, days. split; [exact Hr|exact H].
Defined.

Lemma rows_add_up_witness :
  ∃ r,
    check_run demo_disk demo_paths = Ok r
    ∧ sum_list (n_expected <$> rows r) = total r
    ∧ Forall (λ row, (0 < n_expected row)%nat
                     ∧ n_expected row = (n_found row + n_missing row + n_zero row)%nat
                     ∧ (row_ok row = true ↔ n_missing row = 0%nat ∧ n_zero row = 0%nat))
             (rows r).
Proof.
  destruct demo_run as (r & lines & Hr & _).
  exists r. split; [exact Hr|]. exact (rows_add_up demo_disk demo_paths r Hr).
Defined.

Lemma table_has_one_row_witness :
  Forall (λ p, day_of p = Ok "V01") demo_paths
  ∧ ∃ r, check_run demo_disk demo_paths = Ok r
         ∧ rows r = [row_of demo_disk "V01" demo_paths].
Proof.
  apply (table_has_one_row demo_disk demo_paths); [discriminate|].
  repeat constructor.
  - by exists "GEOS.SO4_SW01.2010-01-02T0000".
  - by exists "GEOS.SO4_SW01.2010-01-01T0000".
  - by exists "GEOS.AER_SW01.2010-01-02T0000".
  - by exists "GEOS.AER_SW01.2010-01-01T0000".
Defined.

Lemma expected_file_count_witness :
  ∃ paths,
    main "/data" false false false true demo_dates ∅ = Ok (DryRun paths (length paths))
    ∧ length paths = (length demo_dates * (26 * (16 + 1)))%nat.
Proof.
  destruct (expected_file_count "/data" false false false demo_dates ∅) as (_ & H & _).
  apply H; [reflexivity|]. repeat constructor.
Defined.

End ValidateRunProofs.
